(** * Quick Learn / SnapLearn: the adaptive assessment core

    A shallow embedding of the decision logic of the adaptive quiz
    application ([app.py], [llm_handler.py], [report_generator.py]) and of
    the quick-revision endpoint ([snap_learn.py]), with the properties the
    specification states about them.

    Conventions.  A Python [int] is a [Z]; a Python [str] is the list of its
    code points; a Python list is a Rocq list; a value decoded from JSON is
    a [pyval].  Rendering calls (markup, spinners, metrics widgets) emit
    output only and are left out; every statement that reads or writes
    [st.session_state] is kept. *)

From Stdlib Require Import String Ascii.
From Stdlib Require Import NArith ZArith QArith Lia Lqa Bool Arith.
From Stdlib Require Import Sorted Permutation List.
Import ListNotations.

Set Warnings "-register-all".

Local Open Scope Z_scope.

(** ** Python list helpers *)

(** [l[-n:]]: the slice starts at [max (len l - n) 0]. *)
Definition slice_last {A} (n : nat) (l : list A) : list A :=
  skipn (length l - n) l.

(** [l[:n]]. *)
Definition slice_first {A} (n : nat) (l : list A) : list A := firstn n l.

(** [sum(l)] on a list of ints: left to right from 0. *)
Definition py_sum (l : list Z) : Z := fold_left Z.add l 0.

(** ** Python values *)

(** A [str] is the sequence of its code points. *)
Definition str := list N.

(** A literal of the source, written as a Rocq string of ASCII characters. *)
Definition lit (s : string) : str := map N_of_ascii (list_ascii_of_string s).

Fixpoint str_eqb (a b : str) : bool :=
  match a, b with
  | [], [] => true
  | x :: a', y :: b' => N.eqb x y && str_eqb a' b'
  | _, _ => false
  end.

(** A Python float, by its exact value; [0.0] and [-0.0] are both
    [FFinite 0], which neither [==] nor truth testing tells apart. *)
Inductive pyfloat :=
| FNaN
| FInf (negative : bool)
| FFinite (value : Q).

(** The values [json.loads] builds, which are also the values the session
    stores: [None], [bool], [int], [float], [str], [list], and [dict] with
    string keys in insertion order. *)
Inductive pyval :=
| PNone
| PBool (b : bool)
| PInt (z : Z)
| PFloat (f : pyfloat)
| PStr (s : str)
| PList (items : list pyval)
| PDict (entries : list (str * pyval)).

Definition pydict := list (str * pyval).

(** [d.get(key)] *)
Fixpoint dict_get (d : pydict) (key : str) : option pyval :=
  match d with
  | [] => None
  | (k, v) :: d' => if str_eqb k key then Some v else dict_get d' key
  end.

(** [d.get(key, default)] *)
Definition dict_get_or (d : pydict) (key : str) (default : pyval) : pyval :=
  match dict_get d key with Some v => v | None => default end.

(** [d[key] = value]: an existing key keeps its place, a new one goes last. *)
Fixpoint dict_set (d : pydict) (key : str) (value : pyval) : pydict :=
  match d with
  | [] => [(key, value)]
  | (k, v) :: d' =>
      if str_eqb k key then (k, value) :: d'
      else (k, v) :: dict_set d' key value
  end.

(** [list(d.keys())] *)
Definition dict_keys (d : pydict) : list str := map fst d.

(** Truth value of an object, as [if x], [not x] and [bool(x)] take it. *)
Definition py_truthy (v : pyval) : bool :=
  match v with
  | PNone => false
  | PBool b => b
  | PInt z => negb (z =? 0)
  | PFloat (FFinite q) => negb (Qeq_bool q 0)
  | PFloat _ => true
  | PStr s => match s with [] => false | _ => true end
  | PList l => match l with [] => false | _ => true end
  | PDict d => match d with [] => false | _ => true end
  end.

(** Numbers compare by value across [bool], [int] and [float]. *)
Inductive pynum := NInt (z : Z) | NFloat (f : pyfloat).

Definition py_number (v : pyval) : option pynum :=
  match v with
  | PBool b => Some (NInt (if b then 1 else 0))
  | PInt z => Some (NInt z)
  | PFloat f => Some (NFloat f)
  | _ => None
  end.

Definition float_eqb (f g : pyfloat) : bool :=
  match f, g with
  | FFinite p, FFinite q => Qeq_bool p q
  | FInf a, FInf b => Bool.eqb a b
  | _, _ => false
  end.

Definition num_eqb (a b : pynum) : bool :=
  match a, b with
  | NInt x, NInt y => x =? y
  | NInt x, NFloat f => float_eqb (FFinite (inject_Z x)) f
  | NFloat f, NInt y => float_eqb f (FFinite (inject_Z y))
  | NFloat f, NFloat g => float_eqb f g
  end.

(** [a is b or a == b]: the test that [in], [list.index], a dict look-up and
    the comparison of two containers apply to each element.  It differs from
    [==] on a NaN only, which is not equal to itself but is the same object
    as itself.  The values compared here come out of [json.loads], which
    returns one NaN object for every [NaN] it reads (the constant [NaN] of
    [json.decoder]), so two NaNs found in these values are the same object. *)
Definition num_same (a b : pynum) : bool :=
  match a, b with
  | NFloat FNaN, NFloat FNaN => true
  | _, _ => num_eqb a b
  end.

(** Lists compare element by element, dicts as maps whatever the order of
    their keys. *)
Fixpoint py_same (a b : pyval) {struct a} : bool :=
  match a, b with
  | PNone, PNone => true
  | PStr x, PStr y => str_eqb x y
  | PList xs, PList ys =>
      (fix all2 (xs ys : list pyval) {struct xs} : bool :=
         match xs, ys with
         | [], [] => true
         | x :: xs', y :: ys' => py_same x y && all2 xs' ys'
         | _, _ => false
         end) xs ys
  | PDict xs, PDict ys =>
      (length xs =? length ys)%nat &&
      (fix sub (xs : list (str * pyval)) {struct xs} : bool :=
         match xs with
         | [] => true
         | (k, v) :: xs' =>
             match dict_get ys k with
             | Some v' => py_same v v'
             | None => false
             end && sub xs'
         end) xs
  | _, _ =>
      match py_number a, py_number b with
      | Some x, Some y => num_same x y
      | _, _ => false
      end
  end.

(** [a == b] on these values: a NaN is not equal to itself, and everything
    else, the elements of a container included, compares as above. *)
Definition py_eq (a b : pyval) : bool :=
  match a, b with
  | PFloat FNaN, PFloat FNaN => false
  | _, _ => py_same a b
  end.

(** [x in l] for a list: some element is [x] or equals it. *)
Definition py_in (x : pyval) (l : list pyval) : bool :=
  existsb (fun y => py_same x y) l.

(** ** The adaptive difficulty controller ([app.py]) *)

Definition calculate_adaptive_difficulty
  (performance_window : list Z) (current_difficulty : Z) : Z :=
  if (Z.of_nat (length performance_window) <? 3) then current_difficulty
  else
    let recent := slice_last 3 performance_window in
    let correct_count := py_sum recent in
    if (2 <=? correct_count) && (current_difficulty <? 3)
    then current_difficulty + 1
    else if (correct_count <=? 1) && (1 <? current_difficulty)
    then current_difficulty - 1
    else current_difficulty.

(** A correctness bit, as [render_question] appends it. *)
Definition is_bit (b : Z) : Prop := b = 0 \/ b = 1.

(** A valid difficulty level. *)
Definition is_level (d : Z) : Prop := 1 <= d <= 3.

(** Repeated use of the controller: before each call some more entries are
    appended to the window, as the session does between two updates. *)
Fixpoint replay (window : list Z) (current : Z) (batches : list (list Z)) : Z :=
  match batches with
  | [] => current
  | batch :: rest =>
      let window' := window ++ batch in
      replay window' (calculate_adaptive_difficulty window' current) rest
  end.

(** ** Weak topics ([report_generator.py]) *)

(** One pass of the loop of [get_weak_topics]. *)
Definition weak_topics_step (weak_topics : list pyval) (q : pydict) : list pyval :=
  if negb (py_truthy (dict_get_or q (lit "is_correct") (PBool false))) then
    let topic := dict_get_or q (lit "topic") (PStr (lit "Unknown")) in
    if negb (py_in topic weak_topics) then weak_topics ++ [topic]
    else weak_topics
  else weak_topics.

Definition get_weak_topics (questions_history : list pydict) : list pyval :=
  fold_left weak_topics_step questions_history [].

(** An entry as the session records it: a topic label and a correctness
    boolean. *)
Definition entry_has_label (q : pydict) : Prop :=
  (exists t, dict_get q (lit "topic") = Some (PStr t)) /\
  (exists b, dict_get q (lit "is_correct") = Some (PBool b)).

(** Entry number [i] of the history is an incorrect answer on [topic]. *)
Definition incorrect_at (history : list pydict) (i : nat) (topic : pyval) : Prop :=
  exists q, nth_error history i = Some q /\
            dict_get q (lit "is_correct") = Some (PBool false) /\
            dict_get q (lit "topic") = Some topic.

(** ... and no earlier entry is. *)
Definition first_incorrect_at (history : list pydict) (i : nat) (topic : pyval)
  : Prop :=
  incorrect_at history i topic /\
  forall k, (k < i)%nat -> ~ incorrect_at history k topic.

(** The history of the specification's example, over three topic labels. *)
Definition answered (topic : str) (is_correct : bool) : pydict :=
  [(lit "topic", PStr topic); (lit "is_correct", PBool is_correct)].

Definition example_history : list pydict :=
  [answered (lit "T1") true; answered (lit "T2") false;
   answered (lit "T1") false; answered (lit "T3") false].

(** The positions at which the topics of the result first went wrong:
    one per topic, increasing along the result. *)
Inductive first_positions (h : list pydict) : list nat -> list pyval -> Prop :=
| fp_nil : first_positions h [] []
| fp_snoc idx r i t :
    first_positions h idx r ->
    first_incorrect_at h i t ->
    Forall (fun k => (k < i)%nat) idx ->
    first_positions h (idx ++ [i]) (r ++ [t]).

(** ** Exceptions and results *)

Inductive exn_class :=
| ValueError | TypeError | AttributeError | KeyError | RecursionError
| ZeroDivisionError | OverflowError
| ServiceError  (* whatever the chat client raises *)
| HTTPException (status : Z).

Record exn := mk_exn { exn_kind : exn_class; exn_message : str }.

Inductive result (A : Type) :=
| Ok (value : A)
| Err (e : exn).
Arguments Ok {A} value.
Arguments Err {A} e.

(** ** The part of the Python runtime the program calls *)

(** What [json.loads(s)] does: it returns the decoded value, or raises
    [JSONDecodeError] on a text that is not JSON, or raises something else:
    a [RecursionError] on a text nested too deep, a plain [ValueError] on
    an integer of more digits than the interpreter converts.  An
    [except json.JSONDecodeError] catches the second only. *)
Inductive decoded :=
| Decoded (v : pyval)
| DecodeError
| Raised (e : exn).

(** [json.loads], and [str.upper], the Unicode upper-casing. *)
Class PythonRuntime := {
  json_loads : str -> decoded;
  str_upper : str -> str
}.

(** ** Regular expressions ([re.search])

    The constructs the two patterns of [_parse_json_response] use, matched
    the way [re] does: leftmost start, alternatives in priority order
    (greedy: longest first, lazy: shortest first) with backtracking. *)
Inductive regex :=
| Chars (l : str)                 (* a literal *)
| Opt (r : regex)                 (* r?       *)
| StarGreedy (cls : N -> bool)    (* [cls]*   *)
| StarLazy (cls : N -> bool)      (* [cls]*?  *)
| Cat (r1 r2 : regex)
| Group (r : regex).              (* ( r ), group 1 *)

(** [s] starts with [l]: the rest of [s] after it. *)
Fixpoint strip_prefix (l s : str) : option str :=
  match l, s with
  | [], _ => Some s
  | x :: l', y :: s' => if N.eqb x y then strip_prefix l' s' else None
  | _ :: _, [] => None
  end.

(** [re_run r s g k]: match [r] at the head of [s], then continue with [k]
    on the rest and the text of group 1; the first alternative for which
    the continuation succeeds wins. *)
Fixpoint re_run {R} (r : regex) (s : str) (g : option str)
  (k : str -> option str -> option R) {struct r} : option R :=
  match r with
  | Chars l =>
      match strip_prefix l s with Some s' => k s' g | None => None end
  | Opt r1 =>
      match re_run r1 s g k with Some x => Some x | None => k s g end
  | StarGreedy cls =>
      (fix more (s : str) : option R :=
         match s with
         | c :: s' =>
             if cls c
             then match more s' with Some x => Some x | None => k s g end
             else k s g
         | [] => k s g
         end) s
  | StarLazy cls =>
      (fix more (s : str) : option R :=
         match k s g with
         | Some x => Some x
         | None =>
             match s with
             | c :: s' => if cls c then more s' else None
             | [] => None
             end
         end) s
  | Cat r1 r2 => re_run r1 s g (fun s' g' => re_run r2 s' g' k)
  | Group r1 =>
      re_run r1 s g
        (fun s' _ => k s' (Some (firstn (length s - length s') s)))
  end.

(** A match object: [group(0)] and [group(1)]. *)
Record re_match := mk_match { group0 : str; group1 : option str }.

Definition re_match_at (r : regex) (s : str) : option re_match :=
  re_run r s None
    (fun s' g => Some (mk_match (firstn (length s - length s') s) g)).

Fixpoint re_search (r : regex) (s : str) : option re_match :=
  match re_match_at r s with
  | Some m => Some m
  | None => match s with [] => None | _ :: s' => re_search r s' end
  end.

(** White space, as [\s] in a [str] pattern, [str.strip()] without an
    argument and [str.isspace] take it.  All three are CPython's
    [_PyUnicode_IsWhitespace], which holds of U+0009 to U+000D, U+001C to
    U+0020, U+0085, U+00A0, U+1680, U+2000 to U+200A, U+2028, U+2029,
    U+202F, U+205F and U+3000 (the characters of bidirectional type WS, B
    or S, and those of category Zs) and of no other code point. *)
Definition is_space (c : N) : bool :=
  ((9 <=? c) && (c <=? 13) || (28 <=? c) && (c <=? 32) ||
   (c =? 133) || (c =? 160) || (c =? 5760) ||
   (8192 <=? c) && (c <=? 8202) || (c =? 8232) || (c =? 8233) ||
   (c =? 8239) || (c =? 8287) || (c =? 12288))%N.

(** [[\s\S]] *)
Definition any_char (c : N) : bool := is_space c || negb (is_space c).

Definition backticks : str := lit "```".

(** [\s*([\s\S]*?)\s*```] *)
Definition fence_tail : regex :=
  Cat (StarGreedy is_space)
    (Cat (Group (StarLazy any_char))
       (Cat (StarGreedy is_space) (Chars backticks))).

(** [```(?:json)?\s*([\s\S]*?)\s*```] *)
Definition fence_re : regex :=
  Cat (Chars backticks) (Cat (Opt (Chars (lit "json"))) fence_tail).

(** [\{[\s\S]*\}] *)
Definition brace_re : regex :=
  Cat (Chars (lit "{")) (Cat (StarGreedy any_char) (Chars (lit "}"))).

(** [s] without the white space at its start. *)
Fixpoint lstrip (s : str) : str :=
  match s with
  | c :: s' => if is_space c then lstrip s' else s
  | [] => []
  end.

(** [s] without the white space at its end. *)
Fixpoint rstrip (s : str) : str :=
  match s with
  | [] => []
  | c :: s' =>
      match rstrip s' with
      | [] => if is_space c then [] else [c]
      | kept => c :: kept
      end
  end.

(** Where the lazy group of [fence_re] stops: the shortest prefix of [u]
    after which white space and a fence follow, with the text after that
    fence. *)
Fixpoint body_to_fence (u : str) : option (str * str) :=
  match strip_prefix backticks (lstrip u) with
  | Some rest => Some ([], rest)
  | None =>
      match u with
      | c :: u' =>
          match body_to_fence u' with
          | Some (body, rest) => Some (c :: body, rest)
          | None => None
          end
      | [] => None
      end
  end.

(** ** Recovering JSON from a model response ([llm_handler.py]) *)

(** [json.loads(candidate)] inside [try ... except JSONDecodeError: pass]:
    [None] when control falls through to the next attempt; an exception of
    another class is not caught. *)
Definition try_loads `{PythonRuntime} (candidate : option str)
  : option (result pyval) :=
  match candidate with
  | Some t =>
      match json_loads t with
      | Decoded v => Some (Ok v)
      | DecodeError => None
      | Raised e => Some (Err e)
      end
  | None =>
      Some (Err (mk_exn TypeError
        (lit "the JSON object must be str, bytes or bytearray, not NoneType")))
  end.

(** The [ValueError] raised when no attempt decodes. *)
Definition parse_failure : exn :=
  mk_exn ValueError (lit "Could not parse JSON from response").

Definition _parse_json_response `{PythonRuntime} (response_text : str)
  : result pyval :=
  match json_loads response_text with
  | Decoded v => Ok v
  | Raised e => Err e
  | DecodeError =>
  match
    match re_search fence_re response_text with
    | Some json_match => try_loads (group1 json_match)
    | None => None
    end
  with
  | Some r => r
  | None =>
  match
    match re_search brace_re response_text with
    | Some json_match => try_loads (Some (group0 json_match))
    | None => None
    end
  with
  | Some r => r
  | None => Err parse_failure
  end end end.

(** *** The three strategies in the specification's words *)

(** Index of the first occurrence of [pat] in [s]. *)
Fixpoint str_find (pat s : str) : option nat :=
  match strip_prefix pat s with
  | Some _ => Some 0%nat
  | None =>
      match s with
      | [] => None
      | _ :: s' => option_map S (str_find pat s')
      end
  end.

(** Index of the last occurrence of the character [c] in [s]. *)
Fixpoint last_index (c : N) (s : str) : option nat :=
  match s with
  | [] => None
  | x :: s' =>
      match last_index c s' with
      | Some i => Some (S i)
      | None => if N.eqb x c then Some 0%nat else None
      end
  end.

(** The interior of a block, given the text after its opening fence: past
    an optional [json] tag, up to the next fence, without the white space
    around it. *)
Definition block_interior (after : str) : option str :=
  let untagged :=
    match strip_prefix (lit "json") after with
    | Some rest => rest
    | None => after
    end in
  let body := lstrip untagged in
  match str_find backticks body with
  | None => None
  | Some j => Some (rstrip (firstn j body))
  end.

(** The interior of the first fenced block of the text. *)
Definition fenced_interior (text : str) : option str :=
  match str_find backticks text with
  | None => None
  | Some i => block_interior (skipn (i + 3) text)
  end.

(** The text from the first opening brace through the last closing brace
    after it. *)
Definition brace_span (text : str) : option str :=
  match str_find (lit "{") text with
  | None => None
  | Some i =>
      match last_index 125 (skipn (S i) text) with
      | None => None
      | Some j => Some (firstn (j + 2) (skipn i text))
      end
  end.

(** The first strategy of a list that yields a value. *)
Fixpoint first_success {A} (attempts : list (option A)) : option A :=
  match attempts with
  | [] => None
  | Some a :: _ => Some a
  | None :: rest => first_success rest
  end.

(** What a strategy comes to: what [json.loads] does on its candidate; a
    strategy that finds no candidate has failed. *)
Definition attempt `{PythonRuntime} (candidate : option str) : decoded :=
  match candidate with
  | Some t => json_loads t
  | None => DecodeError
  end.

(** Attempt 1: the whole text; attempt 2: the interior of a fenced block;
    attempt 3: the brace span. *)
Definition parse_attempts `{PythonRuntime} (raw_text : str) : list decoded :=
  [ attempt (Some raw_text);
    attempt (fenced_interior raw_text);
    attempt (brace_span raw_text) ].

(** The first attempt of a list that does not fail with a
    [JSONDecodeError]: a value, or the exception that ends the search. *)
Fixpoint first_outcome (attempts : list decoded) : decoded :=
  match attempts with
  | [] => DecodeError
  | DecodeError :: rest => first_outcome rest
  | outcome :: _ => outcome
  end.

(** The value of an attempt that succeeded. *)
Definition succeeded (a : decoded) : option pyval :=
  match a with
  | Decoded v => Some v
  | _ => None
  end.

(** The reading of the specification under which an attempt that does
    not succeed, for whatever reason, is followed by the next one. *)
Definition first_success_wins `{PythonRuntime} (raw_text : str) : Prop :=
  _parse_json_response raw_text =
  match first_success (map succeeded (parse_attempts raw_text)) with
  | Some v => Ok v
  | None => Err parse_failure
  end.

(** ** A reference runtime

    A decoder for JSON without fractional numbers, exponents, [\u] escapes
    and the non-standard constants, and the upper-casing of ASCII letters.
    It reads an integer of any length: the interpreter's limit on the
    digits of an int, beyond which [json.loads] raises a plain
    [ValueError], is not part of it.  It instantiates [PythonRuntime] where
    a statement is run on a concrete text. *)

Definition json_ws (c : N) : bool :=
  ((c =? 32) || (c =? 9) || (c =? 10) || (c =? 13))%N.

Fixpoint skip_ws (s : str) : str :=
  match s with
  | c :: s' => if json_ws c then skip_ws s' else s
  | [] => []
  end.

Definition is_digit (c : N) : bool := ((48 <=? c) && (c <=? 57))%N.

Fixpoint read_digits (s : str) (acc : Z) : Z * str :=
  match s with
  | c :: s' =>
      if is_digit c then read_digits s' (10 * acc + (Z.of_N c - 48))
      else (acc, s)
  | [] => (acc, [])
  end.

(** An integer: [0] or a non-zero digit followed by digits, not continued
    by a fraction or an exponent. *)
Definition read_int (s : str) : option (Z * str) :=
  match s with
  | c :: s' =>
      if is_digit c then
        let '(z, rest) :=
          if (c =? 48)%N then (0, s') else read_digits s 0 in
        match rest with
        | d :: _ =>
            if is_digit d || (d =? 46)%N || (d =? 101)%N || (d =? 69)%N
            then None else Some (z, rest)
        | [] => Some (z, rest)
        end
      else None
  | [] => None
  end.

Definition unescape (c : N) : option N :=
  (if c =? 34 then Some 34 else if c =? 92 then Some 92
   else if c =? 47 then Some 47 else if c =? 98 then Some 8
   else if c =? 102 then Some 12 else if c =? 110 then Some 10
   else if c =? 114 then Some 13 else if c =? 116 then Some 9
   else None)%N.

(** The characters of a string after its opening quote, through the
    closing one. *)
Fixpoint read_string (s : str) : option (str * str) :=
  match s with
  | [] => None
  | c :: s' =>
      if (c =? 34)%N then Some ([], s')
      else if (c =? 92)%N then
        match s' with
        | e :: s'' =>
            match unescape e, read_string s'' with
            | Some x, Some (t, rest) => Some (x :: t, rest)
            | _, _ => None
            end
        | [] => None
        end
      else if (c <? 32)%N then None
      else
        match read_string s' with
        | Some (t, rest) => Some (c :: t, rest)
        | None => None
        end
  end.

(** What scanning a value comes to: the value and the text after it, a
    text that is not JSON, or nesting beyond what the decoder follows. *)
Inductive scanned :=
| Scanned (v : pyval) (rest : str)
| Malformed
| TooDeep (what : str).

(** [depth] is the number of arrays and objects that may still be opened;
    the check is made where one opens, before anything inside is read. *)
Fixpoint read_value (fuel depth : nat) (s : str) : scanned :=
  match fuel with
  | O => Malformed
  | S fuel' =>
      match s with
      | [] => Malformed
      | c :: s' =>
          if (c =? 34)%N then
            match read_string s' with
            | Some (t, rest) => Scanned (PStr t) rest
            | None => Malformed
            end
          else if (c =? 91)%N then
            match depth with
            | O => TooDeep (lit "array")
            | S depth' =>
                match skip_ws s' with
                | d :: rest =>
                    if (d =? 93)%N then Scanned (PList []) rest
                    else read_items fuel' depth' (d :: rest) []
                | [] => Malformed
                end
            end
          else if (c =? 123)%N then
            match depth with
            | O => TooDeep (lit "object")
            | S depth' =>
                match skip_ws s' with
                | d :: rest =>
                    if (d =? 125)%N then Scanned (PDict []) rest
                    else read_members fuel' depth' (d :: rest) []
                | [] => Malformed
                end
            end
          else if (c =? 45)%N then
            match read_int s' with
            | Some (z, rest) => Scanned (PInt (- z)) rest
            | None => Malformed
            end
          else if is_digit c then
            match read_int s with
            | Some (z, rest) => Scanned (PInt z) rest
            | None => Malformed
            end
          else
            match strip_prefix (lit "null") s with
            | Some rest => Scanned PNone rest
            | None =>
            match strip_prefix (lit "true") s with
            | Some rest => Scanned (PBool true) rest
            | None =>
            match strip_prefix (lit "false") s with
            | Some rest => Scanned (PBool false) rest
            | None => Malformed
            end end end
      end
  end

with read_items (fuel depth : nat) (s : str) (acc : list pyval) : scanned :=
  match fuel with
  | O => Malformed
  | S fuel' =>
      match read_value fuel' depth s with
      | Scanned v rest =>
          match skip_ws rest with
          | c :: rest' =>
              if (c =? 44)%N
              then read_items fuel' depth (skip_ws rest') (acc ++ [v])
              else if (c =? 93)%N then Scanned (PList (acc ++ [v])) rest'
              else Malformed
          | [] => Malformed
          end
      | stopped => stopped
      end
  end

with read_members (fuel depth : nat) (s : str) (acc : pydict) : scanned :=
  match fuel with
  | O => Malformed
  | S fuel' =>
      match s with
      | q :: s' =>
          if (q =? 34)%N then
            match read_string s' with
            | Some (key, rest) =>
                match skip_ws rest with
                | c :: rest' =>
                    if (c =? 58)%N then
                      match read_value fuel' depth (skip_ws rest') with
                      | Scanned v rest'' =>
                          match skip_ws rest'' with
                          | d :: after =>
                              if (d =? 44)%N then
                                read_members fuel' depth (skip_ws after)
                                  (dict_set acc key v)
                              else if (d =? 125)%N then
                                Scanned (PDict (dict_set acc key v)) after
                              else Malformed
                          | [] => Malformed
                          end
                      | stopped => stopped
                      end
                    else Malformed
                | [] => Malformed
                end
            | None => Malformed
            end
          else Malformed
      | [] => Malformed
      end
  end.

(** The nesting the reference decoder follows.  The interpreter's limit on
    recursion is 1000 by default, and up to Python 3.11 the frames in use
    where the decoder is called count towards it: a text nested 1000 deep
    is beyond it wherever the call is made.  (Later versions count the
    decoder's frames apart and follow a deeper nesting, which they bound as
    well.) *)
Definition nesting_limit : nat := 999.

Definition recursion_error (what : str) : exn :=
  mk_exn RecursionError
    (lit "maximum recursion depth exceeded while decoding a JSON " ++ what
       ++ lit " from a unicode string").

Definition json_loads_ref (s : str) : decoded :=
  match read_value (2 * length s + 2) nesting_limit (skip_ws s) with
  | Scanned v rest =>
      match skip_ws rest with [] => Decoded v | _ :: _ => DecodeError end
  | Malformed => DecodeError
  | TooDeep what => Raised (recursion_error what)
  end.

Definition ascii_upper (c : N) : N :=
  if ((97 <=? c) && (c <=? 122))%N then (c - 32)%N else c.

Definition reference_runtime : PythonRuntime :=
  {| json_loads := json_loads_ref; str_upper := map ascii_upper |}.

(** *** Sample texts *)

Definition nl : str := [10%N].
Definition quoted (s : str) : str := [34%N] ++ s ++ [34%N].

(** [{"question":"Q"}] *)
Definition question_object_text : str :=
  lit "{" ++ quoted (lit "question") ++ lit ":" ++ quoted (lit "Q") ++ lit "}".

Definition question_object : pyval := PDict [(lit "question", PStr (lit "Q"))].

(** The response of the specification's scenario: a sentence, then the
    object in a fenced block tagged [json]. *)
Definition fenced_response : str :=
  lit "Here you go:" ++ nl ++ lit "```json" ++ nl ++ question_object_text
    ++ nl ++ lit "```".

(** A response on which the second and the third attempt would both
    succeed, with different values: [```[1]``` {}]. *)
Definition ambiguous_response : str := lit "```[1]``` {}".

(** Plain prose. *)
Definition prose_response : str := lit "I could not find anything to ask.".

(** A thousand opening brackets, a thousand closing ones, then the list
    [[1]] in a fenced block. *)
Definition deep_response : str :=
  repeat 91%N 1000 ++ repeat 93%N 1000 ++ lit " ```[1]```".

(** ** Calls to the language model ([llm_handler.py])

    A prompt is kept as the template it is built from and the values put
    into its holes; the text around the holes is constant. *)
Inductive prompt :=
| QuestionPrompt (difficulty_name : str) (content : str)
    (asked : list pyval) (topic_focus : option str)
| FeedbackPrompt (question : pyval) (user_answer : str) (user_option : pyval)
    (correct_answer : str) (correct_option : pyval).

(** An f-string: literal text and formatted values. *)
Inductive fragment :=
| Text (s : str)
| Value (v : pyval).
Definition fstring := list fragment.

(** The chat service: the text of the reply, or the exception of the call. *)
Definition chat_service := prompt -> result str.

(** A computation that may call the service: its value and the prompts it
    sent, in order. *)
Definition Chat (A : Type) : Type := chat_service -> A * list prompt.

Definition chat_ret {A} (a : A) : Chat A := fun _ => (a, []).

Definition chat_bind {A B} (c : Chat A) (k : A -> Chat B) : Chat B :=
  fun service =>
    let '(a, sent) := c service in
    let '(b, sent') := k a service in
    (b, sent ++ sent').

(** [self._call_chat(prompt)] *)
Definition _call_chat (p : prompt) : Chat (result str) :=
  fun service => (service p, [p]).

(** [DIFFICULTY_LEVELS.get(difficulty, "medium")] *)
Definition difficulty_level_name (difficulty : Z) : str :=
  if difficulty =? 1 then lit "easy"
  else if difficulty =? 2 then lit "medium"
  else if difficulty =? 3 then lit "hard"
  else lit "medium".

(** [v[key] = value] on a decoded value: only a dict takes it, and is
    updated in place. *)
Definition set_item (v : pyval) (key : str) (value : pyval) : result pydict :=
  let no_assignment (type_name : str) :=
    Err (mk_exn TypeError
           (lit "'" ++ type_name
              ++ lit "' object does not support item assignment")) in
  match v with
  | PDict d => Ok (dict_set d key value)
  | PList _ =>
      Err (mk_exn TypeError
             (lit "list indices must be integers or slices, not str"))
  | PNone => no_assignment (lit "NoneType")
  | PBool _ => no_assignment (lit "bool")
  | PInt _ => no_assignment (lit "int")
  | PFloat _ => no_assignment (lit "float")
  | PStr _ => no_assignment (lit "str")
  end.

(** The record [generate_question] returns when anything in its [try]
    block raised. *)
Definition error_question (difficulty : Z) (difficulty_name error_msg : str)
  : pydict :=
  [ (lit "question", PStr (lit "Error: " ++ error_msg));
    (lit "options",
      PDict [ (lit "A", PStr (lit "Option A")); (lit "B", PStr (lit "Option B"));
              (lit "C", PStr (lit "Option C")); (lit "D", PStr (lit "Option D")) ]);
    (lit "correct_answer", PStr (lit "A"));
    (lit "explanation", PStr (lit "Error details: " ++ error_msg));
    (lit "topic", PStr (lit "Unknown"));
    (lit "difficulty", PInt difficulty);
    (lit "difficulty_name", PStr difficulty_name);
    (lit "error", PBool true);
    (lit "error_message", PStr error_msg) ].

(** The body of the [try] block, given the reply of the service. *)
Definition question_from_reply `{PythonRuntime}
  (reply : result str) (difficulty : Z) (difficulty_name : str)
  : result pydict :=
  match reply with
  | Err e => Err e
  | Ok response_text =>
      match _parse_json_response response_text with
      | Err e => Err e
      | Ok question_data =>
          match set_item question_data (lit "difficulty") (PInt difficulty) with
          | Err e => Err e
          | Ok question_data =>
              Ok (dict_set question_data (lit "difficulty_name")
                    (PStr difficulty_name))
          end
      end
  end.

Definition generate_question `{PythonRuntime}
  (content : str) (difficulty : Z) (asked_questions : list pyval)
  (topic_focus : option str) : Chat pydict :=
  let difficulty_name := difficulty_level_name difficulty in
  let asked_list :=
    match asked_questions with
    | [] => []
    | _ :: _ => slice_last 10 asked_questions
    end in
  let topic_instruction :=
    match topic_focus with
    | Some (_ :: _) => topic_focus
    | _ => None
    end in
  let p := QuestionPrompt (str_upper difficulty_name)
             (slice_first (Z.to_nat 6000) content) asked_list topic_instruction in
  chat_bind (_call_chat p) (fun reply =>
  chat_ret
    match question_from_reply reply difficulty difficulty_name with
    | Ok question_data => question_data
    | Err e => error_question difficulty difficulty_name (exn_message e)
    end).

(** The dict [evaluate_answer] returns; [render_question] adds
    [difficulty_change] to it. *)
Record Feedback := mk_feedback {
  is_correct : bool;
  feedback : fstring;
  suggestion : option fstring;
  difficulty_change : option str
}.

(** [Correct! Well done!] followed by the four code points the source file
    holds after it. *)
Definition well_done : fstring :=
  [Text (lit "Correct! Well done! " ++ [240; 376; 381; 8240]%N)].

Definition evaluate_answer `{PythonRuntime}
  (question : pyval) (user_answer correct_answer : str)
  (options : pydict) (content : option str) : Chat Feedback :=
  let is_correct := str_eqb (str_upper user_answer) (str_upper correct_answer) in
  if is_correct then
    chat_ret (mk_feedback true well_done None None)
  else
    let p := FeedbackPrompt question
               user_answer (dict_get_or options user_answer (PStr (lit "Unknown")))
               correct_answer
               (dict_get_or options correct_answer (PStr (lit "Unknown"))) in
    chat_bind (_call_chat p) (fun reply =>
    chat_ret
      match reply with
      | Ok text =>
          mk_feedback false [Text text]
            (Some [Text (lit "Review the topic related to: ");
                   Value (dict_get_or options correct_answer
                            (PStr (lit "this concept")))])
            None
      | Err _ =>
          mk_feedback false
            [Text (lit "The correct answer was "); Text correct_answer;
             Text (lit ": ");
             Value (dict_get_or options correct_answer (PStr []))]
            (Some [Text (lit "Review this topic for better understanding.")])
            None
      end).

(** ** The session ([app.py])

    The keys of [st.session_state], as [init_session_state] lists them.
    [llm] is the handler object: it holds the key it was built with. *)
Record Session := mk_session {
  pdf_content : option str;
  pdf_name : option str;
  api_key : option str;
  llm : option str;
  current_question : option pydict;
  questions_history : list pydict;
  current_difficulty : Z;
  performance_window : list Z;
  assessment_started : bool;
  assessment_complete : bool;
  total_questions : Z;
  correct_answers : Z;
  asked_questions : list pyval;
  show_feedback : bool;
  last_feedback : option Feedback;
  max_difficulty_reached : Z
}.

(** [st.session_state.key = v], one definition per key. *)
Definition set_pdf_content (v : option str) (s : Session) : Session :=
  mk_session v (pdf_name s) (api_key s) (llm s) (current_question s)
    (questions_history s) (current_difficulty s) (performance_window s)
    (assessment_started s) (assessment_complete s) (total_questions s)
    (correct_answers s) (asked_questions s) (show_feedback s)
    (last_feedback s) (max_difficulty_reached s).
Definition set_pdf_name (v : option str) (s : Session) : Session :=
  mk_session (pdf_content s) v (api_key s) (llm s) (current_question s)
    (questions_history s) (current_difficulty s) (performance_window s)
    (assessment_started s) (assessment_complete s) (total_questions s)
    (correct_answers s) (asked_questions s) (show_feedback s)
    (last_feedback s) (max_difficulty_reached s).
Definition set_api_key (v : option str) (s : Session) : Session :=
  mk_session (pdf_content s) (pdf_name s) v (llm s) (current_question s)
    (questions_history s) (current_difficulty s) (performance_window s)
    (assessment_started s) (assessment_complete s) (total_questions s)
    (correct_answers s) (asked_questions s) (show_feedback s)
    (last_feedback s) (max_difficulty_reached s).
Definition set_llm (v : option str) (s : Session) : Session :=
  mk_session (pdf_content s) (pdf_name s) (api_key s) v (current_question s)
    (questions_history s) (current_difficulty s) (performance_window s)
    (assessment_started s) (assessment_complete s) (total_questions s)
    (correct_answers s) (asked_questions s) (show_feedback s)
    (last_feedback s) (max_difficulty_reached s).
Definition set_current_question (v : option pydict) (s : Session) : Session :=
  mk_session (pdf_content s) (pdf_name s) (api_key s) (llm s) v
    (questions_history s) (current_difficulty s) (performance_window s)
    (assessment_started s) (assessment_complete s) (total_questions s)
    (correct_answers s) (asked_questions s) (show_feedback s)
    (last_feedback s) (max_difficulty_reached s).
Definition set_questions_history (v : list pydict) (s : Session) : Session :=
  mk_session (pdf_content s) (pdf_name s) (api_key s) (llm s)
    (current_question s) v (current_difficulty s) (performance_window s)
    (assessment_started s) (assessment_complete s) (total_questions s)
    (correct_answers s) (asked_questions s) (show_feedback s)
    (last_feedback s) (max_difficulty_reached s).
Definition set_current_difficulty (v : Z) (s : Session) : Session :=
  mk_session (pdf_content s) (pdf_name s) (api_key s) (llm s)
    (current_question s) (questions_history s) v (performance_window s)
    (assessment_started s) (assessment_complete s) (total_questions s)
    (correct_answers s) (asked_questions s) (show_feedback s)
    (last_feedback s) (max_difficulty_reached s).
Definition set_performance_window (v : list Z) (s : Session) : Session :=
  mk_session (pdf_content s) (pdf_name s) (api_key s) (llm s)
    (current_question s) (questions_history s) (current_difficulty s) v
    (assessment_started s) (assessment_complete s) (total_questions s)
    (correct_answers s) (asked_questions s) (show_feedback s)
    (last_feedback s) (max_difficulty_reached s).
Definition set_assessment_started (v : bool) (s : Session) : Session :=
  mk_session (pdf_content s) (pdf_name s) (api_key s) (llm s)
    (current_question s) (questions_history s) (current_difficulty s)
    (performance_window s) v (assessment_complete s) (total_questions s)
    (correct_answers s) (asked_questions s) (show_feedback s)
    (last_feedback s) (max_difficulty_reached s).
Definition set_assessment_complete (v : bool) (s : Session) : Session :=
  mk_session (pdf_content s) (pdf_name s) (api_key s) (llm s)
    (current_question s) (questions_history s) (current_difficulty s)
    (performance_window s) (assessment_started s) v (total_questions s)
    (correct_answers s) (asked_questions s) (show_feedback s)
    (last_feedback s) (max_difficulty_reached s).
Definition set_total_questions (v : Z) (s : Session) : Session :=
  mk_session (pdf_content s) (pdf_name s) (api_key s) (llm s)
    (current_question s) (questions_history s) (current_difficulty s)
    (performance_window s) (assessment_started s) (assessment_complete s) v
    (correct_answers s) (asked_questions s) (show_feedback s)
    (last_feedback s) (max_difficulty_reached s).
Definition set_correct_answers (v : Z) (s : Session) : Session :=
  mk_session (pdf_content s) (pdf_name s) (api_key s) (llm s)
    (current_question s) (questions_history s) (current_difficulty s)
    (performance_window s) (assessment_started s) (assessment_complete s)
    (total_questions s) v (asked_questions s) (show_feedback s)
    (last_feedback s) (max_difficulty_reached s).
Definition set_asked_questions (v : list pyval) (s : Session) : Session :=
  mk_session (pdf_content s) (pdf_name s) (api_key s) (llm s)
    (current_question s) (questions_history s) (current_difficulty s)
    (performance_window s) (assessment_started s) (assessment_complete s)
    (total_questions s) (correct_answers s) v (show_feedback s)
    (last_feedback s) (max_difficulty_reached s).
Definition set_show_feedback (v : bool) (s : Session) : Session :=
  mk_session (pdf_content s) (pdf_name s) (api_key s) (llm s)
    (current_question s) (questions_history s) (current_difficulty s)
    (performance_window s) (assessment_started s) (assessment_complete s)
    (total_questions s) (correct_answers s) (asked_questions s) v
    (last_feedback s) (max_difficulty_reached s).
Definition set_last_feedback (v : option Feedback) (s : Session) : Session :=
  mk_session (pdf_content s) (pdf_name s) (api_key s) (llm s)
    (current_question s) (questions_history s) (current_difficulty s)
    (performance_window s) (assessment_started s) (assessment_complete s)
    (total_questions s) (correct_answers s) (asked_questions s)
    (show_feedback s) v (max_difficulty_reached s).
Definition set_max_difficulty_reached (v : Z) (s : Session) : Session :=
  mk_session (pdf_content s) (pdf_name s) (api_key s) (llm s)
    (current_question s) (questions_history s) (current_difficulty s)
    (performance_window s) (assessment_started s) (assessment_complete s)
    (total_questions s) (correct_answers s) (asked_questions s)
    (show_feedback s) (last_feedback s) v.

(** [init_session_state] on a fresh session. *)
Definition init_session_state : Session :=
  {| pdf_content := None; pdf_name := None; api_key := None; llm := None;
     current_question := None; questions_history := [];
     current_difficulty := 1; performance_window := [];
     assessment_started := false; assessment_complete := false;
     total_questions := 0; correct_answers := 0; asked_questions := [];
     show_feedback := false; last_feedback := None;
     max_difficulty_reached := 1 |}.

(** *** One run of the script

    A run reads and writes the session and may stop on an exception nobody
    catches; what it wrote until then stays written.  [st.rerun()] ends the
    run as well: wherever the source calls it, it is the last statement
    reached. *)
Definition M (A : Type) : Type := Session -> result A * Session.

Definition ret {A} (a : A) : M A := fun s => (Ok a, s).

Definition bind {A B} (c : M A) (k : A -> M B) : M B :=
  fun s =>
    match c s with
    | (Ok a, s') => k a s'
    | (Err e, s') => (Err e, s')
    end.

Definition gets {A} (f : Session -> A) : M A := fun s => (Ok (f s), s).
Definition modify (f : Session -> Session) : M unit := fun s => (Ok tt, f s).

(** An exception that ends the run; only its class matters there. *)
Definition raise {A} (kind : exn_class) : M A :=
  fun s => (Err (mk_exn kind []), s).

Notation "x <- c ;; k" := (bind c (fun x => k))
  (at level 61, c at next level, right associativity).
Notation "c ;; k" := (bind c (fun _ => k))
  (at level 61, right associativity).

(** What the learner did to trigger the run, and what the outside world
    answers during it. *)
Inductive button :=
| StartAssessment | TryAgain | SubmitAnswer | NextQuestion
| FinishAssessment | GenerateReport | StartNewAssessment.

Definition button_eqb (a b : button) : bool :=
  match a, b with
  | StartAssessment, StartAssessment | TryAgain, TryAgain
  | SubmitAnswer, SubmitAnswer | NextQuestion, NextQuestion
  | FinishAssessment, FinishAssessment | GenerateReport, GenerateReport
  | StartNewAssessment, StartNewAssessment => true
  | _, _ => false
  end.

Record run_input := {
  typed_api_key : str;                       (* the text box of the sidebar *)
  uploaded_file : option (str * result str); (* file name, extracted text *)
  clicked : option button;                   (* the button pressed, if any *)
  radio_choice : nat;                        (* the option selected *)
  service : chat_service
}.

(** [st.button(label)]: true in the run its click triggered. *)
Definition st_button (inp : run_input) (b : button) : bool :=
  match clicked inp with Some c => button_eqb c b | None => false end.

(** *** Metrics *)

(** **** Float arithmetic

    A float is an IEEE 754 binary64 number; [FFinite q] holds the exact
    value [q] of a finite one.  An operation gives the double nearest to
    the exact result, a tie going to the one with the even significand;
    a result of magnitude [2 ^ 1024] or more is an infinity.  The sign of a
    zero is not kept: the two zeros are equal and of the same truth value,
    and differ in how they print only. *)

(** [2 ^ e <= n / d], for positive [n] and [d]. *)
Definition pow2_le (e n d : Z) : bool :=
  if 0 <=? e then 2 ^ e * d <=? n else d <=? n * 2 ^ (- e).

(** The binade of the positive rational [n / d]: the [e] with
    [2 ^ e <= n / d < 2 ^ (e + 1)]. *)
Definition binade (n d : Z) : Z :=
  let e := Z.log2 n - Z.log2 d in
  if pow2_le e n d then e else e - 1.

(** [n / d] rounded to an integer, a tie going to the even one. *)
Definition round_half_even (n d : Z) : Z :=
  let q := n / d in
  let r := n mod d in
  match 2 * r ?= d with
  | Lt => q
  | Gt => q + 1
  | Eq => if Z.even q then q else q + 1
  end.

(** The significand [m] and the exponent [x] of the double [m * 2 ^ x]
    nearest to the positive rational [n / d]: 53 bits in the binade of
    [n / d], and the spacing [2 ^ -1074] below [2 ^ -1022]. *)
Definition round_positive (n d : Z) : Z * Z :=
  let e := Z.max (binade n d) (-1022) in
  let k := 52 - e in
  let m :=
    if 0 <=? k then round_half_even (n * 2 ^ k) d
    else round_half_even n (d * 2 ^ (- k)) in
  (m, - k).

(** [m * 2 ^ x] *)
Definition scaled (m x : Z) : Q :=
  if 0 <=? x then inject_Z (m * 2 ^ x) else m # Z.to_pos (2 ^ (- x)).

Definition overflows (m x : Z) : bool := (0 <=? x) && (2 ^ 1024 <=? m * 2 ^ x).

(** The float nearest to a rational. *)
Definition round_double (q : Q) : pyfloat :=
  match Qnum q with
  | 0 => FFinite 0
  | Z.pos n =>
      let '(m, x) := round_positive (Z.pos n) (Z.pos (Qden q)) in
      if overflows m x then FInf false else FFinite (scaled m x)
  | Z.neg n =>
      let '(m, x) := round_positive (Z.pos n) (Z.pos (Qden q)) in
      if overflows m x then FInf true else FFinite (- scaled m x)
  end.

(** [a + b] and [a * b] on floats. *)
Definition float_add (a b : pyfloat) : pyfloat :=
  match a, b with
  | FNaN, _ | _, FNaN => FNaN
  | FInf x, FInf y => if Bool.eqb x y then FInf x else FNaN
  | FInf x, FFinite _ | FFinite _, FInf x => FInf x
  | FFinite p, FFinite q => round_double (p + q)
  end.

Definition float_mul (a b : pyfloat) : pyfloat :=
  match a, b with
  | FNaN, _ | _, FNaN => FNaN
  | FInf x, FInf y => FInf (xorb x y)
  | FInf x, FFinite q | FFinite q, FInf x =>
      match Qnum q with
      | 0 => FNaN
      | Z.pos _ => FInf x
      | Z.neg _ => FInf (negb x)
      end
  | FFinite p, FFinite q => round_double (p * q)
  end.

(** [float(z)]: an [OverflowError] when no finite float is nearest. *)
Definition float_of_int (z : Z) : result pyfloat :=
  match round_double (inject_Z z) with
  | FInf _ => Err (mk_exn OverflowError (lit "int too large to convert to float"))
  | f => Ok f
  end.

(** [a / b] on ints: the float nearest to the quotient. *)
Definition int_truediv (a b : Z) : result pyfloat :=
  if b =? 0 then Err (mk_exn ZeroDivisionError (lit "division by zero"))
  else
    match round_double (inject_Z a / inject_Z b) with
    | FInf _ =>
        Err (mk_exn OverflowError
               (lit "integer division result too large for a float"))
    | f => Ok f
    end.

(** [a / b] on floats. *)
Definition float_truediv (a b : pyfloat) : result pyfloat :=
  match a, b with
  | FNaN, FFinite q =>
      if Qeq_bool q 0
      then Err (mk_exn ZeroDivisionError (lit "float division by zero"))
      else Ok FNaN
  | FNaN, _ | _, FNaN => Ok FNaN
  | FInf _, FInf _ => Ok FNaN
  | FInf x, FFinite q =>
      match Qnum q with
      | 0 => Err (mk_exn ZeroDivisionError (lit "float division by zero"))
      | Z.pos _ => Ok (FInf x)
      | Z.neg _ => Ok (FInf (negb x))
      end
  | FFinite _, FInf _ => Ok (FFinite 0)
  | FFinite p, FFinite q =>
      if Qeq_bool q 0
      then Err (mk_exn ZeroDivisionError (lit "float division by zero"))
      else Ok (round_double (p / q))
  end.

(** [a + b] on numbers: ints add exactly; an int met by a float is
    converted first. *)
Definition num_add (a b : pynum) : result pynum :=
  match a, b with
  | NInt x, NInt y => Ok (NInt (x + y))
  | NInt x, NFloat g =>
      match float_of_int x with
      | Ok f => Ok (NFloat (float_add f g))
      | Err e => Err e
      end
  | NFloat f, NInt y =>
      match float_of_int y with
      | Ok g => Ok (NFloat (float_add f g))
      | Err e => Err e
      end
  | NFloat f, NFloat g => Ok (NFloat (float_add f g))
  end.

(** [a / n] for a number and an int. *)
Definition num_truediv (a : pynum) (n : Z) : result pynum :=
  match a with
  | NInt x =>
      match int_truediv x n with
      | Ok f => Ok (NFloat f)
      | Err e => Err e
      end
  | NFloat f =>
      match float_of_int n with
      | Ok g =>
          match float_truediv f g with
          | Ok h => Ok (NFloat h)
          | Err e => Err e
          end
      | Err e => Err e
      end
  end.

(** [sum(values)], from the left, starting from the int 0: numbers add
    up, anything else is a [TypeError].  (Float terms are added one by
    one, as up to Python 3.11; later versions carry a correction for their
    rounding errors along.  Int terms, the only ones the application
    records, add up exactly in every version.) *)
Fixpoint sum_values (values : list pyval) (acc : pynum) : result pynum :=
  match values with
  | [] => Ok acc
  | v :: rest =>
      match py_number v with
      | Some x =>
          match num_add acc x with
          | Ok acc' => sum_values rest acc'
          | Err e => Err e
          end
      | None => Err (mk_exn TypeError [])
      end
  end.

(** The value of a number, when it is finite. *)
Definition num_value (x : pynum) : option Q :=
  match x with
  | NInt z => Some (inject_Z z)
  | NFloat (FFinite q) => Some q
  | NFloat _ => None
  end.

Record Metrics := mk_metrics {
  m_total_questions : Z;
  m_correct_answers : Z;
  m_accuracy : pynum;
  m_avg_difficulty : pynum;
  m_max_difficulty_reached : Z;
  m_current_difficulty : Z
}.

(** The outcome of an expression, as a step of a run. *)
Definition lift {A} (r : result A) : M A := fun s => (r, s).

(** [(correct / total) * 100] *)
Definition percentage (correct total : Z) : result pynum :=
  match int_truediv correct total with
  | Ok ratio => Ok (NFloat (float_mul ratio (FFinite 100)))
  | Err e => Err e
  end.

Definition get_performance_metrics : M Metrics :=
  total <- gets total_questions ;;
  correct <- gets correct_answers ;;
  pair <-
    (if total =? 0 then ret (NInt 0, NInt 1)
     else
       accuracy <- lift (percentage correct total) ;;
       history <- gets questions_history ;;
       let difficulties :=
         map (fun q => dict_get_or q (lit "difficulty") (PInt 1)) history in
       match difficulties with
       | [] => ret (accuracy, NInt 1)
       | _ :: _ =>
           total_difficulty <- lift (sum_values difficulties (NInt 0)) ;;
           avg_difficulty <-
             lift (num_truediv total_difficulty
                     (Z.of_nat (length difficulties))) ;;
           ret (accuracy, avg_difficulty)
       end) ;;
  max_reached <- gets max_difficulty_reached ;;
  current <- gets current_difficulty ;;
  ret (mk_metrics total correct (fst pair) (snd pair) max_reached current).

(** The readings of the specification under which the accuracy is the
    number [100 * correct / total] and the mean difficulty the arithmetic
    mean of the recorded difficulties [ds]. *)
Definition exact_accuracy (s : Session) : Prop :=
  exists m a,
    fst (get_performance_metrics s) = Ok m /\
    num_value (m_accuracy m) = Some a /\
    (a == 100 * inject_Z (correct_answers s) / inject_Z (total_questions s))%Q.

Definition exact_mean (s : Session) (ds : list Z) : Prop :=
  exists m b,
    fst (get_performance_metrics s) = Ok m /\
    num_value (m_avg_difficulty m) = Some b /\
    (b == inject_Z (py_sum ds) / inject_Z (Z.of_nat (length ds)))%Q.

(** A session with the given counters and a history that records the
    given difficulties. *)
Definition tally (total correct : Z) (difficulties : list Z) : Session :=
  {| pdf_content := None; pdf_name := None; api_key := None; llm := None;
     current_question := None;
     questions_history :=
       map (fun d => [(lit "difficulty", PInt d)]) difficulties;
     current_difficulty := 1; performance_window := [];
     assessment_started := false; assessment_complete := false;
     total_questions := total; correct_answers := correct;
     asked_questions := []; show_feedback := false; last_feedback := None;
     max_difficulty_reached := 1 |}.

(** [diff_names[level]] and [diff_colors[level]]: the keys are 1, 2, 3. *)
Definition level_entry (level : Z) : M unit :=
  if (level =? 1) || (level =? 2) || (level =? 3) then ret tt
  else raise KeyError.

(** The same look-up with a decoded value as the key. *)
Definition level_entry_of (v : pyval) : M unit :=
  match v with
  | PList _ | PDict _ => raise TypeError
  | _ =>
      if py_same v (PInt 1) || py_same v (PInt 2) || py_same v (PInt 3) then ret tt
      else raise KeyError
  end.

(** *** The sidebar *)

(** The assignments made when a new document is loaded.  (Building the
    handler from a new key, just before, is taken to succeed.) *)
Definition load_document (content name : str) (s : Session) : Session :=
  set_max_difficulty_reached 1
    (set_asked_questions []
      (set_performance_window []
        (set_current_difficulty 1
          (set_correct_answers 0
            (set_total_questions 0
              (set_questions_history []
                (set_assessment_complete false
                  (set_assessment_started false
                    (set_pdf_name (Some name)
                      (set_pdf_content (Some content) s)))))))))).

Definition opt_str_eqb (a : option str) (b : str) : bool :=
  match a with Some x => str_eqb x b | None => false end.

Definition render_sidebar (inp : run_input) : M unit :=
  let api_key_typed := typed_api_key inp in
  known_key <- gets api_key ;;
  (match api_key_typed with
   | _ :: _ =>
       if negb (opt_str_eqb known_key api_key_typed) then
         modify (set_api_key (Some api_key_typed)) ;;
         modify (set_llm (Some api_key_typed))
       else ret tt
   | [] => ret tt
   end) ;;
  (match uploaded_file inp with
   | Some (name, extracted) =>
       known_name <- gets pdf_name ;;
       if negb (opt_str_eqb known_name name) then
         match extracted with
         | Ok content => modify (load_document content name)
         | Err _ => ret tt
         end
       else ret tt
   | None => ret tt
   end) ;;
  started <- gets assessment_started ;;
  if started then
    metrics <- get_performance_metrics ;;
    level_entry (m_current_difficulty metrics)
  else ret tt.

(** *** The welcome screen *)

Definition opt_str_truthy (a : option str) : bool :=
  match a with Some (_ :: _) => true | _ => false end.

Definition render_welcome (inp : run_input) : M unit :=
  key <- gets api_key ;;
  content <- gets pdf_content ;;
  if negb (opt_str_truthy key) then ret tt
  else if negb (opt_str_truthy content) then ret tt
  else if st_button inp StartAssessment
       then modify (set_assessment_started true)
       else ret tt.

(** *** The question screen *)

Definition difficulty_increased : str :=
  [128200%N] ++ lit " Great job! Difficulty increased!".
Definition difficulty_decreased : str :=
  [128201%N] ++ lit " Don't worry! Adjusting difficulty to help you learn.".

(** The entry appended to [questions_history]. *)
Definition history_entry (question : pydict) (answer : str) (is_correct : bool)
  : pydict :=
  [ (lit "question", dict_get_or question (lit "question") (PStr []));
    (lit "topic", dict_get_or question (lit "topic") (PStr (lit "General")));
    (lit "difficulty", dict_get_or question (lit "difficulty") (PInt 1));
    (lit "user_answer", PStr answer);
    (lit "correct_answer", dict_get_or question (lit "correct_answer") (PStr []));
    (lit "is_correct", PBool is_correct);
    (lit "explanation", dict_get_or question (lit "explanation") (PStr [])) ].

(** The block under [if st.button("Submit Answer")], after the feedback
    has come back. *)
Definition record_answer (question : pydict) (answer : str) (fb : Feedback)
  : M unit :=
  let is_correct := is_correct fb in
  modify (fun s => set_total_questions (total_questions s + 1) s) ;;
  (if is_correct
   then modify (fun s => set_correct_answers (correct_answers s + 1) s)
   else ret tt) ;;
  modify (fun s =>
    set_performance_window
      (performance_window s ++ [if is_correct then 1 else 0]) s) ;;
  window <- gets performance_window ;;
  current <- gets current_difficulty ;;
  let new_difficulty := calculate_adaptive_difficulty window current in
  max_reached <- gets max_difficulty_reached ;;
  (if max_reached <? new_difficulty
   then modify (set_max_difficulty_reached new_difficulty)
   else ret tt) ;;
  modify (fun s =>
    set_questions_history
      (questions_history s ++ [history_entry question answer is_correct]) s) ;;
  current <- gets current_difficulty ;;
  let change :=
    if current <? new_difficulty then Some difficulty_increased
    else if new_difficulty <? current then Some difficulty_decreased
    else None in
  let fb := mk_feedback is_correct (feedback fb) (suggestion fb) change in
  modify (set_current_difficulty new_difficulty) ;;
  modify (set_last_feedback (Some fb)) ;;
  modify (set_show_feedback true).

Definition is_none {A} (o : option A) : bool :=
  match o with None => true | Some _ => false end.

(** The block at the top of [render_question]: a question is generated
    whenever no feedback is on display. *)
Definition ensure_question `{PythonRuntime} (inp : run_input) : M unit :=
  question_now <- gets current_question ;;
  feedback_shown <- gets show_feedback ;;
  if is_none question_now || negb feedback_shown then
    if negb feedback_shown then
      handler <- gets llm ;;
      match handler with
      | None => raise AttributeError
      | Some _ =>
          content <- gets pdf_content ;;
          difficulty <- gets current_difficulty ;;
          asked <- gets asked_questions ;;
          match content with
          | None => raise TypeError
          | Some content =>
              let question_data :=
                fst (generate_question content difficulty asked None
                       (service inp)) in
              modify (set_current_question (Some question_data)) ;;
              modify (fun s =>
                set_asked_questions
                  (asked_questions s
                     ++ [dict_get_or question_data (lit "question") (PStr [])])
                  s)
          end
      end
    else ret tt
  else ret tt.

(** The block under [if not st.session_state.show_feedback]: the options,
    the radio buttons and the submit button. *)
Definition answer_form `{PythonRuntime} (inp : run_input) (question : pydict)
  : M unit :=
  match dict_get_or question (lit "options") (PDict []) with
  | PDict options =>
      let keys := dict_keys options in
      let answer :=
        match keys with
        | [] => None
        | first :: _ => Some (nth (radio_choice inp) keys first)
        end in
      if st_button inp SubmitAnswer then
        match answer,
              dict_get_or question (lit "correct_answer") (PStr [])
        with
        | Some answer, PStr correct_answer =>
            content <- gets pdf_content ;;
            let fb :=
              fst (evaluate_answer
                     (dict_get_or question (lit "question") (PStr []))
                     answer correct_answer options content
                     (service inp)) in
            record_answer question answer fb
        | _, _ => raise AttributeError
        end
      else ret tt
  | _ => raise AttributeError
  end.

(** The [else] block: the feedback and the two buttons under it. *)
Definition feedback_view (inp : run_input) (question : pydict) : M unit :=
  shown <- gets last_feedback ;;
  match shown with
  | None => raise TypeError
  | Some fb =>
      (if is_correct fb then ret tt
       else
         match dict_get_or question (lit "options") (PDict []),
               dict_get_or question (lit "correct_answer") (PStr [])
         with
         | PDict _, PList _ | PDict _, PDict _ => raise TypeError
         | PDict _, _ => ret tt
         | _, _ => raise AttributeError
         end) ;;
      if st_button inp NextQuestion then
        modify (set_current_question None) ;;
        modify (set_show_feedback false) ;;
        modify (set_last_feedback None)
      else if st_button inp FinishAssessment then
        modify (set_assessment_complete true)
      else ret tt
  end.

Definition render_question `{PythonRuntime} (inp : run_input) : M unit :=
  ensure_question inp ;;
  question <- gets current_question ;;
  metrics <- get_performance_metrics ;;
  current <- gets current_difficulty ;;
  level_entry current ;;
  level_entry (m_max_difficulty_reached metrics) ;;
  match question with
  | None => raise AttributeError
  | Some question =>
      if py_truthy (dict_get_or question (lit "error") PNone) then
        if st_button inp TryAgain
        then modify (set_current_question None)
        else ret tt
      else
        level_entry_of (dict_get_or question (lit "difficulty") (PInt 1)) ;;
        feedback_shown <- gets show_feedback ;;
        if negb feedback_shown then answer_form inp question
        else feedback_view inp question
  end.

(** *** The results screen *)

(** The assignments under [Start New Assessment]. *)
Definition restart (s : Session) : Session :=
  set_last_feedback None
    (set_show_feedback false
      (set_max_difficulty_reached 1
        (set_asked_questions []
          (set_current_question None
            (set_performance_window []
              (set_current_difficulty 1
                (set_correct_answers 0
                  (set_total_questions 0
                    (set_questions_history []
                      (set_assessment_complete false
                        (set_assessment_started false s))))))))))).

(** Building and offering the report reads the session and writes nothing
    to it. *)
Definition render_results (inp : run_input) : M unit :=
  metrics <- get_performance_metrics ;;
  level_entry (m_max_difficulty_reached metrics) ;;
  if st_button inp StartNewAssessment then modify restart else ret tt.

(** *** [main] *)

Definition main `{PythonRuntime} (inp : run_input) : M unit :=
  render_sidebar inp ;;
  complete <- gets assessment_complete ;;
  started <- gets assessment_started ;;
  if complete then render_results inp
  else if started then render_question inp
  else render_welcome inp.

(** The sessions the application can be in: the initial one, and the one
    any run leaves behind, whether it ended normally or on an exception. *)
Inductive reachable `{PythonRuntime} : Session -> Prop :=
| reach_init : reachable init_session_state
| reach_run s inp : reachable s -> reachable (snd (main inp s)).

(** The difficulty an entry of the history records. *)
Definition recorded_difficulty (q : pydict) (d : Z) : Prop :=
  dict_get q (lit "difficulty") = Some (PInt d).

(** The scoring state of a session: what answering a question updates. *)
Definition scoring (s : Session) :=
  (questions_history s, performance_window s, current_difficulty s,
   max_difficulty_reached s, total_questions s, correct_answers s).

(** What every reachable session satisfies. *)
Record session_ok (s : Session) : Prop := {
  ok_level : 1 <= current_difficulty s <= max_difficulty_reached s;
  ok_peak : max_difficulty_reached s <= 3;
  ok_history :
    Forall (fun q => exists d, recorded_difficulty q d /\
                               1 <= d <= max_difficulty_reached s)
      (questions_history s);
  ok_total : total_questions s = Z.of_nat (length (questions_history s));
  ok_correct : 0 <= correct_answers s <= total_questions s;
  ok_window_length :
    length (performance_window s) = length (questions_history s);
  ok_window_bits : Forall is_bit (performance_window s)
}.

(** A session on the question screen, with a document and a handler, and
    a model that answers every prompt with the same text. *)
Definition quiz_session : Session :=
  set_assessment_started true
    (set_llm (Some (lit "key"))
      (set_api_key (Some (lit "key"))
        (set_pdf_name (Some (lit "notes.pdf"))
          (set_pdf_content (Some (lit "Photosynthesis turns light into sugar."))
            init_session_state)))).

Definition always_replies (text : str) : chat_service := fun _ => Ok text.

Definition quiz_input (text : str) (pressed : option button) : run_input :=
  {| typed_api_key := lit "key"; uploaded_file := None; clicked := pressed;
     radio_choice := 0; service := always_replies text |}.

(** A computation that only reads the session. *)
Definition reads {A} (c : M A) : Prop := forall s, snd (c s) = s.

(** The question [ensure_question] generates in the session [s]. *)
Definition generated `{PythonRuntime} (inp : run_input) (s : Session)
  (content : str) : pydict :=
  fst (generate_question content (current_difficulty s) (asked_questions s)
         None (service inp)).

(** *** A sample session *)

(** The session after a sequence of runs. *)
Definition play `{PythonRuntime} (inputs : list run_input) (s : Session)
  : Session :=
  fold_left (fun s inp => snd (main inp s)) inputs s.

(** A well-formed reply: a question with two options, [A] correct. *)
Definition question_reply : str :=
  lit "{" ++ quoted (lit "question") ++ lit ": " ++ quoted (lit "Q") ++ lit ", "
    ++ quoted (lit "options") ++ lit ": {"
    ++ quoted (lit "A") ++ lit ": " ++ quoted (lit "x") ++ lit ", "
    ++ quoted (lit "B") ++ lit ": " ++ quoted (lit "y") ++ lit "}, "
    ++ quoted (lit "correct_answer") ++ lit ": " ++ quoted (lit "A") ++ lit ", "
    ++ quoted (lit "topic") ++ lit ": " ++ quoted (lit "T") ++ lit "}".

(** The learner enters a key and a document, starts, and answers three
    questions with the first option, moving on after each; the model
    replies [question_reply] every time. *)
Definition three_correct_answers : list run_input :=
  let run pressed := quiz_input question_reply pressed in
  let upload :=
    {| typed_api_key := lit "key";
       uploaded_file := Some (lit "notes.pdf", Ok (lit "Some notes."));
       clicked := None; radio_choice := 0;
       service := always_replies question_reply |} in
  [ upload; run (Some StartAssessment);
    run None; run (Some SubmitAnswer); run (Some NextQuestion);
    run None; run (Some SubmitAnswer); run (Some NextQuestion);
    run None; run (Some SubmitAnswer) ].

Definition sample_session : Session :=
  @play reference_runtime three_correct_answers init_session_state.

(** ** Quick revision ([snap_learn.py]) *)

(** [HTTPException(status, detail)] *)
Definition http_error (status : Z) (detail : str) : exn :=
  mk_exn (HTTPException status) detail.

(** A [TypeError] nobody catches; its text plays no part. *)
Definition type_error : exn := mk_exn TypeError [].

(** [str(n)] for a count. *)
Fixpoint decimal_digits (fuel n : nat) (acc : str) : str :=
  match fuel with
  | O => acc
  | S fuel' =>
      let acc' := N.of_nat (48 + n mod 10) :: acc in
      match (n / 10)%nat with
      | O => acc'
      | m => decimal_digits fuel' m acc'
      end
  end.

Definition py_str_nat (n : nat) : str := decimal_digits (S n) n [].

(** [llm(prompt, max_tokens)], given what the chat call does: the stripped
    text of the reply, which must not be empty. *)
Definition llm_text (reply : result str) : result str :=
  match reply with
  | Err e => Err e
  | Ok text =>
      match rstrip (lstrip text) with
      | [] => Err (http_error 500 (lit "AI returned empty response"))
      | t => Ok t
      end
  end.

(** [key in v] *)
Definition py_contains (v : pyval) (key : str) : result bool :=
  match v with
  | PDict d => Ok (negb (is_none (dict_get d key)))
  | PList l => Ok (py_in (PStr key) l)
  | PStr s => Ok (negb (is_none (str_find key s)))
  | _ => Err type_error
  end.

(** [v[key]] for a string key. *)
Definition py_item (v : pyval) (key : str) : result pyval :=
  match v with
  | PDict d =>
      match dict_get d key with
      | Some x => Ok x
      | None => Err (mk_exn KeyError key)
      end
  | _ => Err type_error
  end.

(** [len(v)] *)
Definition py_len (v : pyval) : result nat :=
  match v with
  | PList l => Ok (length l)
  | PStr s => Ok (length s)
  | PDict d => Ok (length d)
  | _ => Err type_error
  end.

(** [v[:n]]: the first [n] items of a string or a list.  [None], a bool and
    a number cannot be subscripted, a [TypeError]; a dict takes the slice
    for a key, which is a [TypeError] as well while a slice cannot be hashed
    (up to Python 3.11; from 3.12 the failed look-up is a [KeyError]). *)
Definition py_slice_first (n : nat) (v : pyval) : result pyval :=
  match v with
  | PList l => Ok (PList (slice_first n l))
  | PStr s => Ok (PStr (slice_first n s))
  | _ => Err type_error
  end.

(** The statements of [revise] after the reply has been decoded. *)
Definition checked_analysis (parsed : pyval) : result pyval :=
  match py_contains parsed (lit "key_concepts") with
  | Err e => Err e
  | Ok present =>
      match
        (if negb present then Ok true
         else match py_item parsed (lit "key_concepts") with
              | Ok concepts => Ok (negb (py_truthy concepts))
              | Err e => Err e
              end)
      with
      | Err e => Err e
      | Ok true => Err (http_error 500 (lit "No key concepts generated"))
      | Ok false =>
          match parsed with
          | PDict d =>
              let mcqs := dict_get_or d (lit "mcqs") (PList []) in
              match py_len mcqs with
              | Err e => Err e
              | Ok count =>
                  if (count <? 10)%nat then
                    Err (http_error 500
                           (lit "AI returned only " ++ py_str_nat count
                              ++ lit " MCQs"))
                  else
                    match py_slice_first 10 mcqs with
                    | Err e => Err e
                    | Ok kept =>
                        Ok (PDict [(lit "analysis",
                                    PDict (dict_set d (lit "mcqs") kept))])
                    end
              end
          | _ => Err type_error
          end
      end
  end.

(** [revise], given the documents the store holds for the chunk and the
    chat service, which receives the text put into the prompt. *)
Definition revise `{PythonRuntime}
  (documents : list str) (co_chat : str -> result str) : result pyval :=
  match documents with
  | [] => Err (http_error 404 (lit "Chunk not found"))
  | document :: _ =>
      let context := slice_first 1400 document in
      match llm_text (co_chat context) with
      | Err e => Err e
      | Ok raw =>
          match json_loads raw with
          | Decoded parsed => checked_analysis parsed
          | DecodeError | Raised _ =>
              Err (http_error 500 (lit "Invalid JSON from AI:" ++ nl ++ raw))
          end
      end
  end.

(** The option count of some generated item is not 4. *)
Definition wrong_option_count (parsed : pyval) : Prop :=
  exists d items item fields options,
    parsed = PDict d /\
    dict_get d (lit "mcqs") = Some (PList items) /\
    In item items /\ item = PDict fields /\
    dict_get fields (lit "options") = Some (PList options) /\
    length options <> 4%nat.

(** The reading of the specification under which a wrong option count
    fails the operation. *)
Definition rejects_wrong_option_count : Prop :=
  forall parsed, wrong_option_count parsed ->
    exists e, checked_analysis parsed = Err e.

(** The reading under which a reply with no items at all, the key absent
    or [null], fails with a descriptive error. *)
Definition reports_missing_items : Prop :=
  forall d,
    dict_get d (lit "mcqs") = None \/ dict_get d (lit "mcqs") = Some PNone ->
    exists status detail,
      checked_analysis (PDict d) = Err (http_error status detail).

(** The reading under which every reply with more than ten items is cut
    to ten, and that is no error. *)
Definition truncates_every_long_reply : Prop :=
  forall d items,
    dict_get d (lit "mcqs") = Some (PList items) ->
    (10 < length items)%nat ->
    exists analysis, checked_analysis (PDict d) = Ok analysis.

(** The generated items of a decoded reply: the list under [mcqs], or none
    when the key is absent. *)
Definition generated_items (d : pydict) (items : list pyval) : Prop :=
  dict_get d (lit "mcqs") = Some (PList items) \/
  (dict_get d (lit "mcqs") = None /\ items = []).

(** The reply carries key concepts: the key is there and its value is not
    empty. *)
Definition has_key_concepts (d : pydict) : bool :=
  match dict_get d (lit "key_concepts") with
  | Some concepts => py_truthy concepts
  | None => false
  end.

(** An item with the given number of options. *)
Definition mcq_with_options (n : nat) : pyval :=
  PDict [ (lit "question", PStr (lit "Q"));
          (lit "options", PList (repeat (PStr (lit "A) x")) n));
          (lit "correctAnswer", PStr (lit "A")) ].

(** A decoded reply with one concept and the given items. *)
Definition analysis_fields (items : list pyval) : pydict :=
  [ (lit "key_concepts",
      PList [PDict [ (lit "concept", PStr (lit "C"));
                     (lit "explanation", PStr (lit "E")) ]]);
    (lit "formulas", PList []);
    (lit "mcqs", PList items) ].

Definition analysis_with (items : list pyval) : pyval :=
  PDict (analysis_fields items).

(** A reply with one concept and [null] for its items. *)
Definition null_items_analysis : pydict :=
  [ (lit "key_concepts", PList [PStr (lit "C")]); (lit "mcqs", PNone) ].

(** A reply with eleven items and no key concepts. *)
Definition no_concepts_analysis : pydict :=
  [ (lit "mcqs", PList (repeat (mcq_with_options 4) 11)) ].

(** Ten items, the first with two options only. *)
Definition short_options_analysis : pyval :=
  analysis_with (mcq_with_options 2 :: repeat (mcq_with_options 4) 9).

(** ** Definitions for the further properties *)

(** The test of [get_weak_topics] on an entry: [not q.get('is_correct', False)]. *)
Definition answered_wrong (q : pydict) : bool :=
  negb (py_truthy (dict_get_or q (lit "is_correct") (PBool false))).

(** [t] occurs in [s] as a contiguous piece. *)
Definition substring (t s : str) : Prop := exists before after, s = before ++ t ++ after.

(** The session after [ensure_question] has generated a question from the
    document [content]. *)
Definition with_question `{PythonRuntime} (inp : run_input) (s : Session)
  (content : str) : Session :=
  set_asked_questions
    (asked_questions s
       ++ [dict_get_or (generated inp s content) (lit "question") (PStr [])])
    (set_current_question (Some (generated inp s content)) s).

(** The assignments under [Next Question]. *)
Definition next_question_state (s : Session) : Session :=
  set_last_feedback None (set_show_feedback false (set_current_question None s)).

(** The assignments made when a new key is typed. *)
Definition with_key (key : str) (s : Session) : Session :=
  set_llm (Some key) (set_api_key (Some key) s).

(** The option the radio buttons return. *)
Definition chosen_option (inp : run_input) (options : pydict) : option str :=
  match dict_keys options with
  | [] => None
  | first :: _ => Some (nth (radio_choice inp) (dict_keys options) first)
  end.

(** The feedback the question screen gets for an answer. *)
Definition graded `{PythonRuntime} (inp : run_input) (s : Session)
  (question options : pydict) (answer correct_answer : str) : Feedback :=
  fst (evaluate_answer (dict_get_or question (lit "question") (PStr []))
         answer correct_answer options (pdf_content s) (service inp)).

(** The scoring state after an answer to [question] has been recorded in
    the session [s]. *)
Definition after_answer (s : Session) (question : pydict) (answer : str)
  (correct : bool) :=
  let bit := if correct then 1 else 0 in
  let window := performance_window s ++ [bit] in
  let new := calculate_adaptive_difficulty window (current_difficulty s) in
  (questions_history s ++ [history_entry question answer correct],
   window, new, Z.max (max_difficulty_reached s) new,
   total_questions s + 1, correct_answers s + bit).

(** The run was given a new document that could be read, or the restart
    button. *)
Definition reset_requested (inp : run_input) : Prop :=
  (exists name content, uploaded_file inp = Some (name, Ok content)) \/
  clicked inp = Some StartNewAssessment.

(** The bit the window holds for an entry and the entry's [is_correct]
    agree. *)
Definition bit_matches_entry (bit : Z) (q : pydict) : Prop :=
  dict_get q (lit "is_correct") = Some (PBool (bit =? 1)).

(** What the flow between the screens keeps true: the handler is built
    from the stored key; the assessment is started only with a key and a
    document that is not empty; it is complete only when started. *)
Record session_flow (s : Session) : Prop := {
  flow_handler : llm s = api_key s;
  flow_started :
    assessment_started s = true ->
    opt_str_truthy (api_key s) = true /\ opt_str_truthy (pdf_content s) = true;
  flow_complete : assessment_complete s = true -> assessment_started s = true
}.

(** A question the answer form and the feedback view can show and grade:
    its options are an object that is not empty, its correct answer is a
    string. *)
Definition answerable (q : pydict) : Prop :=
  exists options correct_answer,
    dict_get_or q (lit "options") (PDict []) = PDict options /\
    options <> [] /\
    dict_get_or q (lit "correct_answer") (PStr []) = PStr correct_answer.

(** Every question [generate_question] builds from the replies of the
    run's service is flagged as an error or can be answered. *)
Definition asks_well `{PythonRuntime} (inp : run_input) : Prop :=
  forall content difficulty asked,
    let q := fst (generate_question content difficulty asked None (service inp)) in
    py_truthy (dict_get_or q (lit "error") PNone) = true \/ answerable q.

(** While feedback is on display, the session holds the question that was
    answered and the feedback for it. *)
Definition feedback_ready (s : Session) : Prop :=
  show_feedback s = true ->
  exists q fb,
    current_question s = Some q /\ last_feedback s = Some fb /\
    py_truthy (dict_get_or q (lit "error") PNone) = false /\
    answerable q /\
    exists d, recorded_difficulty q d /\ 1 <= d <= 3.

(** The sessions [main] calls [render_question] on: the sidebar has run on
    a reachable session, and the assessment is started and not complete. *)
Definition on_question_screen `{PythonRuntime} (inp : run_input) (s2 : Session)
  : Prop :=
  exists s, reachable s /\ s2 = snd (render_sidebar inp s) /\
            assessment_complete s2 = false /\ assessment_started s2 = true.

(** The sample session when its first question is on the screen, before
    any answer. *)
Definition first_question_shown : Session :=
  @play reference_runtime (firstn 3 three_correct_answers) init_session_state.

(** ** Uploading a document ([snap_learn.py]) *)

(** [range(start, stop, step)] for a positive [step], element by element;
    [count] bounds the number of elements. *)
Fixpoint range_from (count start stop step : nat) : list nat :=
  match count with
  | O => []
  | S count' =>
      if (start <? stop)%nat
      then start :: range_from count' (start + step) stop step
      else []
  end.

(** [range(0, stop, step)]: it has at most [stop] elements. *)
Definition py_range (stop step : nat) : list nat := range_from stop 0 stop step.

(** [l[i:j]] for [0 <= i <= j]. *)
Definition py_slice {A} (i j : nat) (l : list A) : list A :=
  firstn (j - i) (skipn i l).

(** The text [upload] reads from the pages; a page may give no text. *)
Definition extracted_text (pages : list (option str)) : str :=
  fold_left
    (fun text page => text ++ match page with Some t => t | None => [] end)
    pages [].

(** What [upload] adds to the collection and what it returns. *)
Record Upload := mk_upload {
  stored_documents : list str;
  stored_ids : list str;
  stored_metadatas : list str;       (* the [doc] of each entry *)
  total_chunks : nat;
  chunk_previews : list (str * str)  (* the [id] and [text] of each entry *)
}.

Definition upload (filename : str) (pages : list (option str)) : result Upload :=
  let text := extracted_text pages in
  if (length (rstrip (lstrip text)) <? 100)%nat then
    Err (http_error 400 (lit "No readable text"))
  else
    let chunks :=
      map (fun i => py_slice i (i + 900) text) (py_range (length text) 800) in
    let ids :=
      map (fun i => filename ++ lit "_" ++ py_str_nat i)
        (seq 0 (length chunks)) in
    Ok (mk_upload chunks ids (repeat filename (length chunks))
          (length chunks)
          (map (fun i => (nth i ids [],
                          slice_first 60 (nth i chunks []) ++ lit "..."))
             (seq 0 (length chunks)))).

(** A document of two pages: a thousand letters, and a page without text. *)
Definition sample_pages : list (option str) := [Some (repeat 97%N 1000); None].

(** A reply to the revision prompt: one concept and eleven items. *)
Definition revision_reply : str :=
  lit "{" ++ quoted (lit "key_concepts") ++ lit ": [" ++ quoted (lit "C")
    ++ lit "], " ++ quoted (lit "mcqs")
    ++ lit ": [1, 2, 3, 4, 5, 6, 7, 8, 9, 10, 11]}".

(** ** The question table and the topics to review ([report_generator.py]) *)

(** The values a dict takes as keys: a list or a dict is not hashable. *)
Definition hashable (v : pyval) : bool :=
  match v with
  | PList _ | PDict _ => false
  | _ => true
  end.

(** [topic_counts[topic] = topic_counts.get(topic, 0) + 1], on a dict kept
    as its items in insertion order. *)
Fixpoint count_topic (topic_counts : list (pyval * Z)) (topic : pyval)
  : list (pyval * Z) :=
  match topic_counts with
  | [] => [(topic, 0 + 1)]
  | (key, count) :: rest =>
      if py_same topic key then (key, count + 1) :: rest
      else (key, count) :: count_topic rest topic
  end.

(** [sorted(items, key=lambda x: -x[1])]: by increasing key, items of
    equal key staying in their order. *)
Fixpoint insert_by_count (item : pyval * Z) (sorted : list (pyval * Z))
  : list (pyval * Z) :=
  match sorted with
  | [] => [item]
  | other :: rest =>
      if - snd item <=? - snd other then item :: sorted
      else other :: insert_by_count item rest
  end.

Definition sorted_by_count (items : list (pyval * Z)) : list (pyval * Z) :=
  fold_right insert_by_count [] items.

(** The topic an entry is filed under: [q.get('topic', 'Unknown')]. *)
Definition topic_of (q : pydict) : pyval :=
  dict_get_or q (lit "topic") (PStr (lit "Unknown")).

(** The statements of the section [Topics Needing Review] of
    [generate_assessment_report]: the topic and the count of each line it
    writes, in order. *)
Definition review_lines (questions_history : list pydict)
  : result (list (pyval * Z)) :=
  let weak_topics := map topic_of (filter answered_wrong questions_history) in
  match weak_topics with
  | [] => Ok []
  | _ :: _ =>
      match
        fold_left
          (fun counted topic =>
             match counted with
             | Ok topic_counts =>
                 match topic with
                 | PList _ =>
                     Err (mk_exn TypeError (lit "unhashable type: 'list'"))
                 | PDict _ =>
                     Err (mk_exn TypeError (lit "unhashable type: 'dict'"))
                 | _ => Ok (count_topic topic_counts topic)
                 end
             | Err e => Err e
             end)
          weak_topics (Ok [])
      with
      | Ok topic_counts => Ok (sorted_by_count topic_counts)
      | Err e => Err e
      end
  end.

(** [diff_names.get(level, 'Medium')] in the report: the keys of
    [diff_names] are 1, 2 and 3, and the key looked up must be hashable. *)
Definition diff_name (level : pyval) : result str :=
  match level with
  | PList _ => Err (mk_exn TypeError (lit "unhashable type: 'list'"))
  | PDict _ => Err (mk_exn TypeError (lit "unhashable type: 'dict'"))
  | _ =>
      Ok (if py_same level (PInt 1) then lit "Easy"
          else if py_same level (PInt 2) then lit "Medium"
          else if py_same level (PInt 3) then lit "Hard"
          else lit "Medium")
  end.

(** A row of the table [Question-by-Question Analysis]:
    [[str(i), topic, diff, result]]. *)
Record table_row := {
  row_number : str;
  row_topic : pyval;
  row_difficulty : str;
  row_result : str
}.

(** What the table says of an answer: a check mark or a ballot cross
    (U+2713, U+2717) and a word. *)
Definition result_text (is_correct : pyval) : str :=
  if py_truthy is_correct then 10003%N :: lit " Correct"
  else 10007%N :: lit " Incorrect".

(** The body of the loop over [enumerate(questions_history, 1)], for the
    entry [q] numbered [i]. *)
Definition table_row_of (i : nat) (q : pydict) : result table_row :=
  match py_slice_first 30 (dict_get_or q (lit "topic") (PStr (lit "General")))
  with
  | Err e => Err e
  | Ok topic =>
      match diff_name (dict_get_or q (lit "difficulty") (PInt 1)) with
      | Err e => Err e
      | Ok diff =>
          Ok {| row_number := py_str_nat i;
                row_topic := topic;
                row_difficulty := diff;
                row_result :=
                  result_text (dict_get_or q (lit "is_correct") (PBool false))
             |}
      end
  end.

(** The rows appended to [q_data] after its header, the first entry being
    numbered [i]: the loop stops at the first entry that raises.  (Of an
    empty history no table is made.) *)
Fixpoint question_rows (i : nat) (questions_history : list pydict)
  : result (list table_row) :=
  match questions_history with
  | [] => Ok []
  | q :: rest =>
      match table_row_of i q with
      | Err e => Err e
      | Ok row =>
          match question_rows (S i) rest with
          | Err e => Err e
          | Ok rows => Ok (row :: rows)
          end
      end
  end.

(** What [generate_assessment_report] computes from [questions_history],
    in the order of the source: the rows of the question table, then the
    lines of the topics to review.  The summary before them reads
    [performance_data] only, and the calls that lay the report out
    ([Paragraph], [Table], [doc.build]) are the PDF library's: neither is
    part of this. *)
Definition history_sections (questions_history : list pydict)
  : result (list table_row * list (pyval * Z)) :=
  match question_rows 1 questions_history with
  | Err e => Err e
  | Ok rows =>
      match review_lines questions_history with
      | Err e => Err e
      | Ok lines => Ok (rows, lines)
      end
  end.

(** The values [v[:30]] accepts. *)
Definition sliceable (v : pyval) : bool :=
  match v with
  | PStr _ | PList _ => true
  | _ => false
  end.

(** An entry the table loop gets through: its topic, where it has one, can
    be sliced, and its difficulty, where it has one, can be looked up. *)
Definition tabulated (q : pydict) : bool :=
  sliceable (dict_get_or q (lit "topic") (PStr (lit "General")))
  && hashable (dict_get_or q (lit "difficulty") (PInt 1)).

(** A history whose third entry has a number for a topic. *)
Definition numbered_topic_history : list pydict :=
  [answered (lit "T1") true; answered (lit "T2") false;
   [(lit "topic", PInt 7); (lit "is_correct", PBool true)]].

(** ** Decoding the items of the revision guide ([snap_learn.py]) *)

(** [s.find(pat)] and [s.rfind(c)]: the index, or -1. *)
Definition py_find (pat s : str) : Z :=
  match str_find pat s with Some i => Z.of_nat i | None => -1 end.

Definition py_rfind (c : N) (s : str) : Z :=
  match last_index c s with Some i => Z.of_nat i | None => -1 end.

(** [l[i:j]] for any two ints: a negative index counts from the end, and
    both are brought into the range of the list. *)
Definition py_slice_int {A} (i j : Z) (l : list A) : list A :=
  let n := Z.of_nat (length l) in
  let clip k := if k <? 0 then Z.max (k + n) 0 else Z.min k n in
  firstn (Z.to_nat (clip j - clip i)) (skipn (Z.to_nat (clip i)) l).

(** [cleaned[cleaned.find("{"):cleaned.rfind("}") + 1]] *)
Definition brace_slice (cleaned : str) : str :=
  py_slice_int (py_find (lit "{") cleaned) (py_rfind 125 cleaned + 1) cleaned.

(** The [try] block of [generate] that decodes the reply holding the
    items: the slice is tried after a [JSONDecodeError] only, and whatever
    [json.loads] raises on the slice gives the status 500. *)
Definition mcq_json `{PythonRuntime} (mcq_raw : str) : result pyval :=
  match json_loads mcq_raw with
  | Decoded mcqs => Ok mcqs
  | Raised e => Err e
  | DecodeError =>
      let cleaned := rstrip (lstrip mcq_raw) in
      let cleaned := brace_slice cleaned in
      match json_loads cleaned with
      | Decoded mcqs => Ok mcqs
      | DecodeError | Raised _ =>
          Err (http_error 500
                 (lit "Invalid MCQ JSON from AI:" ++ nl ++ mcq_raw))
      end
  end.

(** A reply with a sentence around the object. *)
Definition wrapped_response : str :=
  lit "Sure: " ++ question_object_text ++ lit " Done.".

(** ** Cleaning the extracted text ([pdf_extractor.py]) *)

(** [re.sub(pattern, repl, s)] for a pattern that matches no empty text:
    from left to right, a match is replaced and the scan goes on after it,
    a character where nothing matches is copied.  [count] bounds the number
    of steps; the length of the text and one more are enough. *)
Fixpoint re_sub (count : nat) (r : regex) (repl s : str) : str :=
  match count with
  | O => s
  | S count' =>
      match re_match_at r s with
      | Some m => repl ++ re_sub count' r repl (skipn (length (group0 m)) s)
      | None =>
          match s with
          | [] => []
          | c :: s' => c :: re_sub count' r repl s'
          end
      end
  end.

(** [c{k,}]: [k] times the character, then as many more as there are. *)
Definition at_least (k : nat) (c : N) : regex :=
  Cat (Chars (repeat c k)) (StarGreedy (N.eqb c)).

(** [text.split('\n')] *)
Fixpoint split_lines (text : str) : list str :=
  match text with
  | [] => [[]]
  | c :: text' =>
      if N.eqb c 10 then [] :: split_lines text'
      else
        match split_lines text' with
        | line :: lines => (c :: line) :: lines
        | [] => [[c]]
        end
  end.

(** ['\n'.join(lines)] *)
Fixpoint join_lines (lines : list str) : str :=
  match lines with
  | [] => []
  | [line] => line
  | line :: lines' => line ++ nl ++ join_lines lines'
  end.

(** [s.strip()]: without an argument, white space goes from both ends. *)
Definition strip (s : str) : str := rstrip (lstrip s).

(** [clean_text]; the two patterns are [\n{3,}] and [ {2,}], neither of
    which matches the empty text. *)
Definition clean_text (text : str) : str :=
  let text := re_sub (S (length text)) (at_least 3 10) (nl ++ nl) text in
  let text := re_sub (S (length text)) (at_least 2 32) (lit " ") text in
  let lines := map strip (split_lines text) in
  let text := join_lines lines in
  strip text.

(** The number of times [c] stands at the head of [s]. *)
Fixpoint run_length (c : N) (s : str) : nat :=
  match s with
  | x :: s' => if N.eqb c x then S (run_length c s') else O
  | [] => O
  end.

(** No space is followed by a space. *)
Fixpoint single_spaced (s : str) : Prop :=
  match s with
  | [] => True
  | c :: s' => (c = 32%N -> hd_error s' <> Some 32%N) /\ single_spaced s'
  end.

(** * Properties *)

(** ** Facts about the helpers *)

Lemma py_sum_from (l : list Z) (a : Z) : fold_left Z.add l a = a + py_sum l.
Proof.
  unfold py_sum. revert a.
  induction l as [|x l IH]; intros a; simpl; [lia|].
  rewrite (IH (a + x)), (IH x). lia.
Qed.

Lemma py_sum_cons (x : Z) (l : list Z) : py_sum (x :: l) = x + py_sum l.
Proof. unfold py_sum at 1. simpl. apply py_sum_from. Qed.

Lemma slice_last_app {A} (n : nat) (p r : list A) :
  length r = n -> slice_last n (p ++ r) = r.
Proof.
  intros H. unfold slice_last. rewrite length_app, H.
  replace (length p + n - n)%nat with (length p + 0)%nat by lia.
  rewrite skipn_app, Nat.add_0_r, skipn_all.
  replace (length p - length p)%nat with 0%nat by lia. reflexivity.
Qed.

Lemma slice_last_split {A} (n : nat) (l : list A) :
  (n <= length l)%nat ->
  l = firstn (length l - n) l ++ slice_last n l /\ length (slice_last n l) = n.
Proof.
  intros H. unfold slice_last. split.
  - symmetry. apply firstn_skipn.
  - rewrite length_skipn. lia.
Qed.

(** The update rule on its own: what the controller returns once the window
    is long enough, as a function of the count over the recent entries. *)
Lemma calculate_adaptive_difficulty_long (w : list Z) (c : Z) :
  (3 <= length w)%nat ->
  calculate_adaptive_difficulty w c =
    let n := py_sum (slice_last 3 w) in
    if (2 <=? n) && (c <? 3) then c + 1
    else if (n <=? 1) && (1 <? c) then c - 1 else c.
Proof.
  intros H. unfold calculate_adaptive_difficulty.
  destruct (Z.ltb_spec (Z.of_nat (length w)) 3); [lia|reflexivity].
Qed.

Lemma calculate_adaptive_difficulty_level (w : list Z) (c : Z) :
  is_level c -> is_level (calculate_adaptive_difficulty w c).
Proof.
  unfold is_level, calculate_adaptive_difficulty. intros H.
  destruct (_ <? 3); [assumption|].
  destruct (Z.leb_spec 2 (py_sum (slice_last 3 w)));
    destruct (Z.ltb_spec c 3); simpl; try lia;
    destruct (Z.leb_spec (py_sum (slice_last 3 w)) 1);
    destruct (Z.ltb_spec 1 c); simpl; lia.
Qed.

(** ** Claims about the controller *)

(** C1.  On a window of correctness bits of length at least 3 and a current
    difficulty among 1, 2, 3, the controller looks at the last three entries
    only: the window is some prefix followed by these three, and replacing
    the prefix by any other leaves the result unchanged.  With
    [correct_count] their sum, it returns [current + 1] when
    [correct_count >= 2] and [current < 3], [current - 1] when
    [correct_count <= 1] and [current > 1], and [current] otherwise.  The
    windows [1,1,0] at 1, [0,0,1] at 2 and [1,0,1,0,1] at 2 give 2, 1, 3. *)
Theorem C1_next_difficulty_rule (window : list Z) (current : Z) :
  (3 <= length window)%nat ->
  Forall is_bit window ->
  In current [1; 2; 3] ->
  let recent := slice_last 3 window in
  let correct_count := py_sum recent in
  let result := calculate_adaptive_difficulty window current in
  (exists older a b c, window = older ++ [a; b; c] /\ recent = [a; b; c] /\
     correct_count = a + b + c /\
     forall older', calculate_adaptive_difficulty (older' ++ [a; b; c]) current
                    = result) /\
  (correct_count >= 2 /\ current < 3 -> result = current + 1) /\
  (correct_count <= 1 /\ current > 1 -> result = current - 1) /\
  (~ (correct_count >= 2 /\ current < 3) ->
   ~ (correct_count <= 1 /\ current > 1) -> result = current) /\
  calculate_adaptive_difficulty [1; 1; 0] 1 = 2 /\
  calculate_adaptive_difficulty [0; 0; 1] 2 = 1 /\
  calculate_adaptive_difficulty [1; 0; 1; 0; 1] 2 = 3.
Proof.
  intros Hlen _ _. cbv zeta.
  destruct (slice_last_split 3 window Hlen) as [Hw Hl].
  rewrite (calculate_adaptive_difficulty_long window current Hlen). cbv zeta.
  destruct (slice_last 3 window) as [|a [|b [|c [|d r]]]] eqn:Er;
    try discriminate Hl.
  assert (Hs : py_sum [a; b; c] = a + b + c)
    by (rewrite !py_sum_cons; unfold py_sum; simpl; lia).
  set (n := py_sum [a; b; c]) in *.
  split; [|repeat split; try reflexivity].
  - exists (firstn (length window - 3) window), a, b, c.
    repeat split; try assumption.
    intros older'.
    rewrite calculate_adaptive_difficulty_long
      by (rewrite length_app; simpl; lia).
    rewrite slice_last_app by reflexivity. reflexivity.
  - intros [H1 H2].
    destruct (Z.leb_spec 2 n); [|lia].
    destruct (Z.ltb_spec current 3); [reflexivity|lia].
  - intros [H1 H2].
    destruct (Z.leb_spec 2 n); [lia|]. simpl.
    destruct (Z.leb_spec n 1); [|lia].
    destruct (Z.ltb_spec 1 current); [reflexivity|lia].
  - intros N1 N2.
    destruct (Z.leb_spec 2 n); destruct (Z.ltb_spec current 3);
      simpl; try lia;
      destruct (Z.leb_spec n 1); destruct (Z.ltb_spec 1 current);
      simpl; lia.
Qed.

Lemma C1_next_difficulty_rule_witness :
  exists older a b c,
    [1; 0; 1; 0; 1] = older ++ [a; b; c] /\
    slice_last 3 [1; 0; 1; 0; 1] = [a; b; c] /\
    py_sum (slice_last 3 [1; 0; 1; 0; 1]) = a + b + c /\
    forall older', calculate_adaptive_difficulty (older' ++ [a; b; c]) 2
                   = calculate_adaptive_difficulty [1; 0; 1; 0; 1] 2.
Proof.
  refine (proj1 (C1_next_difficulty_rule [1; 0; 1; 0; 1] 2 _ _ _)).
  - simpl. lia.
  - repeat constructor; unfold is_bit; lia.
  - simpl. lia.
Defined.

(** C2.  On a window of correctness bits shorter than 3 the controller
    returns the current difficulty unchanged. *)
Theorem C2_short_window_holds (window : list Z) (current : Z) :
  (length window < 3)%nat ->
  Forall is_bit window ->
  In current [1; 2; 3] ->
  calculate_adaptive_difficulty window current = current.
Proof.
  intros Hlen _ _. unfold calculate_adaptive_difficulty.
  destruct (Z.ltb_spec (Z.of_nat (length window)) 3); [reflexivity|lia].
Qed.

Lemma C2_short_window_holds_witness :
  calculate_adaptive_difficulty [1; 1] 2 = 2.
Proof.
  apply (C2_short_window_holds [1; 1] 2).
  - simpl. lia.
  - repeat constructor; unfold is_bit; lia.
  - simpl. lia.
Defined.

(** C3.  From a difficulty among 1, 2, 3 the controller returns a difficulty
    in [1,3] on every window, whatever its length and contents; hence any
    sequence of updates, each after appending arbitrary entries to the
    window, ends in [1,3]. *)
Theorem C3_difficulty_stays_in_range (window : list Z) (current : Z) :
  In current [1; 2; 3] ->
  1 <= calculate_adaptive_difficulty window current <= 3 /\
  forall batches : list (list Z), 1 <= replay window current batches <= 3.
Proof.
  intros Hin.
  assert (Hc : is_level current) by (unfold is_level; simpl in Hin; lia).
  split; [exact (calculate_adaptive_difficulty_level window current Hc)|].
  intros batches. clear Hin. revert window current Hc.
  induction batches as [|batch rest IH]; intros window current Hc; simpl.
  - exact Hc.
  - apply IH. apply calculate_adaptive_difficulty_level. exact Hc.
Qed.

Lemma C3_difficulty_stays_in_range_witness :
  1 <= calculate_adaptive_difficulty [1; 1; 1] 3 <= 3 /\
  forall batches : list (list Z), 1 <= replay [1; 1; 1] 3 batches <= 3.
Proof.
  apply (C3_difficulty_stays_in_range [1; 1; 1] 3). simpl. lia.
Defined.

(** ** Facts about Python values *)

Lemma str_eqb_eq (a b : str) : str_eqb a b = true <-> a = b.
Proof.
  revert b. induction a as [|x a IH]; intros [|y b]; simpl;
    try (split; [discriminate|discriminate]); [tauto|].
  rewrite andb_true_iff, N.eqb_eq, IH.
  split; [intros [-> ->]; reflexivity|intros [= -> ->]; auto].
Qed.

Lemma str_eqb_refl (a : str) : str_eqb a a = true.
Proof. apply str_eqb_eq. reflexivity. Qed.

Lemma py_same_str (s : str) (v : pyval) :
  py_same (PStr s) v = true <-> v = PStr s.
Proof.
  destruct v; simpl; try (split; [discriminate|discriminate]).
  rewrite str_eqb_eq. split; [intros ->; reflexivity|intros [= ->]; reflexivity].
Qed.

Lemma py_eq_str (s : str) (v : pyval) : py_eq (PStr s) v = true <-> v = PStr s.
Proof. exact (py_same_str s v). Qed.

Lemma py_in_str (s : str) (l : list pyval) :
  py_in (PStr s) l = true <-> In (PStr s) l.
Proof.
  unfold py_in. rewrite existsb_exists. split.
  - intros [y [Hy E]]. apply py_same_str in E. subst. exact Hy.
  - intros H. exists (PStr s). split; [exact H|]. apply py_same_str. reflexivity.
Qed.

(** ** Weak topics *)

Lemma get_weak_topics_snoc (h : list pydict) (q : pydict) :
  get_weak_topics (h ++ [q]) = weak_topics_step (get_weak_topics h) q.
Proof. unfold get_weak_topics. rewrite fold_left_app. reflexivity. Qed.

Lemma incorrect_at_lt h i t : incorrect_at h i t -> (i < length h)%nat.
Proof.
  intros [q [Hq _]]. apply nth_error_Some. congruence.
Qed.

Lemma incorrect_at_snoc h q i t :
  incorrect_at (h ++ [q]) i t <->
  incorrect_at h i t \/
  (i = length h /\ dict_get q (lit "is_correct") = Some (PBool false) /\
   dict_get q (lit "topic") = Some t).
Proof.
  unfold incorrect_at. split.
  - intros [q' [Hn [Hc Ht]]].
    destruct (Nat.lt_ge_cases i (length h)) as [Hi|Hi].
    + left. exists q'. rewrite nth_error_app1 in Hn by exact Hi. auto.
    + right. rewrite nth_error_app2 in Hn by exact Hi.
      destruct (i - length h)%nat as [|k] eqn:Ek; simpl in Hn.
      * injection Hn as <-. split; [lia|auto].
      * destruct k; discriminate Hn.
  - intros [[q' [Hn H]]|[-> H]].
    + exists q'. split; [|exact H].
      rewrite nth_error_app1; [exact Hn|].
      apply nth_error_Some. congruence.
    + exists q. split; [|exact H].
      rewrite nth_error_app2, Nat.sub_diag by lia. reflexivity.
Qed.

Lemma first_incorrect_at_snoc h q i t :
  first_incorrect_at h i t -> first_incorrect_at (h ++ [q]) i t.
Proof.
  intros [Hi Hfirst]. split.
  - apply incorrect_at_snoc. left. exact Hi.
  - intros k Hk Hinc. apply incorrect_at_snoc in Hinc.
    destruct Hinc as [Hinc|[-> _]].
    + exact (Hfirst k Hk Hinc).
    + apply incorrect_at_lt in Hi. lia.
Qed.

Lemma first_incorrect_at_unique h i j t :
  first_incorrect_at h i t -> first_incorrect_at h j t -> i = j.
Proof.
  intros [Hi Fi] [Hj Fj].
  destruct (Nat.lt_trichotomy i j) as [L|[E|L]]; [|exact E|].
  - exfalso. exact (Fj i L Hi).
  - exfalso. exact (Fi j L Hj).
Qed.

Lemma first_positions_snoc h q idx r :
  first_positions h idx r -> first_positions (h ++ [q]) idx r.
Proof.
  induction 1 as [|idx r i t _ IH Hf Hlt]; constructor; auto.
  apply first_incorrect_at_snoc. exact Hf.
Qed.

Lemma first_positions_bound h idx r :
  first_positions h idx r -> Forall (fun k => (k < length h)%nat) idx.
Proof.
  induction 1 as [|idx r i t _ IH [Hf _] Hlt]; [constructor|].
  apply Forall_app. split; [exact IH|].
  constructor; [|constructor]. exact (incorrect_at_lt _ _ _ Hf).
Qed.

Lemma first_positions_length h idx r :
  first_positions h idx r -> length idx = length r.
Proof.
  induction 1; [reflexivity|]. rewrite !length_app. simpl. lia.
Qed.

Lemma first_positions_nth h idx r :
  first_positions h idx r ->
  forall n t, nth_error r n = Some t ->
  exists i, nth_error idx n = Some i /\ first_incorrect_at h i t.
Proof.
  induction 1 as [|idx r i t Hfp IH Hf Hlt]; intros n t' Hn.
  - destruct n; discriminate Hn.
  - pose proof (first_positions_length _ _ _ Hfp) as Hlen.
    destruct (Nat.lt_ge_cases n (length r)) as [L|G].
    + rewrite nth_error_app1 in Hn by exact L.
      destruct (IH n t' Hn) as [i' [Hi' Hf']].
      exists i'. split; [|exact Hf'].
      rewrite nth_error_app1 by lia. exact Hi'.
    + rewrite nth_error_app2 in Hn by exact G.
      destruct (n - length r)%nat as [|m] eqn:Em; simpl in Hn;
        [|destruct m; discriminate Hn].
      injection Hn as <-. exists i. split; [|exact Hf].
      rewrite nth_error_app2 by lia.
      replace (n - length idx)%nat with 0%nat by lia. reflexivity.
Qed.

Lemma first_positions_increasing h idx r :
  first_positions h idx r ->
  forall m n a b, nth_error idx m = Some a -> nth_error idx n = Some b ->
  (m < n)%nat -> (a < b)%nat.
Proof.
  induction 1 as [|idx r i t Hfp IH Hf Hlt]; intros m n a b Hm Hn Hmn.
  - destruct m; discriminate Hm.
  - assert (Hnl : (n < length (idx ++ [i]))%nat)
      by (apply nth_error_Some; congruence).
    rewrite length_app in Hnl. simpl in Hnl.
    rewrite nth_error_app1 in Hm by lia.
    destruct (Nat.lt_ge_cases n (length idx)) as [L|G].
    + rewrite nth_error_app1 in Hn by exact L. eauto.
    + rewrite nth_error_app2 in Hn by exact G.
      replace (n - length idx)%nat with 0%nat in Hn by lia.
      injection Hn as <-.
      rewrite Forall_forall in Hlt. apply Hlt.
      eapply nth_error_In. exact Hm.
Qed.

(** What the loop of [get_weak_topics] maintains on labelled entries. *)
Lemma get_weak_topics_positions (h : list pydict) :
  Forall entry_has_label h ->
  (forall t i, incorrect_at h i t -> In t (get_weak_topics h)) /\
  exists idx, first_positions h idx (get_weak_topics h).
Proof.
  induction h as [|q h IH] using rev_ind; intros Hwf.
  - split; [|exists []; constructor].
    intros t i Hi. apply incorrect_at_lt in Hi. simpl in Hi. lia.
  - apply Forall_app in Hwf. destruct Hwf as [Hh Hq].
    apply Forall_inv in Hq. destruct Hq as [[t0 Ht0] [b Hb]].
    destruct (IH Hh) as [Hall [idx Hfp]]. clear IH.
    rewrite get_weak_topics_snoc. unfold weak_topics_step, dict_get_or.
    rewrite Hb, Ht0. simpl py_truthy.
    destruct b; simpl negb.
    + split; [|exists idx; apply first_positions_snoc; exact Hfp].
      intros t i Hi. apply incorrect_at_snoc in Hi.
      destruct Hi as [Hi|[_ [Hc _]]]; [eauto|congruence].
    + destruct (py_in (PStr t0) (get_weak_topics h)) eqn:Ein; simpl negb.
      * apply py_in_str in Ein.
        split; [|exists idx; apply first_positions_snoc; exact Hfp].
        intros t i Hi. apply incorrect_at_snoc in Hi.
        destruct Hi as [Hi|[_ [_ Ht]]]; [eauto|congruence].
      * assert (Hnot : ~ In (PStr t0) (get_weak_topics h)).
        { intros Hin. apply py_in_str in Hin. congruence. }
        split.
        -- intros t i Hi. apply in_or_app. apply incorrect_at_snoc in Hi.
           destruct Hi as [Hi|[_ [_ Ht]]]; [left; eauto|].
           right. left. congruence.
        -- exists (idx ++ [length h]). constructor.
           ++ apply first_positions_snoc. exact Hfp.
           ++ split.
              ** apply incorrect_at_snoc. right. auto.
              ** intros k Hk Hinc. apply incorrect_at_snoc in Hinc.
                 destruct Hinc as [Hinc|[-> _]]; [|lia].
                 apply Hnot. eauto.
           ++ exact (first_positions_bound _ _ _ Hfp).
Qed.

(** C6.  On a history of entries with a topic label and a correctness
    boolean, [get_weak_topics] returns exactly the topics of the entries
    answered incorrectly, each once, in the order in which their first
    incorrect entries occur; on the history (T1, correct), (T2, incorrect),
    (T1, incorrect), (T3, incorrect) it returns T2, T1, T3. *)
Theorem C6_weak_topics_first_incorrect_order (history : list pydict) :
  Forall entry_has_label history ->
  let result := get_weak_topics history in
  NoDup result /\
  (forall topic, In topic result <-> exists i, incorrect_at history i topic) /\
  (forall m n tm tn,
     nth_error result m = Some tm -> nth_error result n = Some tn ->
     (m < n)%nat ->
     exists a b, first_incorrect_at history a tm /\
                 first_incorrect_at history b tn /\ (a < b)%nat) /\
  get_weak_topics example_history
    = [PStr (lit "T2"); PStr (lit "T1"); PStr (lit "T3")].
Proof.
  intros Hwf result.
  destruct (get_weak_topics_positions history Hwf) as [Hall [idx Hfp]].
  fold result in Hall, Hfp.
  assert (Horder : forall m n tm tn,
     nth_error result m = Some tm -> nth_error result n = Some tn ->
     (m < n)%nat ->
     exists a b, first_incorrect_at history a tm /\
                 first_incorrect_at history b tn /\ (a < b)%nat).
  { intros m n tm tn Hm Hn Hmn.
    destruct (first_positions_nth _ _ _ Hfp m tm Hm) as [a [Ha Fa]].
    destruct (first_positions_nth _ _ _ Hfp n tn Hn) as [b [Hb Fb]].
    exists a, b. repeat split; try assumption; try apply Fa; try apply Fb.
    exact (first_positions_increasing _ _ _ Hfp m n a b Ha Hb Hmn). }
  split; [|split; [|split; [exact Horder|reflexivity]]].
  - apply (proj2 (NoDup_nth_error result)). intros m n Hm E.
    destruct (nth_error result m) as [t|] eqn:Em;
      [|apply nth_error_Some in Hm; congruence].
    symmetry in E.
    destruct (Nat.lt_trichotomy m n) as [L|[E'|L]]; [|exact E'|]; exfalso.
    + destruct (Horder m n t t Em E L) as [a [b [Fa [Fb Hab]]]].
      pose proof (first_incorrect_at_unique _ _ _ _ Fa Fb). lia.
    + destruct (Horder n m t t E Em L) as [a [b [Fa [Fb Hab]]]].
      pose proof (first_incorrect_at_unique _ _ _ _ Fa Fb). lia.
  - intros topic. split.
    + intros Hin. apply In_nth_error in Hin. destruct Hin as [n Hn].
      destruct (first_positions_nth _ _ _ Hfp n topic Hn) as [a [_ [Fa _]]].
      exists a. exact Fa.
    + intros [i Hi]. exact (Hall topic i Hi).
Qed.

Lemma C6_weak_topics_first_incorrect_order_witness :
  NoDup (get_weak_topics example_history).
Proof.
  refine (proj1 (C6_weak_topics_first_incorrect_order example_history _)).
  repeat constructor; simpl; eauto.
Defined.

(** ** The regular expression matcher, equation by equation *)

Section ReRun.
Context {R : Type}.
Implicit Types (s : str) (g : option str) (k : str -> option str -> option R).

Lemma re_run_chars l s g k :
  re_run (Chars l) s g k =
  match strip_prefix l s with Some s' => k s' g | None => None end.
Proof. reflexivity. Qed.

Lemma re_run_opt r s g k :
  re_run (Opt r) s g k =
  match re_run r s g k with Some x => Some x | None => k s g end.
Proof. reflexivity. Qed.

Lemma re_run_cat r1 r2 s g k :
  re_run (Cat r1 r2) s g k = re_run r1 s g (fun s' g' => re_run r2 s' g' k).
Proof. reflexivity. Qed.

Lemma re_run_group r s g k :
  re_run (Group r) s g k =
  re_run r s g (fun s' _ => k s' (Some (firstn (length s - length s') s))).
Proof. reflexivity. Qed.

Lemma re_run_greedy cls s g k :
  re_run (StarGreedy cls) s g k =
  match s with
  | c :: s' =>
      if cls c
      then match re_run (StarGreedy cls) s' g k with
           | Some x => Some x
           | None => k s g
           end
      else k s g
  | [] => k s g
  end.
Proof. destruct s; reflexivity. Qed.

Lemma re_run_lazy cls s g k :
  re_run (StarLazy cls) s g k =
  match k s g with
  | Some x => Some x
  | None =>
      match s with
      | c :: s' => if cls c then re_run (StarLazy cls) s' g k else None
      | [] => None
      end
  end.
Proof. destruct s; reflexivity. Qed.
End ReRun.

Lemma any_char_true (c : N) : any_char c = true.
Proof. unfold any_char. destruct (is_space c); reflexivity. Qed.

Lemma space_not_backtick (c : N) : is_space c = true -> N.eqb 96 c = false.
Proof.
  intros H. destruct (N.eqb_spec 96 c) as [<-|]; [discriminate H|reflexivity].
Qed.

(** ** The brace pattern *)

Lemma last_index_lt (c : N) (s : str) (j : nat) :
  last_index c s = Some j -> (j < length s)%nat.
Proof.
  revert j. induction s as [|x s IH]; intros j; simpl; [discriminate|].
  destruct (last_index c s) as [i|].
  - intros [= <-]. specialize (IH i eq_refl). lia.
  - destruct (N.eqb x c); [intros [= <-]; lia|discriminate].
Qed.

Lemma last_index_none_tail (c x : N) (s : str) :
  last_index c (x :: s) = None -> last_index c s = None.
Proof. simpl. destruct (last_index c s); [discriminate|reflexivity]. Qed.

(** After the opening brace the greedy star backs up to the last closing
    brace. *)
Lemma greedy_any_to_last_brace {R} (F : str -> option str -> R)
  (t : str) (g : option str) :
  re_run (Cat (StarGreedy any_char) (Chars (lit "}"))) t g
    (fun r g' => Some (F r g')) =
  match last_index 125 t with
  | Some j => Some (F (skipn (S j) t) g)
  | None => None
  end.
Proof.
  rewrite re_run_cat.
  induction t as [|c t IH]; rewrite re_run_greedy; [reflexivity|].
  rewrite any_char_true, IH. cbn [last_index].
  destruct (last_index 125 t) as [j|]; [reflexivity|].
  rewrite re_run_chars. cbn [strip_prefix lit map list_ascii_of_string].
  change (N_of_ascii "}") with 125%N.
  rewrite N.eqb_sym. destruct (N.eqb c 125); reflexivity.
Qed.

Lemma brace_match_at (s : str) :
  re_match_at brace_re s =
  match s with
  | c :: t =>
      if N.eqb 123 c then
        match last_index 125 t with
        | Some j => Some (mk_match (firstn (j + 2) s) None)
        | None => None
        end
      else None
  | [] => None
  end.
Proof.
  unfold re_match_at, brace_re. rewrite re_run_cat, re_run_chars.
  destruct s as [|c t]; [reflexivity|].
  cbn [strip_prefix lit map list_ascii_of_string].
  change (N_of_ascii "{") with 123%N.
  destruct (N.eqb 123 c); [|reflexivity].
  rewrite (greedy_any_to_last_brace
             (fun r g => mk_match (firstn (length (c :: t) - length r) (c :: t)) g)).
  destruct (last_index 125 t) as [j|] eqn:Ej; [|reflexivity].
  apply last_index_lt in Ej. rewrite length_skipn.
  do 3 f_equal. simpl length. lia.
Qed.

Lemma brace_search_none (s : str) :
  last_index 125 s = None -> re_search brace_re s = None.
Proof.
  induction s as [|c t IH]; intros H.
  - reflexivity.
  - pose proof (last_index_none_tail _ _ _ H) as Ht.
    cbn [re_search]. rewrite brace_match_at, Ht.
    destruct (N.eqb 123 c); auto.
Qed.

Lemma str_find_brace_cons (c : N) (t : str) :
  str_find (lit "{") (c :: t) =
  if N.eqb 123 c then Some 0%nat else option_map S (str_find (lit "{") t).
Proof.
  cbn [str_find strip_prefix lit map list_ascii_of_string].
  change (N_of_ascii "{") with 123%N.
  destruct (N.eqb 123 c); reflexivity.
Qed.

(** [re.search] with the brace pattern finds the text from the first
    opening brace through the last closing brace. *)
Lemma brace_search (text : str) :
  option_map group0 (re_search brace_re text) = brace_span text.
Proof.
  unfold brace_span.
  induction text as [|c t IH].
  - reflexivity.
  - cbn [re_search]. rewrite brace_match_at, str_find_brace_cons.
    destruct (N.eqb 123 c).
    + cbn [skipn]. destruct (last_index 125 t) as [j|] eqn:Ej; [reflexivity|].
      rewrite (brace_search_none t Ej). reflexivity.
    + rewrite IH. destruct (str_find (lit "{") t) as [i|]; reflexivity.
Qed.

(** ** The fence pattern *)

Lemma strip_backticks_cons (c : N) (s : str) :
  N.eqb 96 c = false -> strip_prefix backticks (c :: s) = None.
Proof.
  intros H. change backticks with [96; 96; 96]%N.
  cbn [strip_prefix]. rewrite H. reflexivity.
Qed.

Lemma str_find_backticks_skip (c : N) (s : str) :
  N.eqb 96 c = false ->
  str_find backticks (c :: s) = option_map S (str_find backticks s).
Proof.
  intros H. cbn [str_find]. rewrite strip_backticks_cons by exact H. reflexivity.
Qed.

Lemma strip_prefix_skipn (l s r : str) :
  strip_prefix l s = Some r -> skipn (length l) s = r.
Proof.
  revert s. induction l as [|x l IH]; intros s; simpl.
  - intros [= <-]. reflexivity.
  - destruct s as [|y s]; [discriminate|].
    destruct (N.eqb x y); [apply IH|discriminate].
Qed.

Lemma strip_lstrip_none (s : str) :
  strip_prefix backticks (lstrip s) = None -> strip_prefix backticks s = None.
Proof.
  destruct s as [|c s]; [auto|]. cbn [lstrip].
  destruct (is_space c) eqn:E; [|auto].
  intros _. apply strip_backticks_cons, space_not_backtick, E.
Qed.

(** White space, then the closing fence: the greedy star takes all the
    white space, and giving some back cannot help. *)
Lemma closing_run {R} (k : str -> option str -> option R) (t : str)
  (g : option str) :
  re_run (Cat (StarGreedy is_space) (Chars backticks)) t g k =
  match strip_prefix backticks (lstrip t) with
  | Some r => k r g
  | None => None
  end.
Proof.
  rewrite re_run_cat.
  induction t as [|c t IH]; rewrite re_run_greedy; [reflexivity|].
  cbn [lstrip]. destruct (is_space c) eqn:E; [|reflexivity].
  rewrite IH, re_run_chars.
  rewrite (strip_backticks_cons c t (space_not_backtick c E)).
  destruct (strip_prefix backticks (lstrip t)) as [r|]; [|reflexivity].
  destruct (k r g); reflexivity.
Qed.

(** The lazy group followed by the closing: it stops at the first place
    from which white space and a fence follow. *)
Lemma lazy_then_close {R} (F : str -> option str -> R)
  (whole pre u : str) (g : option str) :
  whole = pre ++ u ->
  re_run (StarLazy any_char) u g
    (fun s' _ =>
       re_run (Cat (StarGreedy is_space) (Chars backticks)) s'
         (Some (firstn (length whole - length s') whole))
         (fun r g' => Some (F r g'))) =
  match body_to_fence u with
  | Some (body, r) => Some (F r (Some (pre ++ body)))
  | None => None
  end.
Proof.
  revert pre. induction u as [|c u IH]; intros pre Hw;
    rewrite re_run_lazy, closing_run; cbn [body_to_fence].
  - reflexivity.
  - destruct (strip_prefix backticks (lstrip (c :: u))) as [r|].
    + do 3 f_equal. subst whole. rewrite length_app.
      replace (length pre + length (c :: u) - length (c :: u))%nat
        with (length pre + 0)%nat by lia.
      rewrite firstn_app_2. simpl. reflexivity.
    + rewrite any_char_true.
      rewrite (IH (pre ++ [c])) by (rewrite <- app_assoc; exact Hw).
      destruct (body_to_fence u) as [[body r]|]; [|reflexivity].
      rewrite <- app_assoc. reflexivity.
Qed.

Lemma group_then_close {R} (F : str -> option str -> R) (u : str)
  (g : option str) :
  re_run (Cat (Group (StarLazy any_char))
            (Cat (StarGreedy is_space) (Chars backticks))) u g
    (fun r g' => Some (F r g')) =
  match body_to_fence u with
  | Some (body, r) => Some (F r (Some body))
  | None => None
  end.
Proof. exact (lazy_then_close F u [] u g eq_refl). Qed.

(** *** From the matcher's stopping place to the specification's words *)

Lemma lstrip_fence_found (s r : str) :
  strip_prefix backticks (lstrip s) = Some r ->
  exists j, str_find backticks s = Some j /\ rstrip (firstn j s) = [].
Proof.
  induction s as [|x s IH]; cbn [lstrip]; [discriminate|].
  destruct (is_space x) eqn:E.
  - intros H. destruct (IH H) as [j [Hj Hr]]. exists (S j).
    rewrite str_find_backticks_skip by (apply space_not_backtick, E).
    rewrite Hj. split; [reflexivity|].
    cbn [firstn rstrip]. rewrite Hr, E. reflexivity.
  - intros H. exists 0%nat. cbn [str_find]. rewrite H. auto.
Qed.

Lemma fence_after_spaces (s : str) (j : nat) :
  str_find backticks s = Some j -> rstrip (firstn j s) = [] ->
  strip_prefix backticks (lstrip s) <> None.
Proof.
  revert j. induction s as [|x s IH]; intros j; cbn [str_find lstrip].
  - cbn. discriminate.
  - destruct (strip_prefix backticks (x :: s)) as [r|] eqn:Ex.
    + intros _ _. destruct (is_space x) eqn:E; [|congruence].
      rewrite strip_backticks_cons in Ex by (apply space_not_backtick, E).
      discriminate Ex.
    + destruct (str_find backticks s) as [j'|] eqn:Ej; [|discriminate].
      intros [= <-]. cbn [firstn rstrip].
      destruct (rstrip (firstn j' s)) eqn:Er; [|discriminate].
      destruct (is_space x); [|discriminate].
      intros _. eapply IH; eauto.
Qed.

Lemma body_to_fence_find (u : str) :
  option_map fst (body_to_fence u) =
  match str_find backticks u with
  | Some j => Some (rstrip (firstn j u))
  | None => None
  end.
Proof.
  induction u as [|c u IH]; [reflexivity|].
  cbn [body_to_fence].
  destruct (strip_prefix backticks (lstrip (c :: u))) as [r|] eqn:Ec.
  - destruct (lstrip_fence_found _ _ Ec) as [j [-> ->]]. reflexivity.
  - pose proof (strip_lstrip_none _ Ec) as Ec'.
    cbn [str_find]. rewrite Ec'.
    destruct (str_find backticks u) as [j|] eqn:Ej.
    + destruct (body_to_fence u) as [[body r]|]; [|discriminate IH].
      injection IH as ->. cbn [option_map fst firstn rstrip].
      destruct (rstrip (firstn j u)) eqn:Er; [|reflexivity].
      destruct (is_space c) eqn:E; [|reflexivity].
      exfalso. cbn [lstrip] in Ec. rewrite E in Ec.
      exact (fence_after_spaces u j Ej Er Ec).
    + destruct (body_to_fence u) as [[body r]|]; [discriminate IH|reflexivity].
Qed.

Lemma body_to_fence_none (u : str) :
  body_to_fence u = None <-> str_find backticks u = None.
Proof.
  pose proof (body_to_fence_find u) as H.
  destruct (body_to_fence u), (str_find backticks u); simpl in H;
    split; congruence.
Qed.

Lemma str_find_lstrip_none (s : str) :
  str_find backticks (lstrip s) = None -> str_find backticks s = None.
Proof.
  induction s as [|c s IH]; [auto|]. cbn [lstrip].
  destruct (is_space c) eqn:E; [|auto].
  intros H. rewrite str_find_backticks_skip by (apply space_not_backtick, E).
  rewrite (IH H). reflexivity.
Qed.

Lemma str_find_skipn_none (s : str) (n : nat) :
  str_find backticks s = None -> str_find backticks (skipn n s) = None.
Proof.
  revert s. induction n as [|n IH]; intros s H; [exact H|].
  destruct s as [|c s]; [reflexivity|]. cbn [skipn]. apply IH.
  cbn [str_find] in H.
  destruct (strip_prefix backticks (c :: s)); [discriminate|].
  destruct (str_find backticks s); [discriminate|reflexivity].
Qed.

Lemma str_find_untag_none (after rest : str) :
  strip_prefix (lit "json") after = Some rest ->
  str_find backticks rest = None -> str_find backticks after = None.
Proof.
  change (lit "json") with [106; 115; 111; 110]%N. intros Hs Hr.
  destruct after as [|a [|b [|c [|d r]]]]; cbn [strip_prefix] in Hs;
    repeat match type of Hs with
           | (if ?e then _ else _) = _ => destruct e eqn:?; try discriminate Hs
           end; try discriminate Hs.
  injection Hs as ->.
  repeat match goal with H : N.eqb _ _ = true |- _ =>
    apply N.eqb_eq in H; subst end.
  rewrite !str_find_backticks_skip by reflexivity. rewrite Hr. reflexivity.
Qed.

(** *** The pattern as a whole *)

Lemma fence_tail_run {R} (F : str -> option str -> R) (u : str)
  (g : option str) :
  re_run fence_tail u g (fun r g' => Some (F r g')) =
  match body_to_fence (lstrip u) with
  | Some (body, r) => Some (F r (Some body))
  | None => None
  end.
Proof.
  unfold fence_tail. rewrite re_run_cat.
  induction u as [|c u IH]; rewrite re_run_greedy.
  - apply group_then_close.
  - cbn [lstrip]. destruct (is_space c) eqn:E; [|apply group_then_close].
    rewrite IH. destruct (body_to_fence (lstrip u)) as [[body r]|] eqn:Eb;
      [reflexivity|].
    rewrite group_then_close.
    assert (Hn : body_to_fence (c :: u) = None).
    { apply body_to_fence_none.
      rewrite str_find_backticks_skip by (apply space_not_backtick, E).
      apply body_to_fence_none in Eb.
      rewrite (str_find_lstrip_none u Eb). reflexivity. }
    rewrite Hn. reflexivity.
Qed.

Lemma block_interior_body (after : str) :
  block_interior after =
  option_map fst
    (body_to_fence
       (lstrip match strip_prefix (lit "json") after with
               | Some rest => rest
               | None => after
               end)).
Proof. unfold block_interior. rewrite body_to_fence_find. reflexivity. Qed.

Lemma block_interior_none (after : str) :
  block_interior after = None -> str_find backticks after = None.
Proof.
  unfold block_interior.
  destruct (strip_prefix (lit "json") after) as [rest|] eqn:Et;
    match goal with
    | |- context [str_find backticks (lstrip ?u)] =>
        destruct (str_find backticks (lstrip u)) eqn:Eb; [discriminate|]
    end; intros _; apply str_find_lstrip_none in Eb.
  - exact (str_find_untag_none _ _ Et Eb).
  - exact Eb.
Qed.

Lemma fence_match_at (t : str) :
  option_map group1 (re_match_at fence_re t) =
  match strip_prefix backticks t with
  | Some after => option_map Some (block_interior after)
  | None => None
  end.
Proof.
  unfold re_match_at, fence_re. rewrite re_run_cat, re_run_chars.
  destruct (strip_prefix backticks t) as [after|]; [|reflexivity].
  rewrite re_run_cat, re_run_opt, re_run_chars.
  fold fence_tail. rewrite block_interior_body.
  destruct (strip_prefix (lit "json") after) as [rest|] eqn:Et.
  - rewrite fence_tail_run.
    destruct (body_to_fence (lstrip rest)) as [[body r]|] eqn:Eb;
      [reflexivity|].
    rewrite fence_tail_run.
    assert (Hn : body_to_fence (lstrip after) = None).
    { apply body_to_fence_none. apply body_to_fence_none in Eb.
      apply str_find_lstrip_none in Eb.
      pose proof (str_find_untag_none _ _ Et Eb) as Ha.
      clear - Ha. induction after as [|c s IH]; [reflexivity|].
      cbn [lstrip]. destruct (is_space c) eqn:E; [|exact Ha].
      apply IH. rewrite str_find_backticks_skip in Ha
        by (apply space_not_backtick, E).
      destruct (str_find backticks s); [discriminate|reflexivity]. }
    rewrite Hn. reflexivity.
  - rewrite fence_tail_run.
    destruct (body_to_fence (lstrip after)) as [[body r]|]; reflexivity.
Qed.

Lemma fence_search_none (t : str) :
  (forall n, re_match_at fence_re (skipn n t) = None) ->
  re_search fence_re t = None.
Proof.
  induction t as [|c t IH]; intros H; cbn [re_search];
    pose proof (H 0%nat) as H0; cbn [skipn] in H0; rewrite H0.
  - reflexivity.
  - apply IH. intros n. exact (H (S n)).
Qed.

Lemma fence_match_needs_close (s : str) :
  re_match_at fence_re s <> None ->
  exists after, strip_prefix backticks s = Some after /\
                str_find backticks after <> None.
Proof.
  intros H. pose proof (fence_match_at s) as E.
  destruct (strip_prefix backticks s) as [after|].
  - exists after. split; [reflexivity|]. intros Hn.
    destruct (block_interior after) eqn:Eb.
    + unfold block_interior in Eb.
      assert (Hb : forall u, str_find backticks after = None ->
                (u = after \/ strip_prefix (lit "json") after = Some u) ->
                str_find backticks (lstrip u) = None).
      { intros u Ha Hu.
        assert (Hu' : str_find backticks u = None).
        { destruct Hu as [->|Hu]; [exact Ha|].
          apply strip_prefix_skipn in Hu. rewrite <- Hu.
          apply str_find_skipn_none. exact Ha. }
        clear - Hu'. induction u as [|c u IH]; [reflexivity|].
        cbn [lstrip]. destruct (is_space c) eqn:E; [|exact Hu'].
        apply IH. rewrite str_find_backticks_skip in Hu'
          by (apply space_not_backtick, E).
        destruct (str_find backticks u); [discriminate|reflexivity]. }
      destruct (strip_prefix (lit "json") after) as [rest|] eqn:Et.
      * rewrite (Hb rest Hn (or_intror eq_refl)) in Eb. discriminate.
      * rewrite (Hb after Hn (or_introl eq_refl)) in Eb. discriminate.
    + destruct (re_match_at fence_re s); [discriminate E|congruence].
  - destruct (re_match_at fence_re s); [discriminate E|congruence].
Qed.

(** [re.search] with the fence pattern captures the interior of the first
    fenced block. *)
Lemma fence_search (text : str) :
  option_map group1 (re_search fence_re text) =
  option_map Some (fenced_interior text).
Proof.
  unfold fenced_interior.
  induction text as [|c t IH]; [reflexivity|].
  cbn [re_search str_find].
  pose proof (fence_match_at (c :: t)) as Hm.
  destruct (strip_prefix backticks (c :: t)) as [after|] eqn:Es.
  - pose proof (strip_prefix_skipn _ _ _ Es) as Hs.
    change (length backticks) with 3%nat in Hs. subst after.
    change (0 + 3)%nat with 3%nat.
    destruct (re_match_at fence_re (c :: t)) as [m|]; [exact Hm|].
    destruct (block_interior (skipn 3 (c :: t))) eqn:Eb; [discriminate Hm|].
    apply block_interior_none in Eb.
    rewrite fence_search_none; [reflexivity|].
    intros n. destruct (re_match_at fence_re (skipn n t)) eqn:En;
      [|reflexivity].
    exfalso.
    destruct (fence_match_needs_close (skipn n t)) as [a [Ha Hf]];
      [congruence|].
    apply Hf. apply strip_prefix_skipn in Ha.
    change (length backticks) with 3%nat in Ha. subst a.
    rewrite skipn_skipn.
    replace (3 + n)%nat with (S n + 2)%nat by lia.
    rewrite <- skipn_skipn. apply str_find_skipn_none. exact Eb.
  - destruct (re_match_at fence_re (c :: t)); [discriminate Hm|].
    rewrite IH. destruct (str_find backticks t) as [i|]; reflexivity.
Qed.

(** ** Recovering JSON: the chain of attempts *)

Section Recovery.
Context `{PythonRuntime}.

Lemma second_attempt (raw : str) :
  match re_search fence_re raw with
  | Some json_match => try_loads (group1 json_match)
  | None => None
  end =
  match attempt (fenced_interior raw) with
  | Decoded v => Some (Ok v)
  | DecodeError => None
  | Raised e => Some (Err e)
  end.
Proof.
  pose proof (fence_search raw) as E.
  destruct (re_search fence_re raw) as [m|], (fenced_interior raw) as [t|];
    try discriminate E; [|reflexivity].
  injection E as ->. reflexivity.
Qed.

Lemma third_attempt (raw : str) :
  match re_search brace_re raw with
  | Some json_match => try_loads (Some (group0 json_match))
  | None => None
  end =
  match attempt (brace_span raw) with
  | Decoded v => Some (Ok v)
  | DecodeError => None
  | Raised e => Some (Err e)
  end.
Proof.
  pose proof (brace_search raw) as E.
  destruct (re_search brace_re raw) as [m|], (brace_span raw) as [t|];
    try discriminate E; [|reflexivity].
  injection E as <-. reflexivity.
Qed.

(** The function comes to the first attempt that does not fail with a
    [JSONDecodeError]: its value or its exception; or to the [ValueError]
    when all three fail so. *)
Lemma parse_json_response_attempts (raw : str) :
  _parse_json_response raw =
  match first_outcome (parse_attempts raw) with
  | Decoded v => Ok v
  | DecodeError => Err parse_failure
  | Raised e => Err e
  end.
Proof.
  unfold _parse_json_response, parse_attempts.
  rewrite second_attempt, third_attempt. cbn [first_outcome attempt].
  destruct (json_loads raw); try reflexivity.
  destruct (attempt (fenced_interior raw)); try reflexivity.
  destruct (attempt (brace_span raw)); reflexivity.
Qed.

Lemma first_outcome_nth (attempts : list decoded) (i : nat) (a : decoded) :
  a <> DecodeError ->
  nth_error attempts i = Some a ->
  (forall j, (j < i)%nat -> nth_error attempts j = Some DecodeError) ->
  first_outcome attempts = a.
Proof.
  intros Ha. revert i. induction attempts as [|b l IH]; intros i Hi Hlt.
  - destruct i; discriminate Hi.
  - destruct i as [|i]; simpl in Hi.
    + injection Hi as ->. destruct a; [reflexivity|contradiction|reflexivity].
    + pose proof (Hlt 0%nat (Nat.lt_0_succ i)) as H0. simpl in H0.
      injection H0 as ->. simpl. apply (IH i Hi).
      intros j Hj. exact (Hlt (S j) (proj1 (Nat.succ_lt_mono j i) Hj)).
Qed.

Lemma first_outcome_none (attempts : list decoded) :
  (forall a, In a attempts -> a = DecodeError) ->
  first_outcome attempts = DecodeError.
Proof.
  induction attempts as [|a l IH]; intros Hall; [reflexivity|].
  rewrite (Hall a (or_introl eq_refl)). simpl.
  apply IH. intros b Hb. apply Hall. right. exact Hb.
Qed.

(** C7, as the code has it.  [_parse_json_response] makes three attempts
    in this order: the whole text, the interior of a fenced code block
    (with or without the [json] tag), the text from the first opening
    brace through the last closing brace.  An attempt fails, and the next
    one is made, when [json.loads] raises [JSONDecodeError] on its
    candidate or when there is no candidate.  The first attempt that does
    not fail decides: its value is returned, whatever the later ones would
    give, or the other exception [json.loads] raised there ends the
    operation with no further attempt.  When all three fail the
    [ValueError] is raised.  On the scenario's response, where the whole
    text is not JSON and the block holds the object with the one key
    [question], the second attempt gives that object. *)
Theorem C7_first_successful_strategy_wins (raw : str) :
  let attempts :=
    [ json_loads raw;
      attempt (fenced_interior raw);
      attempt (brace_span raw) ] in
  (forall i v,
     nth_error attempts i = Some (Decoded v) ->
     (forall j, (j < i)%nat -> nth_error attempts j = Some DecodeError) ->
     _parse_json_response raw = Ok v) /\
  (forall i e,
     nth_error attempts i = Some (Raised e) ->
     (forall j, (j < i)%nat -> nth_error attempts j = Some DecodeError) ->
     _parse_json_response raw = Err e) /\
  ((forall a, In a attempts -> a = DecodeError) ->
   _parse_json_response raw = Err parse_failure) /\
  (json_loads fenced_response = DecodeError ->
   json_loads question_object_text = Decoded question_object ->
   fenced_interior fenced_response = Some question_object_text /\
   _parse_json_response fenced_response = Ok question_object).
Proof.
  intros attempts. split; [|split; [|split]].
  - intros i v Hi Hlt. rewrite parse_json_response_attempts.
    change (parse_attempts raw) with attempts.
    rewrite (first_outcome_nth attempts i (Decoded v)); [reflexivity| |exact Hi|exact Hlt].
    discriminate.
  - intros i e Hi Hlt. rewrite parse_json_response_attempts.
    change (parse_attempts raw) with attempts.
    rewrite (first_outcome_nth attempts i (Raised e)); [reflexivity| |exact Hi|exact Hlt].
    discriminate.
  - intros Hall. rewrite parse_json_response_attempts.
    change (parse_attempts raw) with attempts.
    rewrite (first_outcome_none attempts Hall). reflexivity.
  - intros Hwhole Hblock.
    assert (Hint : fenced_interior fenced_response = Some question_object_text)
      by (vm_compute; reflexivity).
    split; [exact Hint|].
    rewrite parse_json_response_attempts. unfold parse_attempts.
    rewrite Hint. cbn [attempt first_outcome]. rewrite Hwhole, Hblock.
    reflexivity.
Qed.
End Recovery.

Lemma C7_first_successful_strategy_wins_witness :
  @_parse_json_response reference_runtime fenced_response = Ok question_object
  /\ @_parse_json_response reference_runtime ambiguous_response
     = Ok (PList [PInt 1]).
Proof.
  split.
  - refine (proj2 (proj2 (proj2 (proj2
      (@C7_first_successful_strategy_wins reference_runtime fenced_response)))
      _ _)); vm_compute; reflexivity.
  - refine (proj1
      (@C7_first_successful_strategy_wins reference_runtime ambiguous_response)
      1%nat (PList [PInt 1]) _ _).
    + vm_compute. reflexivity.
    + intros j Hj. assert (j = 0%nat) as -> by lia. vm_compute. reflexivity.
Defined.

(** The claim as the specification words it does not hold.  On a text
    nested a thousand deep and followed by a fenced block, [json.loads]
    raises [RecursionError] on the whole text; the block, which decodes,
    is never tried. *)
Lemma C7_deep_nesting_ends_the_search :
  ~ @first_success_wins reference_runtime deep_response.
Proof.
  unfold first_success_wins. rewrite parse_json_response_attempts.
  assert (E1 : @parse_attempts reference_runtime deep_response
               = [Raised (recursion_error (lit "array"));
                  Decoded (PList [PInt 1]); DecodeError]).
  { vm_compute. reflexivity. }
  rewrite E1. cbn. discriminate.
Qed.

(** ** Evaluating an answer *)

(** C10.  The [is_correct] field [evaluate_answer] returns is the equality
    of the upper-cased chosen letter and the upper-cased correct letter.
    It is the same whatever the question text, the options, the document
    and the replies of the model are; when it is true no prompt was sent
    and the feedback is the one fixed record. *)
Theorem C10_is_correct_compares_letters `{PythonRuntime}
  (question : pyval) (user_answer correct_answer : str)
  (options : pydict) (content : option str) (service : chat_service) :
  let outcome :=
    evaluate_answer question user_answer correct_answer options content service in
  is_correct (fst outcome)
    = str_eqb (str_upper user_answer) (str_upper correct_answer) /\
  (is_correct (fst outcome) = true <->
   str_upper user_answer = str_upper correct_answer) /\
  (forall question' options' content' service',
     is_correct (fst (evaluate_answer question' user_answer correct_answer
                        options' content' service'))
     = is_correct (fst outcome)) /\
  (is_correct (fst outcome) = true ->
   snd outcome = [] /\ fst outcome = mk_feedback true well_done None None).
Proof.
  assert (Hfield : forall q o c sv,
    is_correct (fst (evaluate_answer q user_answer correct_answer o c sv))
    = str_eqb (str_upper user_answer) (str_upper correct_answer)).
  { intros q o c sv. unfold evaluate_answer.
    destruct (str_eqb (str_upper user_answer) (str_upper correct_answer));
      [reflexivity|].
    unfold chat_bind, _call_chat, chat_ret. destruct (sv _); reflexivity. }
  cbv zeta. rewrite Hfield. split; [reflexivity|]. split; [apply str_eqb_eq|].
  split; [intros; apply Hfield|].
  intros Heq. unfold evaluate_answer. rewrite Heq. split; reflexivity.
Qed.

(** ** Float arithmetic *)

Lemma round_half_even_bounds (n d k : Z) :
  0 < d ->
  (k * d <= n -> k <= round_half_even n d) /\
  (n <= k * d -> round_half_even n d <= k).
Proof.
  intros Hd. unfold round_half_even.
  pose proof (Z.div_mod n d ltac:(lia)) as Hn.
  pose proof (Z.mod_pos_bound n d Hd) as Hr.
  set (q := n / d) in *. set (r := n mod d) in *.
  assert (Hlow : k * d <= n -> k <= q) by (intros H; nia).
  assert (Hup : n <= k * d -> q < k \/ (q = k /\ r = 0)) by (intros H; nia).
  split.
  - intros H. specialize (Hlow H).
    destruct (2 * r ?= d); [destruct (Z.even q)| |]; lia.
  - intros H. destruct (Hup H) as [Hq|[Hq Hz]].
    + destruct (2 * r ?= d); [destruct (Z.even q)| |]; lia.
    + destruct (Z.compare_spec (2 * r) d); [lia|lia|lia].
Qed.

Lemma round_half_even_error (n d : Z) :
  0 < d -> 2 * Z.abs (round_half_even n d * d - n) <= d.
Proof.
  intros Hd. unfold round_half_even.
  pose proof (Z.div_mod n d ltac:(lia)) as Hn.
  pose proof (Z.mod_pos_bound n d Hd) as Hr.
  set (q := n / d) in *. set (r := n mod d) in *.
  destruct (Z.compare_spec (2 * r) d); [destruct (Z.even q)| |]; nia.
Qed.

Lemma binade_lower (n d : Z) :
  0 < n -> 0 < d -> pow2_le (binade n d) n d = true.
Proof.
  intros Hn Hd. unfold binade.
  destruct (pow2_le (Z.log2 n - Z.log2 d) n d) eqn:E; [exact E|].
  pose proof (Z.log2_spec n Hn) as [Ln _].
  pose proof (Z.log2_spec d Hd) as [_ Ld].
  pose proof (Z.log2_nonneg n). pose proof (Z.log2_nonneg d).
  set (a := Z.log2 n) in *. set (b := Z.log2 d) in *.
  unfold pow2_le. destruct (Z.leb_spec 0 (a - b - 1)).
  - apply Z.leb_le.
    assert (2 ^ (a - b - 1) * 2 ^ (b + 1) = 2 ^ a)
      by (rewrite <- Z.pow_add_r by lia; f_equal; lia).
    pose proof (Z.pow_pos_nonneg 2 (a - b - 1) ltac:(lia) ltac:(lia)).
    nia.
  - apply Z.leb_le.
    assert (2 ^ a * 2 ^ (- (a - b - 1)) = 2 ^ (b + 1))
      by (rewrite <- Z.pow_add_r by lia; f_equal; lia).
    pose proof (Z.pow_pos_nonneg 2 (- (a - b - 1)) ltac:(lia) ltac:(lia)).
    nia.
Qed.

Lemma binade_below (n d j : Z) :
  0 < n -> 0 < d -> 0 <= j -> n < 2 ^ j * d -> binade n d < j.
Proof.
  intros Hn Hd Hj Hlt. pose proof (binade_lower n d Hn Hd) as Hb.
  destruct (Z.lt_ge_cases (binade n d) j) as [|Hge]; [assumption|exfalso].
  unfold pow2_le in Hb. destruct (Z.leb_spec 0 (binade n d)); [|lia].
  apply Z.leb_le in Hb.
  pose proof (Z.pow_le_mono_r 2 j (binade n d) ltac:(lia) Hge).
  nia.
Qed.

Lemma round_double_small (q : Q) (j : Z) :
  0 < Qnum q -> 0 <= j <= 52 -> Qnum q < 2 ^ j * Z.pos (Qden q) ->
  exists k,
    53 - j <= k /\
    round_double q
    = FFinite (round_half_even (Qnum q * 2 ^ k) (Z.pos (Qden q))
               # Z.to_pos (2 ^ k)).
Proof.
  destruct q as [n d]. cbn [Qnum Qden]. intros Hn Hj Hlt.
  destruct n as [|n|n]; try lia.
  pose proof (binade_below (Z.pos n) (Z.pos d) j ltac:(lia) ltac:(lia)
                ltac:(lia) Hlt) as Hb.
  unfold round_double, round_positive. cbn [Qnum Qden].
  set (e := Z.max (binade (Z.pos n) (Z.pos d)) (-1022)).
  assert (He : e <= j - 1) by lia.
  exists (52 - e). split; [lia|].
  destruct (Z.leb_spec 0 (52 - e)); [|lia].
  unfold overflows, scaled.
  destruct (Z.leb_spec 0 (- (52 - e))); [lia|].
  cbn [andb]. rewrite Z.opp_involutive. reflexivity.
Qed.

Lemma pow2_pos_id (k : Z) : 0 <= k -> Z.pos (Z.to_pos (2 ^ k)) = 2 ^ k.
Proof.
  intros Hk. apply Z2Pos.id. apply Z.pow_pos_nonneg; lia.
Qed.

(** Rounding keeps a value between the integers it lies between. *)
Lemma round_double_between (q : Q) (a b : Z) :
  (inject_Z a <= q)%Q -> (q <= inject_Z b)%Q -> 0 <= a -> b < 2 ^ 52 ->
  exists r, round_double q = FFinite r /\
            (inject_Z a <= r)%Q /\ (r <= inject_Z b)%Q.
Proof.
  intros Ha Hb Ha0 Hb52.
  assert (Hq : 0 <= Qnum q).
  { unfold Qle in Ha. cbn in Ha. destruct q as [n d]. cbn in *. lia. }
  destruct (Z.eq_dec (Qnum q) 0) as [Hz|Hnz].
  - exists 0%Q. split.
    + unfold round_double. rewrite Hz. reflexivity.
    + unfold Qle in *. destruct q as [n d]. cbn in *. subst n. split; lia.
  - destruct (round_double_small q 52 ltac:(lia) ltac:(lia)) as [k [Hk Hr]].
    { unfold Qle in Hb. destruct q as [n d]. cbn in *. nia. }
    eexists. split; [exact Hr|].
    assert (Hk0 : 0 <= k) by lia.
    pose proof (pow2_pos_id k Hk0) as Hp.
    pose proof (Z.pow_pos_nonneg 2 k ltac:(lia) Hk0) as Hpos.
    destruct q as [n d]. unfold Qle in *. cbn [Qnum Qden inject_Z] in *.
    rewrite Hp.
    destruct (round_half_even_bounds (n * 2 ^ k) (Z.pos d) (a * 2 ^ k)
                ltac:(lia)) as [Hlow _].
    destruct (round_half_even_bounds (n * 2 ^ k) (Z.pos d) (b * 2 ^ k)
                ltac:(lia)) as [_ Hup].
    split.
    + rewrite Z.mul_1_r. apply Hlow. nia.
    + rewrite Z.mul_1_r. apply Hup. nia.
Qed.

(** Rounding moves a value below [2 ^ j] by at most [2 ^ (j - 54)]. *)
Lemma round_double_near (q : Q) (j : Z) :
  (0 <= q)%Q -> Qnum q < 2 ^ j * Z.pos (Qden q) -> 1 <= j <= 52 ->
  exists r, round_double q = FFinite r /\
            (r - q <= 1 # Z.to_pos (2 ^ (54 - j)))%Q /\
            (q - r <= 1 # Z.to_pos (2 ^ (54 - j)))%Q.
Proof.
  intros Hq0 Hlt Hj.
  assert (Hq : 0 <= Qnum q).
  { unfold Qle in Hq0. cbn in Hq0. lia. }
  pose proof (pow2_pos_id (54 - j) ltac:(lia)) as Ht.
  pose proof (Z.pow_pos_nonneg 2 (54 - j) ltac:(lia) ltac:(lia)) as Htpos.
  destruct (Z.eq_dec (Qnum q) 0) as [Hz|Hnz].
  - exists 0%Q. split.
    + unfold round_double. rewrite Hz. reflexivity.
    + destruct q as [n d]. cbn in Hz. subst n.
      unfold Qle. cbn. split; lia.
  - destruct (round_double_small q j ltac:(lia) ltac:(lia) Hlt) as [k [Hk Hr]].
    eexists. split; [exact Hr|].
    assert (Hk0 : 0 <= k) by lia.
    pose proof (pow2_pos_id k Hk0) as Hp.
    pose proof (Z.pow_pos_nonneg 2 k ltac:(lia) Hk0) as Hpos.
    assert (Hpow : 2 ^ (54 - j) <= 2 * 2 ^ k).
    { replace (2 * 2 ^ k) with (2 ^ (k + 1))
        by (rewrite Z.pow_add_r by lia; lia).
      apply Z.pow_le_mono_r; lia. }
    destruct q as [n d]. cbn [Qnum Qden] in *.
    pose proof (round_half_even_error (n * 2 ^ k) (Z.pos d) ltac:(lia)) as He.
    set (m := round_half_even (n * 2 ^ k) (Z.pos d)) in *.
    unfold Qle, Qminus, Qplus, Qopp. cbn [Qnum Qden].
    rewrite !Pos2Z.inj_mul, Hp, Ht.
    set (D := Z.pos d) in *. set (P := 2 ^ k) in *. set (T := 2 ^ (54 - j)) in *.
    assert (HD : 0 < D) by (unfold D; lia).
    split; nia.
Qed.

Lemma below_pow2 (q : Q) (j : Z) :
  (q < inject_Z (2 ^ j))%Q -> Qnum q < 2 ^ j * Z.pos (Qden q).
Proof. unfold Qlt. cbn. lia. Qed.

Lemma ratio_bounds (c t : Z) :
  0 <= c <= t -> 0 < t ->
  (0 <= inject_Z c / inject_Z t)%Q /\ (inject_Z c / inject_Z t <= 1)%Q.
Proof.
  intros Hc Ht.
  assert (Htp : (0 < inject_Z t)%Q)
    by (change 0%Q with (inject_Z 0); rewrite <- Zlt_Qlt; lia).
  split.
  - apply Qle_shift_div_l; [exact Htp|].
    rewrite Qmult_0_l. change 0%Q with (inject_Z 0). rewrite <- Zle_Qle. lia.
  - apply Qle_shift_div_r; [exact Htp|].
    rewrite Qmult_1_l. rewrite <- Zle_Qle. lia.
Qed.

(** [(correct / total) * 100] for a count of correct answers within the
    total: a finite float between 0 and 100, within [2 ^ -45] of the exact
    percentage. *)
Lemma percentage_value (c t : Z) :
  0 <= c <= t -> 0 < t ->
  exists a,
    percentage c t = Ok (NFloat (FFinite a)) /\
    (0 <= a)%Q /\ (a <= 100)%Q /\
    (a - 100 * inject_Z c / inject_Z t <= 1 # 2 ^ 45)%Q /\
    (100 * inject_Z c / inject_Z t - a <= 1 # 2 ^ 45)%Q.
Proof.
  intros Hc Ht. destruct (ratio_bounds c t Hc Ht) as [H0 H1].
  set (x := (inject_Z c / inject_Z t)%Q) in *.
  destruct (round_double_between x 0 1 H0 H1 ltac:(lia) ltac:(lia))
    as [r [Hr [Hr0 Hr1]]].
  destruct (round_double_near x 1 H0) as [r' [Hr' [Hn1 Hn2]]]; [|lia|].
  { apply below_pow2. change (inject_Z (2 ^ 1)) with 2%Q. lra. }
  assert (r' = r) by congruence. subst r'.
  change (inject_Z 0) with 0%Q in Hr0. change (inject_Z 1) with 1%Q in Hr1.
  set (y := (r * 100)%Q).
  destruct (round_double_between y 0 100) as [a [Ha [Ha0 Ha1]]];
    [unfold y; change (inject_Z 0) with 0%Q; lra
    |unfold y; change (inject_Z 100) with 100%Q; lra|lia|lia|].
  destruct (round_double_near y 7) as [a' [Ha' [Hm1 Hm2]]];
    [unfold y; lra| |lia|].
  { apply below_pow2. change (inject_Z (2 ^ 7)) with 128%Q. unfold y. lra. }
  assert (a' = a) by congruence. subst a'.
  exists a. split.
  - unfold percentage, int_truediv.
    destruct (Z.eqb_spec t 0); [lia|]. fold x. rewrite Hr.
    unfold float_mul. fold y. rewrite Ha. reflexivity.
  - change (inject_Z 0) with 0%Q in Ha0.
    change (inject_Z 100) with 100%Q in Ha1.
    change (Z.to_pos (2 ^ (54 - 1))) with 9007199254740992%positive in Hn1, Hn2.
    change (Z.to_pos (2 ^ (54 - 7))) with 140737488355328%positive in Hm1, Hm2.
    change (2 ^ 45)%positive with 35184372088832%positive.
    assert (E : (100 * inject_Z c / inject_Z t == 100 * x)%Q).
    { unfold x. field. intros Hz. unfold Qeq in Hz. cbn in Hz. lia. }
    rewrite E. unfold y in *.
    repeat split; try assumption; lra.
Qed.

Lemma recorded_difficulties (history : list pydict) (peak : Z) :
  Forall (fun q => exists d, recorded_difficulty q d /\ 1 <= d <= peak) history ->
  exists ds, Forall2 recorded_difficulty history ds /\
             Forall (fun d => 1 <= d <= peak) ds.
Proof.
  induction 1 as [|q h [d [Hd Hb]] _ [ds [Hf Hr]]].
  - exists []. split; constructor.
  - exists (d :: ds). split; constructor; assumption.
Qed.

Lemma py_sum_bounds (ds : list Z) (peak : Z) :
  Forall (fun d => 1 <= d <= peak) ds ->
  Z.of_nat (length ds) <= py_sum ds <= Z.of_nat (length ds) * peak.
Proof.
  induction 1 as [|d ds Hd _ IH]; [unfold py_sum; simpl; lia|].
  rewrite py_sum_cons. cbn [length]. nia.
Qed.

(** [sum(ds) / len(ds)] for difficulties between 1 and a peak of at most
    3: a finite float between 1 and the peak, within [2 ^ -52] of the
    arithmetic mean. *)
Lemma mean_value (ds : list Z) (peak : Z) :
  ds <> [] -> Forall (fun d => 1 <= d <= peak) ds -> peak <= 3 ->
  let mean := (inject_Z (py_sum ds) / inject_Z (Z.of_nat (length ds)))%Q in
  exists b,
    int_truediv (py_sum ds) (Z.of_nat (length ds)) = Ok (FFinite b) /\
    (1 <= b)%Q /\ (b <= inject_Z peak)%Q /\
    (b - mean <= 1 # 2 ^ 52)%Q /\ (mean - b <= 1 # 2 ^ 52)%Q.
Proof.
  intros Hne Hds Hpeak mean.
  pose proof (py_sum_bounds ds peak Hds) as Hsum.
  assert (Hlen : 0 < Z.of_nat (length ds))
    by (destruct ds; [contradiction|cbn [length]; lia]).
  assert (Hnp : (0 < inject_Z (Z.of_nat (length ds)))%Q)
    by (change 0%Q with (inject_Z 0); rewrite <- Zlt_Qlt; lia).
  assert (H1 : (inject_Z 1 <= mean)%Q).
  { apply Qle_shift_div_l; [exact Hnp|].
    rewrite <- inject_Z_mult, <- Zle_Qle. lia. }
  assert (Hp : (mean <= inject_Z peak)%Q).
  { apply Qle_shift_div_r; [exact Hnp|].
    rewrite <- inject_Z_mult, <- Zle_Qle. lia. }
  destruct (round_double_between mean 1 peak H1 Hp ltac:(lia) ltac:(lia))
    as [b [Hb [Hb1 Hbp]]].
  assert (H0 : (0 <= mean)%Q) by (change (inject_Z 1) with 1%Q in H1; lra).
  destruct (round_double_near mean 2 H0) as [b' [Hb' [Hn1 Hn2]]]; [|lia|].
  { apply below_pow2. change (inject_Z (2 ^ 2)) with 4%Q.
    assert ((inject_Z peak <= 3)%Q)
      by (change 3%Q with (inject_Z 3); rewrite <- Zle_Qle; lia).
    lra. }
  assert (b' = b) by congruence. subst b'.
  exists b. split.
  - unfold int_truediv. destruct (Z.eqb_spec (Z.of_nat (length ds)) 0); [lia|].
    fold mean. rewrite Hb. reflexivity.
  - change (inject_Z 1) with 1%Q in Hb1.
    change (Z.to_pos (2 ^ (54 - 2))) with (2 ^ 52)%positive in Hn1, Hn2.
    repeat split; assumption.
Qed.

(** ** Metrics *)

Lemma sum_values_ints (ds : list Z) (values : list pyval) (a : Z) :
  Forall2 (fun v d => v = PInt d) values ds ->
  sum_values values (NInt a) = Ok (NInt (a + py_sum ds)).
Proof.
  intros H. revert a. induction H as [|v d values ds -> _ IH]; intros a.
  - cbn. f_equal. f_equal. unfold py_sum. simpl. lia.
  - cbn [sum_values py_number num_add]. rewrite IH, py_sum_cons.
    f_equal. f_equal. lia.
Qed.

Lemma recorded_values (history : list pydict) (ds : list Z) :
  Forall2 recorded_difficulty history ds ->
  Forall2 (fun v d => v = PInt d)
    (map (fun q => dict_get_or q (lit "difficulty") (PInt 1)) history) ds.
Proof.
  induction 1 as [|q d qs ds Hq _ IH]; constructor; [|exact IH].
  unfold dict_get_or. unfold recorded_difficulty in Hq.
  rewrite Hq. reflexivity.
Qed.

Lemma get_performance_metrics_reads (s : Session) :
  snd (get_performance_metrics s) = s.
Proof.
  unfold get_performance_metrics, bind, gets, ret, lift. cbn.
  destruct (total_questions s =? 0); [reflexivity|].
  destruct (percentage _ _); [|reflexivity].
  destruct (map _ (questions_history s)); [reflexivity|].
  destruct (sum_values _ _); [|reflexivity].
  destruct (num_truediv _ _); reflexivity.
Qed.

(** The closed form of the call on a session whose entries record integer
    difficulties. *)
Lemma get_performance_metrics_value (s : Session) (ds : list Z) :
  total_questions s = Z.of_nat (length (questions_history s)) ->
  Forall2 recorded_difficulty (questions_history s) ds ->
  get_performance_metrics s =
  (if total_questions s =? 0
   then Ok (mk_metrics (total_questions s) (correct_answers s)
              (NInt 0) (NInt 1)
              (max_difficulty_reached s) (current_difficulty s))
   else
     match percentage (correct_answers s) (total_questions s) with
     | Err e => Err e
     | Ok accuracy =>
         match int_truediv (py_sum ds) (Z.of_nat (length ds)) with
         | Err e => Err e
         | Ok mean =>
             Ok (mk_metrics (total_questions s) (correct_answers s)
                   accuracy (NFloat mean)
                   (max_difficulty_reached s) (current_difficulty s))
         end
     end,
   s).
Proof.
  intros Htotal Hrec.
  unfold get_performance_metrics, bind, gets, ret, lift. cbn.
  destruct (Z.eqb_spec (total_questions s) 0) as [E0|N0]; [reflexivity|].
  destruct (percentage _ _) as [accuracy|e]; [|reflexivity].
  pose proof (recorded_values _ _ Hrec) as Hvals.
  pose proof (Forall2_length Hvals) as Hlen.
  pose proof (sum_values_ints ds _ 0 Hvals) as Hsum.
  destruct (map _ (questions_history s)) as [|v vs] eqn:Emap.
  - exfalso. apply N0. rewrite Htotal.
    apply (f_equal (@length _)) in Emap. rewrite length_map in Emap.
    rewrite Emap. reflexivity.
  - rewrite Hsum, Hlen. cbn [num_truediv Z.add].
    destruct (int_truediv _ _); reflexivity.
Qed.

(** The claim as the specification words it does not hold: with 7 correct
    answers of 25 the accuracy is not 28, and the mean of the difficulties
    1, 2, 2 is not five thirds. *)
Lemma C5_metrics_are_rounded :
  ~ exact_accuracy (tally 25 7 (repeat 1 25)) /\
  ~ exact_mean (tally 3 1 [1; 2; 2]) [1; 2; 2].
Proof.
  split.
  - intros [m [a [Hm [Ha E]]]]. vm_compute in Hm. injection Hm as <-.
    vm_compute in Ha. injection Ha as <-. vm_compute in E. discriminate E.
  - intros [m [b [Hm [Hb E]]]]. vm_compute in Hm. injection Hm as <-.
    vm_compute in Hb. injection Hb as <-. vm_compute in E. discriminate E.
Qed.

(** C5, as the code has it.  On a session whose counter of answers is the
    length of its history and whose entries record integer difficulties,
    [get_performance_metrics] leaves the session as it is, and a second
    call comes to what the first came to.  When the total is 0 it returns
    the ints 0 and 1 as accuracy and mean difficulty, without dividing.
    Otherwise the accuracy is the float [(correct / total) * 100] and the
    mean difficulty the float [sum / len]: each division and the
    multiplication give the double nearest to their exact result.  With a
    count of correct answers within the total and difficulties from 1 to
    3, the accuracy lies in [0, 100] within [2 ^ -45] of
    [100 * correct / total], and the mean difficulty lies in [1, 3] within
    [2 ^ -52] of the arithmetic mean. *)
Theorem C5_metrics (s : Session) (ds : list Z) :
  total_questions s = Z.of_nat (length (questions_history s)) ->
  Forall2 recorded_difficulty (questions_history s) ds ->
  snd (get_performance_metrics s) = s /\
  (pair1 <- get_performance_metrics ;;
   pair2 <- get_performance_metrics ;; ret (pair1, pair2)) s
  = (match fst (get_performance_metrics s) with
     | Ok m => Ok (m, m)
     | Err e => Err e
     end, s) /\
  (total_questions s = 0 ->
   fst (get_performance_metrics s)
   = Ok (mk_metrics 0 (correct_answers s) (NInt 0) (NInt 1)
           (max_difficulty_reached s) (current_difficulty s))) /\
  (total_questions s <> 0 ->
   fst (get_performance_metrics s)
   = match percentage (correct_answers s) (total_questions s) with
     | Err e => Err e
     | Ok accuracy =>
         match int_truediv (py_sum ds) (Z.of_nat (length ds)) with
         | Err e => Err e
         | Ok mean =>
             Ok (mk_metrics (total_questions s) (correct_answers s)
                   accuracy (NFloat mean)
                   (max_difficulty_reached s) (current_difficulty s))
         end
     end) /\
  (total_questions s <> 0 ->
   0 <= correct_answers s <= total_questions s ->
   Forall (fun d => 1 <= d <= 3) ds ->
   let exact := (100 * inject_Z (correct_answers s)
                 / inject_Z (total_questions s))%Q in
   let mean := (inject_Z (py_sum ds) / inject_Z (Z.of_nat (length ds)))%Q in
   exists a b,
     fst (get_performance_metrics s)
     = Ok (mk_metrics (total_questions s) (correct_answers s)
             (NFloat (FFinite a)) (NFloat (FFinite b))
             (max_difficulty_reached s) (current_difficulty s)) /\
     (0 <= a)%Q /\ (a <= 100)%Q /\
     (a - exact <= 1 # 2 ^ 45)%Q /\ (exact - a <= 1 # 2 ^ 45)%Q /\
     (1 <= b)%Q /\ (b <= 3)%Q /\
     (b - mean <= 1 # 2 ^ 52)%Q /\ (mean - b <= 1 # 2 ^ 52)%Q).
Proof.
  intros Htotal Hrec.
  pose proof (get_performance_metrics_value s ds Htotal Hrec) as Hrun.
  pose proof (get_performance_metrics_reads s) as Hreads.
  split; [exact Hreads|]. split; [|split; [|split]].
  - unfold bind.
    destruct (get_performance_metrics s) as [[m|e] s1] eqn:E;
      cbn [fst snd] in *; subst s1; [|reflexivity].
    rewrite E. reflexivity.
  - intros E0. rewrite Hrun. cbn [fst]. rewrite E0. reflexivity.
  - intros N0. rewrite Hrun. cbn [fst].
    destruct (Z.eqb_spec (total_questions s) 0); [contradiction|].
    destruct (percentage _ _); [|reflexivity].
    destruct (int_truediv _ _); reflexivity.
  - intros N0 Hc Hds exact mean. rewrite Hrun. cbn [fst].
    destruct (Z.eqb_spec (total_questions s) 0); [contradiction|].
    destruct (percentage_value (correct_answers s) (total_questions s) Hc
                ltac:(lia)) as [a [Ha [Ha0 [Ha1 [Hn1 Hn2]]]]].
    assert (Hne : ds <> []).
    { intros ->. inversion Hrec as [Hh|]. rewrite <- Hh in Htotal.
      cbn in Htotal. lia. }
    destruct (mean_value ds 3 Hne Hds ltac:(lia))
      as [b [Hb [Hb1 [Hb3 [Hm1 Hm2]]]]].
    exists a, b. rewrite Ha, Hb.
    change (inject_Z 3) with 3%Q in Hb3.
    repeat split; assumption.
Qed.

Lemma C5_metrics_witness :
  fst (get_performance_metrics (tally 3 1 [1; 2; 2]))
  = Ok (mk_metrics 3 1
          (NFloat (FFinite (4691249611844266 # 140737488355328)))
          (NFloat (FFinite (7505999378950827 # 4503599627370496))) 1 1) /\
  exists a b,
    fst (get_performance_metrics (tally 3 1 [1; 2; 2]))
    = Ok (mk_metrics 3 1 (NFloat (FFinite a)) (NFloat (FFinite b)) 1 1) /\
    (a <= 100)%Q /\ (1 <= b)%Q.
Proof.
  destruct (C5_metrics (tally 3 1 [1; 2; 2]) [1; 2; 2] eq_refl)
    as [_ [_ [_ [Hclosed Hval]]]].
  - repeat constructor.
  - split.
    + rewrite Hclosed by discriminate. vm_compute. reflexivity.
    + destruct Hval as [a [b [Hm [_ [Ha [_ [_ [Hb _]]]]]]]].
      * discriminate.
      * cbn. lia.
      * repeat constructor; lia.
      * exists a, b. split; [exact Hm|]. split; [exact Ha|exact Hb].
Defined.

(** ** Dicts *)

Lemma dict_get_set_same (d : pydict) (k : str) (v : pyval) :
  dict_get (dict_set d k v) k = Some v.
Proof.
  induction d as [|[k' v'] d IH]; simpl.
  - rewrite str_eqb_refl. reflexivity.
  - destruct (str_eqb k' k) eqn:E; simpl; rewrite E; [reflexivity|exact IH].
Qed.

Lemma dict_get_set_other (d : pydict) (k k' : str) (v : pyval) :
  str_eqb k k' = false -> dict_get (dict_set d k v) k' = dict_get d k'.
Proof.
  intros Hne. induction d as [|[k0 v0] d IH]; simpl.
  - rewrite Hne. reflexivity.
  - destruct (str_eqb k0 k) eqn:E; simpl.
    + apply str_eqb_eq in E. subst k0. rewrite Hne. reflexivity.
    + destruct (str_eqb k0 k'); [reflexivity|exact IH].
Qed.

(** ** The question [generate_question] returns *)

Section Questions.
Context `{PythonRuntime}.

(** Whatever the model replied, the record carries the difficulty the
    question was asked at. *)
Lemma generate_question_difficulty content difficulty asked focus sv :
  dict_get (fst (generate_question content difficulty asked focus sv))
    (lit "difficulty") = Some (PInt difficulty).
Proof.
  unfold generate_question, chat_bind, _call_chat, chat_ret. cbn [fst].
  unfold question_from_reply.
  destruct (sv _) as [text|e]; [|reflexivity].
  destruct (_parse_json_response text) as [v|e]; [|reflexivity].
  destruct v; try reflexivity. cbn [set_item].
  rewrite dict_get_set_other by reflexivity.
  apply dict_get_set_same.
Qed.

(** When the reply cannot be decoded, the record is the sentinel built
    from the message of the [ValueError]. *)
Lemma generate_question_unparsable content difficulty asked focus sv raw :
  (forall p, sv p = Ok raw) ->
  _parse_json_response raw = Err parse_failure ->
  fst (generate_question content difficulty asked focus sv)
  = error_question difficulty (difficulty_level_name difficulty)
      (lit "Could not parse JSON from response").
Proof.
  intros Hsv Hparse.
  unfold generate_question, chat_bind, _call_chat, chat_ret. cbn [fst].
  unfold question_from_reply. rewrite Hsv, Hparse. reflexivity.
Qed.
End Questions.

(** ** Runs and the scoring state *)

Lemma session_ok_scoring (s s' : Session) :
  scoring s' = scoring s -> session_ok s -> session_ok s'.
Proof.
  unfold scoring. intros [= Hh Hw Hc Hm Ht Hr] [].
  constructor; rewrite ?Hh, ?Hw, ?Hc, ?Hm, ?Ht, ?Hr; assumption.
Qed.

Lemma session_ok_init : session_ok init_session_state.
Proof. constructor; simpl; try lia; constructor. Qed.

Lemma level_entry_reads (level : Z) (s : Session) :
  snd (level_entry level s) = s.
Proof. unfold level_entry. destruct (_ || _); reflexivity. Qed.

Lemma level_entry_of_reads (v : pyval) (s : Session) :
  snd (level_entry_of v s) = s.
Proof.
  unfold level_entry_of. destruct v; try reflexivity;
    destruct (_ || _); reflexivity.
Qed.

(** The state a computation ends in, when it is a [bind]. *)
Lemma snd_bind {A B} (c : M A) (k : A -> M B) (s : Session) :
  snd (bind c k s) =
  match fst (c s) with
  | Ok a => snd (k a (snd (c s)))
  | Err _ => snd (c s)
  end.
Proof. unfold bind. destruct (c s) as [[a|e] s']; reflexivity. Qed.

(** What answering a question does to the scoring state: the entry and
    the bit are appended, the difficulty is updated from the new window,
    the peak is raised to it when it is higher, the counters go up. *)
Lemma record_answer_scoring (question : pydict) (answer : str) (fb : Feedback)
  (s : Session) :
  let bit := if is_correct fb then 1 else 0 in
  let window := performance_window s ++ [bit] in
  let new := calculate_adaptive_difficulty window (current_difficulty s) in
  scoring (snd (record_answer question answer fb s)) =
  (questions_history s ++ [history_entry question answer (is_correct fb)],
   window, new, Z.max (max_difficulty_reached s) new,
   total_questions s + 1, correct_answers s + bit).
Proof.
  cbv zeta. unfold record_answer, bind, gets, modify, ret.
  destruct (is_correct fb); cbn;
    remember (calculate_adaptive_difficulty _ _) as new eqn:Enew;
    destruct (Z.ltb_spec (max_difficulty_reached s) new); cbn;
    unfold scoring; cbn; repeat f_equal; lia.
Qed.

(** Answering a question keeps a session well formed, provided the
    question was asked at the current difficulty. *)
Lemma record_answer_ok (question : pydict) (answer : str) (fb : Feedback)
  (s : Session) :
  session_ok s ->
  recorded_difficulty question (current_difficulty s) ->
  session_ok (snd (record_answer question answer fb s)).
Proof.
  intros [Hl Hp Hh Ht Hc Hwl Hwb] Hq.
  pose proof (record_answer_scoring question answer fb s) as Hs.
  cbv zeta in Hs.
  set (bit := if is_correct fb then 1 else 0) in *.
  assert (Hbit : is_bit bit) by (unfold bit, is_bit; destruct (is_correct fb); lia).
  pose proof (calculate_adaptive_difficulty_level
    (performance_window s ++ [bit]) (current_difficulty s)) as Hnew.
  unfold is_level in Hnew.
  set (new := calculate_adaptive_difficulty _ _) in *.
  assert (Hn : 1 <= new <= 3) by (apply Hnew; lia). clear Hnew.
  assert (Hentry : recorded_difficulty
            (history_entry question answer (is_correct fb))
            (current_difficulty s)).
  { unfold recorded_difficulty, history_entry, dict_get_or.
    unfold recorded_difficulty in Hq. rewrite Hq. reflexivity. }
  unfold scoring in Hs. injection Hs as Eh Ew Ec Em Et Er.
  constructor; rewrite ?Eh, ?Ew, ?Ec, ?Em, ?Et, ?Er.
  - lia.
  - lia.
  - apply Forall_app. split.
    + eapply Forall_impl; [|exact Hh].
      intros q [d [Hd Hr]]. exists d. split; [exact Hd|lia].
    + constructor; [|constructor].
      exists (current_difficulty s). split; [exact Hentry|lia].
  - rewrite length_app. simpl. lia.
  - unfold is_bit in Hbit. lia.
  - rewrite !length_app. simpl. lia.
  - apply Forall_app. split; [exact Hwb|]. constructor; [exact Hbit|constructor].
Qed.

Lemma snd_bind_gets {A B} (f : Session -> A) (k : A -> M B) (s : Session) :
  snd (bind (gets f) k s) = snd (k (f s) s).
Proof. reflexivity. Qed.

Lemma snd_bind_modify {B} (f : Session -> Session) (k : unit -> M B)
  (s : Session) :
  snd (bind (modify f) k s) = snd (k tt (f s)).
Proof. reflexivity. Qed.

Lemma snd_bind_reads {A B} (c : M A) (k : A -> M B) (s : Session) :
  reads c ->
  snd (bind c k s) =
  match fst (c s) with Ok a => snd (k a s) | Err _ => s end.
Proof. intros Hc. rewrite snd_bind, Hc. reflexivity. Qed.

Section QuestionScreen.
Context `{PythonRuntime}.

Lemma ensure_question_run (inp : run_input) (s : Session) :
  match ensure_question inp s with
  | (Ok _, s') =>
      (show_feedback s = true /\ s' = s) \/
      (show_feedback s = false /\
       exists content, pdf_content s = Some content /\
         s' = set_asked_questions
                (asked_questions s
                   ++ [dict_get_or (generated inp s content)
                         (lit "question") (PStr [])])
                (set_current_question (Some (generated inp s content)) s))
  | (Err _, s') => s' = s
  end.
Proof.
  unfold ensure_question, bind, gets, modify, ret, raise. cbn.
  destruct (show_feedback s) eqn:Esf; cbn.
  - rewrite orb_false_r. destruct (is_none (current_question s)); cbn;
      left; auto.
  - rewrite orb_true_r. destruct (llm s); cbn; [|reflexivity].
    destruct (pdf_content s) as [content|]; cbn; [|reflexivity].
    right. split; [reflexivity|]. exists content. split; reflexivity.
Qed.

Lemma answer_form_run (inp : run_input) (question : pydict) (s : Session) :
  snd (answer_form inp question s) = s \/
  exists answer fb,
    snd (answer_form inp question s) = snd (record_answer question answer fb s).
Proof.
  unfold answer_form.
  destruct (dict_get_or question (lit "options") (PDict []));
    try (left; reflexivity).
  destruct (st_button inp SubmitAnswer); [|left; reflexivity].
  destruct (dict_keys entries) as [|first keys]; [left; reflexivity|].
  destruct (dict_get_or question (lit "correct_answer") (PStr []));
    try (left; reflexivity).
  right. rewrite snd_bind_gets. eauto.
Qed.

Lemma feedback_view_scoring (inp : run_input) (question : pydict)
  (s : Session) :
  scoring (snd (feedback_view inp question s)) = scoring s.
Proof.
  unfold feedback_view. rewrite snd_bind_gets.
  destruct (last_feedback s) as [fb|]; [|reflexivity].
  rewrite snd_bind.
  assert (Hshow : forall c : M unit, reads c -> forall k : unit -> M unit,
            (forall u s', scoring (snd (k u s')) = scoring s') ->
            scoring (snd (bind c k s)) = scoring s).
  { intros c Hc k Hk. rewrite snd_bind_reads by exact Hc.
    destruct (fst (c s)); [apply Hk|reflexivity]. }
  match goal with |- scoring match fst (?c s) with _ => _ end = _ =>
    assert (Hc : snd (c s) = s)
  end.
  { destruct (is_correct fb); [reflexivity|].
    destruct (dict_get_or question (lit "options") (PDict []));
      try reflexivity;
      destruct (dict_get_or question (lit "correct_answer") (PStr []));
      reflexivity. }
  rewrite Hc.
  match goal with |- scoring match ?r with _ => _ end = _ =>
    destruct r; [|reflexivity]
  end.
  destruct (st_button inp NextQuestion); [reflexivity|].
  destruct (st_button inp FinishAssessment); reflexivity.
Qed.

(** A run of the question screen keeps the session well formed. *)
Lemma render_question_ok (inp : run_input) (s : Session) :
  session_ok s -> session_ok (snd (render_question inp s)).
Proof.
  intros Hok. unfold render_question. rewrite snd_bind.
  pose proof (ensure_question_run inp s) as Hgen.
  destruct (ensure_question inp s) as [[[]|e] s1]; cbn [fst snd];
    [|subst s1; exact Hok].
  assert (Hok1 : session_ok s1).
  { destruct Hgen as [[_ ->]|[_ [c [_ ->]]]]; [exact Hok|].
    revert Hok. apply session_ok_scoring. reflexivity. }
  assert (Hq : show_feedback s1 = false ->
            forall q, current_question s1 = Some q ->
            recorded_difficulty q (current_difficulty s1)).
  { destruct Hgen as [[Esf ->]|[_ [c [_ ->]]]]; [congruence|].
    intros _ q [= <-]. apply generate_question_difficulty. }
  clear Hgen Hok. rewrite snd_bind_gets.
  rewrite snd_bind_reads by exact get_performance_metrics_reads.
  destruct (fst (get_performance_metrics s1)) as [metrics|]; [|exact Hok1].
  rewrite snd_bind_gets.
  rewrite snd_bind_reads by exact (level_entry_reads _).
  destruct (fst (level_entry _ s1)); [|exact Hok1].
  rewrite snd_bind_reads by exact (level_entry_reads _).
  destruct (fst (level_entry _ s1)); [|exact Hok1].
  destruct (current_question s1) as [question|] eqn:Eq; [|exact Hok1].
  destruct (py_truthy _).
  - destruct (st_button inp TryAgain); [|exact Hok1].
    revert Hok1. apply session_ok_scoring. reflexivity.
  - rewrite snd_bind_reads by exact (level_entry_of_reads _).
    destruct (fst (level_entry_of _ s1)); [|exact Hok1].
    rewrite snd_bind_gets.
    destruct (show_feedback s1) eqn:Esf; cbn [negb].
    + revert Hok1. apply session_ok_scoring. apply feedback_view_scoring.
    + destruct (answer_form_run inp question s1) as [->|[a [fb ->]]];
        [exact Hok1|].
      apply record_answer_ok; [exact Hok1|]. apply Hq; reflexivity.
Qed.
End QuestionScreen.

(** ** The other screens, and [main] *)

Lemma session_ok_fresh (s : Session) :
  scoring s = scoring init_session_state -> session_ok s.
Proof. intros E. exact (session_ok_scoring _ _ E session_ok_init). Qed.

Lemma render_sidebar_ok (inp : run_input) (s : Session) :
  session_ok s -> session_ok (snd (render_sidebar inp s)).
Proof.
  intros Hok. unfold render_sidebar. rewrite snd_bind_gets, snd_bind.
  match goal with |- context [fst (?c s)] =>
    assert (Hkey : fst (c s) = Ok tt /\ scoring (snd (c s)) = scoring s)
  end.
  { destruct (typed_api_key inp); [split; reflexivity|].
    destruct (negb _); split; reflexivity. }
  destruct Hkey as [-> Hs1].
  match goal with |- context [snd (?c s)] => set (s1 := snd (c s)) in * end.
  assert (Hok1 : session_ok s1) by exact (session_ok_scoring _ _ Hs1 Hok).
  clearbody s1. clear Hs1 Hok s. rewrite snd_bind.
  match goal with |- context [fst (?c s1)] =>
    assert (Hdoc : fst (c s1) = Ok tt /\ session_ok (snd (c s1)))
  end.
  { destruct (uploaded_file inp) as [[name extracted]|];
      [|split; [reflexivity|exact Hok1]].
    rewrite snd_bind_gets. unfold bind, gets. cbn [fst].
    destruct (negb _); [|split; [reflexivity|exact Hok1]].
    destruct extracted as [content|e]; (split; [reflexivity|]);
      [|exact Hok1].
    apply session_ok_fresh. reflexivity. }
  destruct Hdoc as [-> Hok2].
  match goal with |- context [snd (?c s1)] => set (s2 := snd (c s1)) in * end.
  clearbody s2. rewrite snd_bind_gets.
  destruct (assessment_started s2); [|exact Hok2].
  rewrite snd_bind_reads by exact get_performance_metrics_reads.
  destruct (fst (get_performance_metrics s2)); [|exact Hok2].
  rewrite level_entry_reads. exact Hok2.
Qed.

Lemma render_welcome_ok (inp : run_input) (s : Session) :
  session_ok s -> session_ok (snd (render_welcome inp s)).
Proof.
  intros Hok. unfold render_welcome. rewrite !snd_bind_gets.
  destruct (negb _); [exact Hok|]. destruct (negb _); [exact Hok|].
  destruct (st_button inp StartAssessment); [|exact Hok].
  revert Hok. apply session_ok_scoring. reflexivity.
Qed.

Lemma render_results_ok (inp : run_input) (s : Session) :
  session_ok s -> session_ok (snd (render_results inp s)).
Proof.
  intros Hok. unfold render_results.
  rewrite snd_bind_reads by exact get_performance_metrics_reads.
  destruct (fst (get_performance_metrics s)); [|exact Hok].
  rewrite snd_bind_reads by exact (level_entry_reads _).
  destruct (fst (level_entry _ s)); [|exact Hok].
  destruct (st_button inp StartNewAssessment); [|exact Hok].
  apply session_ok_fresh. reflexivity.
Qed.

Section Reachable.
Context `{PythonRuntime}.

Lemma main_ok (inp : run_input) (s : Session) :
  session_ok s -> session_ok (snd (main inp s)).
Proof.
  intros Hok. unfold main. rewrite snd_bind.
  pose proof (render_sidebar_ok inp s Hok) as Hok1.
  destruct (fst (render_sidebar inp s)); [|exact Hok1].
  rewrite !snd_bind_gets.
  destruct (assessment_complete _); [apply render_results_ok; exact Hok1|].
  destruct (assessment_started _);
    [apply render_question_ok|apply render_welcome_ok]; exact Hok1.
Qed.

Lemma reachable_ok (s : Session) : reachable s -> session_ok s.
Proof.
  induction 1 as [|s inp _ IH]; [exact session_ok_init|].
  apply main_ok. exact IH.
Qed.

(** C4.  In every session the application can reach from the initial one
    (difficulty 1, peak 1, empty history), whatever the learner and the
    model do, the peak difficulty is at least the current difficulty and
    at least the difficulty recorded in any entry of the history. *)
Theorem C4_peak_is_a_watermark (s : Session) :
  reachable s ->
  current_difficulty s <= max_difficulty_reached s /\
  forall q, In q (questions_history s) ->
    exists d, dict_get q (lit "difficulty") = Some (PInt d) /\
              d <= max_difficulty_reached s.
Proof.
  intros Hr. destruct (reachable_ok s Hr) as [Hl _ Hh _ _ _ _].
  split; [lia|]. intros q Hq.
  rewrite Forall_forall in Hh. destruct (Hh q Hq) as [d [Hd Hb]].
  exists d. split; [exact Hd|lia].
Qed.
End Reachable.

Lemma reachable_play `{PythonRuntime} (inputs : list run_input) (s : Session) :
  reachable s -> reachable (play inputs s).
Proof.
  revert s. induction inputs as [|inp rest IH]; intros s Hs; [exact Hs|].
  apply IH. apply reach_run. exact Hs.
Qed.

Lemma C4_peak_is_a_watermark_witness :
  current_difficulty sample_session <= max_difficulty_reached sample_session /\
  forall q, In q (questions_history sample_session) ->
    exists d, dict_get q (lit "difficulty") = Some (PInt d) /\
              d <= max_difficulty_reached sample_session.
Proof.
  apply (@C4_peak_is_a_watermark reference_runtime sample_session).
  apply reachable_play. apply reach_init.
Defined.

(** ** A reply that cannot be decoded *)

Section Unparsable.
Context `{PythonRuntime}.

(** C8.  When all three attempts fail on the reply (each with a
    [JSONDecodeError], or for want of a candidate), parsing raises the
    [ValueError]; [generate_question] then returns the sentinel record,
    flagged [error] and carrying the message of the exception; and the run
    of the question screen that asked for the question leaves the
    history, the performance window and the current difficulty (and the
    peak and the counters) as they were, whichever button was pressed. *)
Theorem C8_unparsable_reply_gives_sentinel
  (raw content key : str) (inp : run_input) (s : Session) :
  Forall (fun outcome => outcome = DecodeError) (parse_attempts raw) ->
  (forall p, service inp p = Ok raw) ->
  show_feedback s = false ->
  llm s = Some key ->
  pdf_content s = Some content ->
  let q := fst (generate_question content (current_difficulty s)
                  (asked_questions s) None (service inp)) in
  let s' := snd (render_question inp s) in
  _parse_json_response raw = Err parse_failure /\
  q = error_question (current_difficulty s)
        (difficulty_level_name (current_difficulty s))
        (exn_message parse_failure) /\
  dict_get q (lit "error") = Some (PBool true) /\
  dict_get q (lit "error_message") = Some (PStr (exn_message parse_failure)) /\
  questions_history s' = questions_history s /\
  performance_window s' = performance_window s /\
  current_difficulty s' = current_difficulty s /\
  scoring s' = scoring s /\
  (current_question s' = Some q \/ current_question s' = None).
Proof.
  intros Hfail Hsv Hsf Hllm Hdoc q s'.
  assert (Hparse : _parse_json_response raw = Err parse_failure).
  { rewrite parse_json_response_attempts, first_outcome_none; [reflexivity|].
    apply Forall_forall. exact Hfail. }
  assert (Hq : q = error_question (current_difficulty s)
                 (difficulty_level_name (current_difficulty s))
                 (exn_message parse_failure))
    by exact (generate_question_unparsable _ _ _ _ _ raw Hsv Hparse).
  split; [exact Hparse|]. split; [exact Hq|].
  split; [rewrite Hq; reflexivity|]. split; [rewrite Hq; reflexivity|].
  assert (Hrun : scoring s' = scoring s /\
                 (current_question s' = Some q \/ current_question s' = None)).
  { unfold s', render_question. rewrite snd_bind.
    pose proof (ensure_question_run inp s) as Hgen.
    destruct (ensure_question inp s) as [[[]|e] s1] eqn:Eens; cbn [fst snd].
    - destruct Hgen as [[Esf _]|[_ [c [Hc ->]]]]; [congruence|].
      assert (c = content) as -> by congruence.
      fold (generated inp s content). change (generated inp s content) with q.
      set (s1 := set_asked_questions _ _).
      assert (Hs1 : scoring s1 = scoring s) by reflexivity.
      assert (Hq1 : current_question s1 = Some q) by reflexivity.
      clearbody s1.
      rewrite snd_bind_gets.
      rewrite snd_bind_reads by exact get_performance_metrics_reads.
      destruct (fst (get_performance_metrics s1)); [|auto].
      rewrite snd_bind_gets.
      rewrite snd_bind_reads by exact (level_entry_reads _).
      destruct (fst (level_entry _ s1)); [|auto].
      rewrite snd_bind_reads by exact (level_entry_reads _).
      destruct (fst (level_entry _ s1)); [|auto].
      rewrite Hq1.
      assert (Herr : py_truthy (dict_get_or q (lit "error") PNone) = true)
        by (rewrite Hq; reflexivity).
      rewrite Herr.
      destruct (st_button inp TryAgain); [|auto].
      split; [exact Hs1|right; reflexivity].
    - exfalso. revert Eens.
      unfold ensure_question, bind, gets, modify, ret, raise. cbn.
      rewrite Hsf. cbn. rewrite orb_true_r, Hllm. cbn. rewrite Hdoc. cbn.
      discriminate. }
  destruct Hrun as [Hscore Hcq].
  pose proof Hscore as Hfields. unfold scoring in Hfields.
  injection Hfields as Eh Ew Ec _ _ _.
  repeat split; assumption.
Qed.
End Unparsable.

Lemma C8_unparsable_reply_gives_sentinel_witness :
  @_parse_json_response reference_runtime prose_response = Err parse_failure /\
  scoring (snd (@render_question reference_runtime
                  (quiz_input prose_response (Some SubmitAnswer)) quiz_session))
  = scoring quiz_session.
Proof.
  pose proof (@C8_unparsable_reply_gives_sentinel reference_runtime
    prose_response (lit "Photosynthesis turns light into sugar.") (lit "key")
    (quiz_input prose_response (Some SubmitAnswer)) quiz_session) as W.
  cbv zeta in W.
  assert (Hfail : Forall (fun outcome => outcome = DecodeError)
                    (@parse_attempts reference_runtime prose_response))
    by (vm_compute; repeat constructor).
  specialize (W Hfail (fun p => eq_refl) eq_refl eq_refl eq_refl).
  split; [apply W|]. apply W.
Defined.

(** ** Quick revision *)

Lemma py_str_nat_digit (n : nat) :
  (n < 10)%nat -> py_str_nat n = [N.of_nat (48 + n)].
Proof.
  intros Hn. unfold py_str_nat. cbn [decimal_digits].
  rewrite Nat.mod_small, Nat.div_small by exact Hn. reflexivity.
Qed.

(** The claim as the specification words it does not hold, in three
    places: ten items of which one has two options pass; a reply whose
    [mcqs] is [null] ends on a [TypeError], not on a descriptive error; a
    reply with eleven items and no key concepts is an error. *)
Lemma C9_validation_is_partial :
  ~ rejects_wrong_option_count /\
  ~ reports_missing_items /\
  ~ truncates_every_long_reply.
Proof.
  split; [|split].
  - intros Hclaim.
    destruct (Hclaim short_options_analysis) as [e He].
    + unfold wrong_option_count, short_options_analysis, analysis_with.
      eexists _, _, (mcq_with_options 2), _, _.
      split; [reflexivity|]. split; [reflexivity|].
      split; [left; reflexivity|]. split; [reflexivity|].
      split; [reflexivity|]. simpl. lia.
    + vm_compute in He. discriminate He.
  - intros Hclaim.
    destruct (Hclaim null_items_analysis) as [status [detail He]];
      [right; reflexivity|].
    vm_compute in He. discriminate He.
  - intros Hclaim.
    destruct (Hclaim no_concepts_analysis (repeat (mcq_with_options 4) 11))
      as [analysis He]; [reflexivity|simpl; lia|].
    vm_compute in He. discriminate He.
Qed.

(** C9, as the code has it.  On a reply decoded to an object whose [mcqs]
    is a list, or absent (no items): without key concepts the operation
    fails with status 500 and the detail [No key concepts generated],
    however many items there are; with key concepts, fewer than 10 items
    fail it with status 500 and a detail that tells their number (one
    digit), nothing being padded, and 10 items or more succeed, the
    analysis returned holding exactly the first 10, as the model gave
    them, the others being dropped.  The options of an item are not
    counted. *)
Theorem C9_item_count_is_checked (d : pydict) (items : list pyval) :
  generated_items d items ->
  (has_key_concepts d = false ->
   checked_analysis (PDict d) =
   Err (http_error 500 (lit "No key concepts generated"))) /\
  (has_key_concepts d = true -> (length items < 10)%nat ->
   checked_analysis (PDict d) =
   Err (http_error 500
          (lit "AI returned only " ++ py_str_nat (length items)
             ++ lit " MCQs")) /\
   py_str_nat (length items) = [N.of_nat (48 + length items)]) /\
  (has_key_concepts d = true -> (10 <= length items)%nat ->
   checked_analysis (PDict d) =
   Ok (PDict [(lit "analysis",
               PDict (dict_set d (lit "mcqs") (PList (firstn 10 items))))]) /\
   length (firstn 10 items) = 10%nat /\
   exists dropped, items = firstn 10 items ++ dropped).
Proof.
  intros Hitems.
  assert (Hmcqs : dict_get_or d (lit "mcqs") (PList []) = PList items).
  { unfold dict_get_or.
    destruct Hitems as [-> |[-> ->]]; reflexivity. }
  assert (Hnone : has_key_concepts d = false ->
            checked_analysis (PDict d) =
            Err (http_error 500 (lit "No key concepts generated"))).
  { unfold has_key_concepts, checked_analysis, py_contains, py_item.
    destruct (dict_get d (lit "key_concepts")) as [concepts|];
      cbn [is_none negb]; [|reflexivity].
    intros ->. reflexivity. }
  assert (Hrun : has_key_concepts d = true ->
    checked_analysis (PDict d) =
    if (length items <? 10)%nat
    then Err (http_error 500
                (lit "AI returned only " ++ py_str_nat (length items)
                   ++ lit " MCQs"))
    else Ok (PDict [(lit "analysis",
               PDict (dict_set d (lit "mcqs") (PList (firstn 10 items))))])).
  { unfold has_key_concepts, checked_analysis, py_contains, py_item.
    destruct (dict_get d (lit "key_concepts")) as [concepts|];
      cbn [is_none negb]; [|discriminate].
    intros ->. cbn [negb]. rewrite Hmcqs. cbn [py_len].
    destruct (length items <? 10)%nat; reflexivity. }
  split; [exact Hnone|]. split.
  - intros Hk Hlt. rewrite (Hrun Hk).
    destruct (Nat.ltb_spec (length items) 10); [|lia].
    split; [reflexivity|]. apply py_str_nat_digit. exact Hlt.
  - intros Hk Hge. rewrite (Hrun Hk).
    destruct (Nat.ltb_spec (length items) 10); [lia|].
    split; [reflexivity|]. split.
    + rewrite length_firstn. lia.
    + exists (skipn 10 items). symmetry. apply firstn_skipn.
Qed.

Lemma C9_item_count_is_checked_witness :
  checked_analysis (analysis_with (repeat (mcq_with_options 4) 9)) =
  Err (http_error 500 (lit "AI returned only 9 MCQs")) /\
  checked_analysis (PDict [(lit "key_concepts", PList [PStr (lit "C")])]) =
  Err (http_error 500 (lit "AI returned only 0 MCQs")) /\
  exists dropped,
    repeat (mcq_with_options 3) 12
    = firstn 10 (repeat (mcq_with_options 3) 12) ++ dropped.
Proof.
  split; [|split].
  - refine (proj1 (proj1 (proj2 (C9_item_count_is_checked
      (analysis_fields (repeat (mcq_with_options 4) 9))
      (repeat (mcq_with_options 4) 9) (or_introl eq_refl))) eq_refl _)).
    simpl. lia.
  - refine (proj1 (proj1 (proj2 (C9_item_count_is_checked
      [(lit "key_concepts", PList [PStr (lit "C")])]
      [] (or_intror (conj eq_refl eq_refl)))) eq_refl _)).
    simpl. lia.
  - refine (proj2 (proj2 (proj2 (proj2 (C9_item_count_is_checked
      (analysis_fields (repeat (mcq_with_options 3) 12))
      (repeat (mcq_with_options 3) 12) (or_introl eq_refl))) eq_refl _))).
    simpl. lia.
Defined.

(** * Further properties *)

(** ** The controller, beyond the valid levels *)

(** X1.  One call moves the difficulty by at most one level, for every
    window and every integer difficulty. *)
Theorem difficulty_moves_one_level (window : list Z) (current : Z) :
  current - 1 <= calculate_adaptive_difficulty window current <= current + 1.
Proof.
  unfold calculate_adaptive_difficulty.
  destruct (_ <? 3); [lia|].
  destruct (_ && _); [lia|]. destruct (_ && _); lia.
Qed.

(** X2.  Once the window holds three entries the difficulty is kept only at
    an end of the scale: at 3 or above when at least two of the recent
    entries count, at 1 or below when at most one does.  At level 2 it
    always moves. *)
Theorem difficulty_held_only_at_an_end (window : list Z) (current : Z) :
  (3 <= length window)%nat ->
  let correct_count := py_sum (slice_last 3 window) in
  (calculate_adaptive_difficulty window current = current <->
   (2 <= correct_count /\ 3 <= current) \/ (correct_count <= 1 /\ current <= 1))
  /\ (current = 2 -> calculate_adaptive_difficulty window current <> 2).
Proof.
  intros Hlen. cbv zeta.
  rewrite (calculate_adaptive_difficulty_long window current Hlen). cbv zeta.
  set (n := py_sum (slice_last 3 window)).
  destruct (Z.leb_spec 2 n); destruct (Z.ltb_spec current 3); cbn [andb];
    try (split; [split; [intros; lia|intros [[? ?]|[? ?]]; lia]|intros; lia]);
    destruct (Z.leb_spec n 1); destruct (Z.ltb_spec 1 current); cbn [andb];
    split; try (split; [intros; lia|intros [[? ?]|[? ?]]; lia]); intros; lia.
Qed.

Lemma difficulty_held_only_at_an_end_witness :
  calculate_adaptive_difficulty [1; 0; 1] 2 <> 2.
Proof.
  refine (proj2 (difficulty_held_only_at_an_end [1; 0; 1] 2 _) eq_refl).
  simpl. lia.
Defined.

(** ** Weak topics, on any history *)

Lemma weak_topics_fold_app (h : list pydict) (acc : list pyval) :
  exists added, fold_left weak_topics_step h acc = acc ++ added.
Proof.
  revert acc. induction h as [|q h IH]; intros acc.
  - exists []. rewrite app_nil_r. reflexivity.
  - cbn [fold_left]. destruct (IH (weak_topics_step acc q)) as [added Ha].
    rewrite Ha. unfold weak_topics_step.
    destruct (negb (py_truthy _)); [|eauto].
    destruct (negb (py_in _ _)); [|eauto].
    rewrite <- app_assoc. eauto.
Qed.

Lemma weak_topics_fold_wrong (h : list pydict) (acc : list pyval) :
  fold_left weak_topics_step (filter answered_wrong h) acc
  = fold_left weak_topics_step h acc.
Proof.
  revert acc. induction h as [|q h IH]; intros acc; [reflexivity|].
  cbn [filter fold_left]. destruct (answered_wrong q) eqn:E.
  - cbn [fold_left]. apply IH.
  - rewrite IH. f_equal. unfold weak_topics_step.
    unfold answered_wrong in E. rewrite E. reflexivity.
Qed.

Lemma weak_topics_fold_length (h : list pydict) (acc : list pyval) :
  (length (fold_left weak_topics_step h acc)
   <= length acc + length (filter answered_wrong h))%nat.
Proof.
  revert acc. induction h as [|q h IH]; intros acc; cbn [fold_left filter].
  - lia.
  - specialize (IH (weak_topics_step acc q)).
    unfold weak_topics_step, answered_wrong in *.
    destruct (negb (py_truthy _)); [|exact IH].
    destruct (negb (py_in _ _)); cbn [length] in *;
      [rewrite length_app in IH; simpl in IH|]; lia.
Qed.

(** X3.  On any history, whatever its entries hold: the weak topics of a
    longer history start with those of the shorter one, in the same order;
    entries answered correctly play no part; and there are no more topics
    than incorrect answers. *)
Theorem weak_topics_only_grow (history later : list pydict) :
  (exists added,
     get_weak_topics (history ++ later) = get_weak_topics history ++ added) /\
  get_weak_topics (filter answered_wrong history) = get_weak_topics history /\
  (length (get_weak_topics history)
   <= length (filter answered_wrong history))%nat.
Proof.
  unfold get_weak_topics. split; [|split].
  - rewrite fold_left_app. apply weak_topics_fold_app.
  - apply weak_topics_fold_wrong.
  - apply (weak_topics_fold_length history []).
Qed.

(** X4.  An entry without the key [is_correct] counts as answered
    incorrectly, and an entry without the key [topic] is filed under
    [Unknown]: after such an entry [Unknown] is among the weak topics. *)
Theorem weak_topics_missing_keys (history : list pydict) (q : pydict) :
  dict_get q (lit "is_correct") = None ->
  dict_get q (lit "topic") = None ->
  In (PStr (lit "Unknown")) (get_weak_topics (history ++ [q])).
Proof.
  intros Hc Ht. rewrite get_weak_topics_snoc.
  unfold weak_topics_step, dict_get_or. rewrite Hc, Ht. cbn [py_truthy negb].
  destruct (py_in _ _) eqn:E; cbn [negb].
  - apply py_in_str. exact E.
  - apply in_or_app. right. left. reflexivity.
Qed.

Lemma weak_topics_missing_keys_witness :
  In (PStr (lit "Unknown"))
     (get_weak_topics (example_history ++ [[(lit "question", PStr (lit "Q"))]])).
Proof.
  apply (weak_topics_missing_keys example_history
           [(lit "question", PStr (lit "Q"))]); reflexivity.
Defined.

(** ** What [_parse_json_response] decodes *)

Lemma substring_refl (s : str) : substring s s.
Proof. exists [], []. rewrite app_nil_r. reflexivity. Qed.

Lemma substring_trans (a b c : str) :
  substring a b -> substring b c -> substring a c.
Proof.
  intros [p1 [q1 ->]] [p2 [q2 ->]]. exists (p2 ++ p1), (q1 ++ q2).
  rewrite <- !app_assoc. reflexivity.
Qed.

Lemma substring_firstn (n : nat) (s : str) : substring (firstn n s) s.
Proof. exists [], (skipn n s). simpl. symmetry. apply firstn_skipn. Qed.

Lemma substring_skipn (n : nat) (s : str) : substring (skipn n s) s.
Proof.
  exists (firstn n s), []. rewrite app_nil_r. symmetry. apply firstn_skipn.
Qed.

Lemma substring_lstrip (s : str) : substring (lstrip s) s.
Proof.
  induction s as [|c s IH]; [apply substring_refl|]. cbn [lstrip].
  destruct (is_space c); [|apply substring_refl].
  eapply substring_trans; [exact IH|]. exists [c], []. rewrite app_nil_r. reflexivity.
Qed.

Lemma rstrip_prefix (s : str) : exists w, s = rstrip s ++ w.
Proof.
  induction s as [|c s [w Hw]]; [exists []; reflexivity|]. cbn [rstrip].
  destruct (rstrip s) as [|k kept] eqn:E.
  - destruct (is_space c).
    + exists (c :: s). reflexivity.
    + exists w. simpl. simpl in Hw. congruence.
  - exists w. simpl. simpl in Hw. congruence.
Qed.

Lemma substring_rstrip (s : str) : substring (rstrip s) s.
Proof. destruct (rstrip_prefix s) as [w Hw]. exists [], w. exact Hw. Qed.

Lemma rstrip_idem (s : str) : rstrip (rstrip s) = rstrip s.
Proof.
  induction s as [|c s IH]; [reflexivity|]. cbn [rstrip].
  destruct (rstrip s) as [|k kept] eqn:E.
  - destruct (is_space c) eqn:Ec; [reflexivity|]. cbn [rstrip]. rewrite Ec.
    reflexivity.
  - cbn [rstrip] in *. rewrite IH. reflexivity.
Qed.

Lemma lstrip_head (s : str) (c : N) (r : str) :
  lstrip s = c :: r -> is_space c = false.
Proof.
  induction s as [|x s IH]; cbn [lstrip]; [discriminate|].
  destruct (is_space x) eqn:E; [exact IH|]. intros [= <- _]. exact E.
Qed.

Lemma lstrip_fixed (s : str) :
  match s with c :: _ => is_space c = false | [] => True end -> lstrip s = s.
Proof. destruct s as [|c s]; [reflexivity|]. cbn [lstrip]. intros ->. reflexivity. Qed.

Lemma strip_prefix_app (l s r : str) : strip_prefix l s = Some r -> s = l ++ r.
Proof.
  revert s. induction l as [|x l IH]; intros s; cbn [strip_prefix].
  - intros [= ->]. reflexivity.
  - destruct s as [|y s]; [discriminate|].
    destruct (N.eqb_spec x y) as [->|]; [|discriminate].
    intros H. rewrite (IH s H). reflexivity.
Qed.

Lemma block_interior_shape (after t : str) :
  block_interior after = Some t ->
  substring t after /\ lstrip t = t /\ rstrip t = t.
Proof.
  unfold block_interior.
  set (untagged := match strip_prefix (lit "json") after with
                   | Some rest => rest | None => after end).
  assert (Hu : substring untagged after).
  { unfold untagged. destruct (strip_prefix (lit "json") after) as [rest|] eqn:E;
      [|apply substring_refl].
    apply strip_prefix_app in E. exists (lit "json"), []. rewrite app_nil_r. exact E. }
  destruct (str_find backticks (lstrip untagged)) as [j|]; [|discriminate].
  intros [= <-]. split; [|split].
  - eapply substring_trans; [apply substring_rstrip|].
    eapply substring_trans; [apply substring_firstn|].
    eapply substring_trans; [apply substring_lstrip|exact Hu].
  - apply lstrip_fixed.
    destruct (rstrip_prefix (firstn j (lstrip untagged))) as [w Hw].
    destruct (rstrip (firstn j (lstrip untagged))) as [|c r]; [exact I|].
    destruct (lstrip untagged) as [|c' r'] eqn:El.
    + destruct j; discriminate Hw.
    + destruct j; [discriminate Hw|]. cbn [firstn] in Hw.
      injection Hw as <- _. exact (lstrip_head _ _ _ El).
  - apply rstrip_idem.
Qed.

Lemma fenced_interior_shape (raw t : str) :
  fenced_interior raw = Some t ->
  substring t raw /\ lstrip t = t /\ rstrip t = t.
Proof.
  unfold fenced_interior. destruct (str_find backticks raw) as [i|]; [|discriminate].
  intros H. destruct (block_interior_shape _ _ H) as [Hs Hr].
  split; [|exact Hr]. eapply substring_trans; [exact Hs|apply substring_skipn].
Qed.

Lemma str_find_brace_at (s : str) (i : nat) :
  str_find (lit "{") s = Some i -> exists r, skipn i s = 123%N :: r.
Proof.
  revert i. induction s as [|c s IH]; intros i; [discriminate|].
  rewrite str_find_brace_cons. destruct (N.eqb_spec 123 c) as [<-|].
  - intros [= <-]. exists s. reflexivity.
  - destruct (str_find (lit "{") s) as [k|]; [|discriminate].
    intros [= <-]. exact (IH k eq_refl).
Qed.

Lemma last_index_at (c : N) (s : str) (j : nat) :
  last_index c s = Some j -> exists mid, firstn (S j) s = mid ++ [c].
Proof.
  revert j. induction s as [|x s IH]; intros j; cbn [last_index]; [discriminate|].
  destruct (last_index c s) as [i|].
  - intros [= <-]. destruct (IH i eq_refl) as [mid Hm].
    exists (x :: mid). cbn [firstn] in *. rewrite Hm. reflexivity.
  - destruct (N.eqb_spec x c) as [->|]; [|discriminate].
    intros [= <-]. exists []. reflexivity.
Qed.

Lemma brace_span_shape (raw t : str) :
  brace_span raw = Some t ->
  substring t raw /\ exists mid, t = [123%N] ++ mid ++ [125%N].
Proof.
  unfold brace_span. destruct (str_find (lit "{") raw) as [i|] eqn:Ei; [|discriminate].
  destruct (last_index 125 (skipn (S i) raw)) as [j|] eqn:Ej; [|discriminate].
  intros [= <-]. split.
  - eapply substring_trans; [apply substring_firstn|apply substring_skipn].
  - destruct (str_find_brace_at raw i Ei) as [r Hr].
    assert (Hr' : skipn (S i) raw = r).
    { replace (S i) with (1 + i)%nat by lia. rewrite <- skipn_skipn, Hr. reflexivity. }
    rewrite Hr' in Ej. destruct (last_index_at _ _ _ Ej) as [mid Hm].
    exists mid. rewrite Hr. replace (j + 2)%nat with (S (S j)) by lia.
    change (firstn (S (S j)) (123%N :: r)) with (123%N :: firstn (S j) r).
    rewrite Hm. reflexivity.
Qed.

Section Decoded.
Context `{PythonRuntime}.

(** X5.  [_parse_json_response] fails in two ways only: with the
    [ValueError] of its last line, or with an exception other than
    [JSONDecodeError] that [json.loads] raised on a contiguous piece of
    the reply; and a value it returns was decoded by [json.loads] from a
    contiguous piece of the reply. *)
Theorem parse_result_comes_from_the_reply (raw : str) :
  (forall e, _parse_json_response raw = Err e ->
     e = parse_failure \/
     exists t, substring t raw /\ json_loads t = Raised e) /\
  (forall v, _parse_json_response raw = Ok v ->
     exists t, substring t raw /\ json_loads t = Decoded v).
Proof.
  rewrite parse_json_response_attempts. unfold parse_attempts.
  assert (Hstep : forall (candidate : option str) (rest : list decoded),
    (forall t, candidate = Some t -> substring t raw) ->
    let after := match first_outcome rest with
                 | Decoded v => Ok v
                 | DecodeError => Err parse_failure
                 | Raised e => Err e
                 end in
    ((forall e, after = Err e ->
        e = parse_failure \/
        exists t, substring t raw /\ json_loads t = Raised e) /\
     (forall v, after = Ok v ->
        exists t, substring t raw /\ json_loads t = Decoded v)) ->
    let now := match first_outcome (attempt candidate :: rest) with
               | Decoded v => Ok v
               | DecodeError => Err parse_failure
               | Raised e => Err e
               end in
    (forall e, now = Err e ->
       e = parse_failure \/
       exists t, substring t raw /\ json_loads t = Raised e) /\
    (forall v, now = Ok v ->
       exists t, substring t raw /\ json_loads t = Decoded v)).
  { intros candidate rest Hsub after Hafter now. subst now after.
    cbn [first_outcome]. destruct candidate as [t|]; cbn [attempt];
      [|exact Hafter].
    destruct (json_loads t) as [v0| |e0] eqn:E; [| exact Hafter |].
    - split; [discriminate|]. intros v [= <-]. exists t.
      split; [apply Hsub; reflexivity|exact E].
    - split; [|discriminate]. intros e [= <-]. right. exists t.
      split; [apply Hsub; reflexivity|exact E]. }
  apply (Hstep (Some raw)).
  { intros t [= <-]. apply substring_refl. }
  apply (Hstep (fenced_interior raw)).
  { intros t Ht. apply (fenced_interior_shape raw t Ht). }
  apply (Hstep (brace_span raw)).
  { intros t Ht. apply (brace_span_shape raw t Ht). }
  cbn [first_outcome]. split; [intros e [= <-]; left; reflexivity|discriminate].
Qed.
End Decoded.

(** X6.  The texts the two patterns hand to [json.loads]: group 1 of the
    fence pattern is a piece of the reply with no white space at either
    end, and the match of the brace pattern is a piece of the reply that
    starts with an opening and ends with a closing brace. *)
Theorem recovered_candidates_shape (raw : str) :
  (forall m, re_search fence_re raw = Some m ->
     exists t, group1 m = Some t /\ substring t raw /\
               lstrip t = t /\ rstrip t = t) /\
  (forall m, re_search brace_re raw = Some m ->
     substring (group0 m) raw /\
     exists mid, group0 m = [123%N] ++ mid ++ [125%N]).
Proof.
  split; intros m Hm.
  - pose proof (fence_search raw) as E. rewrite Hm in E. cbn [option_map] in E.
    destruct (fenced_interior raw) as [t|] eqn:Ef; [|discriminate E].
    injection E as E. exists t. split; [exact E|].
    exact (fenced_interior_shape raw t Ef).
  - pose proof (brace_search raw) as E. rewrite Hm in E. cbn [option_map] in E.
    symmetry in E. exact (brace_span_shape raw _ E).
Qed.

(** ** The question [generate_question] returns, case by case *)

Lemma singleton_inj {A} (a b : A) : [a] = [b] -> a = b.
Proof. intros [= ->]. reflexivity. Qed.

Section Generated.
Context `{PythonRuntime}.

(** X7.  [generate_question] sends exactly one prompt.  The prompt carries
    at most the first 6000 characters of the document and at most the last
    10 of the questions asked so far; the record returned has the
    difficulty asked for and its name, whatever the model replied. *)
Theorem generate_question_prompt_and_level
  (content : str) (difficulty : Z) (asked : list pyval)
  (focus : option str) (sv : chat_service) :
  let outcome := generate_question content difficulty asked focus sv in
  (exists name doc earlier topic,
     snd outcome = [QuestionPrompt name doc earlier topic] /\
     Z.of_nat (length doc) <= 6000 /\ (exists rest, content = doc ++ rest) /\
     (length earlier <= 10)%nat /\ (exists older, asked = older ++ earlier)) /\
  dict_get (fst outcome) (lit "difficulty") = Some (PInt difficulty) /\
  dict_get (fst outcome) (lit "difficulty_name")
  = Some (PStr (difficulty_level_name difficulty)).
Proof.
  cbv zeta. split; [|split].
  - unfold generate_question, chat_bind, _call_chat, chat_ret. cbn [fst snd].
    eexists _, _, _, _. split; [reflexivity|]. split; [|split; [|split]].
    + unfold slice_first. rewrite length_firstn.
      assert (Hn : Z.of_nat (Z.to_nat 6000) = 6000) by (apply Z2Nat.id; lia).
      revert Hn. generalize (Z.to_nat 6000). intros n Hn. lia.
    + exists (skipn (Z.to_nat 6000) content). unfold slice_first.
      symmetry. apply firstn_skipn.
    + destruct asked as [|a l]; [simpl; lia|].
      unfold slice_last. rewrite length_skipn. lia.
    + destruct asked as [|a l]; [exists []; reflexivity|].
      exists (firstn (length (a :: l) - 10) (a :: l)). unfold slice_last.
      symmetry. apply firstn_skipn.
  - apply generate_question_difficulty.
  - unfold generate_question, chat_bind, _call_chat, chat_ret. cbn [fst].
    unfold question_from_reply.
    destruct (sv _) as [text|e]; [|reflexivity].
    destruct (_parse_json_response text) as [v|e]; [|reflexivity].
    destruct v; try reflexivity. cbn [set_item]. apply dict_get_set_same.
Qed.

(** X8.  What the record is, by what came back for the one prompt sent: an
    exception of the service, or a reply that cannot be decoded, gives the
    sentinel with the text of the exception; a reply decoded to something
    other than an object gives a sentinel as well; a reply decoded to an
    object gives that object with every key of the model kept, other than
    the two the handler writes. *)
Theorem generate_question_outcomes
  (content : str) (difficulty : Z) (asked : list pyval)
  (focus : option str) (sv : chat_service) (p : prompt) :
  snd (generate_question content difficulty asked focus sv) = [p] ->
  let q := fst (generate_question content difficulty asked focus sv) in
  let sentinel := error_question difficulty (difficulty_level_name difficulty) in
  (forall e, sv p = Err e -> q = sentinel (exn_message e)) /\
  (forall text e, sv p = Ok text -> _parse_json_response text = Err e ->
     q = sentinel (exn_message e)) /\
  (forall text v, sv p = Ok text -> _parse_json_response text = Ok v ->
     (forall d, v <> PDict d) -> exists msg, q = sentinel msg) /\
  (forall text d, sv p = Ok text -> _parse_json_response text = Ok (PDict d) ->
     forall key, str_eqb (lit "difficulty") key = false ->
                 str_eqb (lit "difficulty_name") key = false ->
                 dict_get q key = dict_get d key).
Proof.
  unfold generate_question, chat_bind, _call_chat, chat_ret. cbn [fst snd].
  intros Hp. apply singleton_inj in Hp. subst p.
  cbv zeta. unfold question_from_reply.
  split; [|split; [|split]].
  - intros e ->. reflexivity.
  - intros text e -> ->. reflexivity.
  - intros text v -> -> Hv.
    destruct v; cbn [set_item]; try (eexists; reflexivity).
    exfalso. exact (Hv _ eq_refl).
  - intros text d -> -> key H1 H2. cbn [set_item].
    rewrite dict_get_set_other by exact H2.
    apply dict_get_set_other. exact H1.
Qed.
End Generated.

Lemma generate_question_outcomes_witness :
  fst (@generate_question reference_runtime (lit "Some notes.") 2 [] None
         (always_replies (lit "[1, 2]")))
  = error_question 2 (lit "medium")
      (lit "list indices must be integers or slices, not str").
Proof.
  destruct (proj1 (proj2 (proj2
    (@generate_question_outcomes reference_runtime (lit "Some notes.") 2 []
       None (always_replies (lit "[1, 2]")) _ eq_refl)))
    (lit "[1, 2]") (PList [PInt 1; PInt 2]) eq_refl eq_refl)
    as [msg Hmsg].
  - intros d. discriminate.
  - rewrite Hmsg. vm_compute in Hmsg. injection Hmsg as Hm. rewrite <- Hm.
    reflexivity.
Defined.

(** ** Runs, state by state *)

Section Runs.
Context `{PythonRuntime}.

(** The session a run of the question screen ends in: a question may have
    been generated; after that the session is left alone, or one of the
    four buttons of the screen has had its effect. *)
Lemma render_question_run (inp : run_input) (s : Session) :
  let s' := snd (render_question inp s) in
  exists s1,
    (s1 = s \/
     (show_feedback s = false /\ exists content,
        pdf_content s = Some content /\ s1 = with_question inp s content)) /\
    (s' = s1 \/
     (st_button inp TryAgain = true /\
      (exists q, current_question s1 = Some q /\
                 py_truthy (dict_get_or q (lit "error") PNone) = true) /\
      s' = set_current_question None s1) \/
     (show_feedback s = true /\ st_button inp NextQuestion = true /\
      s' = next_question_state s1) \/
     (show_feedback s = true /\ st_button inp FinishAssessment = true /\
      s' = set_assessment_complete true s1) \/
     (show_feedback s = false /\ st_button inp SubmitAnswer = true /\
      exists content q options answer correct_answer,
        pdf_content s = Some content /\ s1 = with_question inp s content /\
        q = generated inp s content /\
        py_truthy (dict_get_or q (lit "error") PNone) = false /\
        dict_get_or q (lit "options") (PDict []) = PDict options /\
        chosen_option inp options = Some answer /\
        dict_get_or q (lit "correct_answer") (PStr []) = PStr correct_answer /\
        s' = snd (record_answer q answer
                    (graded inp s1 q options answer correct_answer) s1))).
Proof.
  cbv zeta. unfold render_question. rewrite snd_bind.
  pose proof (ensure_question_run inp s) as Hgen.
  destruct (ensure_question inp s) as [[[]|e] s1]; cbn [fst snd];
    [|exists s; subst s1; auto].
  exists s1.
  assert (Hs1 : s1 = s \/
     (show_feedback s = false /\ exists content,
        pdf_content s = Some content /\ s1 = with_question inp s content)).
  { destruct Hgen as [[_ ->]|[Hsf [c [Hc ->]]]]; [auto|]. right. eauto. }
  split; [exact Hs1|].
  assert (Hsf1 : show_feedback s1 = show_feedback s).
  { destruct Hgen as [[_ ->]|[_ [c [_ ->]]]]; reflexivity. }
  rewrite snd_bind_gets.
  rewrite snd_bind_reads by exact get_performance_metrics_reads.
  destruct (fst (get_performance_metrics s1)) as [metrics|]; [|auto].
  rewrite snd_bind_gets.
  rewrite snd_bind_reads by exact (level_entry_reads _).
  destruct (fst (level_entry _ s1)); [|auto].
  rewrite snd_bind_reads by exact (level_entry_reads _).
  destruct (fst (level_entry _ s1)); [|auto].
  destruct (current_question s1) as [question|] eqn:Eq; [|auto].
  destruct (py_truthy _) eqn:Eerr.
  - destruct (st_button inp TryAgain) eqn:Eb; [|auto]. right. left.
    split; [reflexivity|]. split; [|reflexivity]. exists question. auto.
  - rewrite snd_bind_reads by exact (level_entry_of_reads _).
    destruct (fst (level_entry_of _ s1)); [|auto].
    rewrite snd_bind_gets, Hsf1.
    destruct (show_feedback s) eqn:Esf; cbn [negb].
    + unfold feedback_view. rewrite snd_bind_gets.
      destruct (last_feedback s1) as [fb|]; [|auto].
      rewrite snd_bind.
      match goal with |- context [fst (?c s1)] =>
        assert (Hc : snd (c s1) = s1)
      end.
      { destruct (is_correct fb); [reflexivity|].
        destruct (dict_get_or question (lit "options") (PDict []));
          try reflexivity;
          destruct (dict_get_or question (lit "correct_answer") (PStr []));
          reflexivity. }
      rewrite Hc.
      match goal with |- context [match ?r with Ok _ => _ | Err _ => _ end] =>
        destruct r; [|auto]
      end.
      destruct (st_button inp NextQuestion) eqn:En.
      * right. right. left. auto.
      * destruct (st_button inp FinishAssessment) eqn:Ef; [|auto].
        right. right. right. left. auto.
    + destruct Hgen as [[Ht _]|[_ [content [Hc Hw]]]]; [discriminate Ht|].
      assert (Hq : question = generated inp s content).
      { rewrite Hw in Eq.
        change (Some (generated inp s content) = Some question) in Eq.
        congruence. }
      unfold answer_form.
      destruct (dict_get_or question (lit "options") (PDict [])) eqn:Eo;
        try (left; reflexivity).
      destruct (st_button inp SubmitAnswer) eqn:Es; [|left; reflexivity].
      fold (chosen_option inp entries).
      destruct (chosen_option inp entries) as [answer|] eqn:Ea;
        [|left; reflexivity].
      destruct (dict_get_or question (lit "correct_answer") (PStr [])) eqn:Ec;
        try (left; reflexivity).
      right. right. right. right.
      split; [reflexivity|]. split; [reflexivity|].
      exists content, question, entries, answer, s0.
      rewrite <- Hq. repeat (split; [assumption || reflexivity|]).
      rewrite snd_bind_gets. reflexivity.
Qed.

(** The session the sidebar leaves: a new key may have been stored, then a
    new document loaded. *)
Lemma render_sidebar_run (inp : run_input) (s : Session) :
  exists s1,
    (s1 = s \/ (typed_api_key inp <> [] /\ s1 = with_key (typed_api_key inp) s)) /\
    (snd (render_sidebar inp s) = s1 \/
     exists name content,
       uploaded_file inp = Some (name, Ok content) /\
       snd (render_sidebar inp s) = load_document content name s1).
Proof.
  unfold render_sidebar. rewrite snd_bind_gets, snd_bind.
  match goal with |- context [fst (?c s)] =>
    assert (Hkey : fst (c s) = Ok tt /\
              (snd (c s) = s \/
               (typed_api_key inp <> [] /\
                snd (c s) = with_key (typed_api_key inp) s)));
    [|destruct Hkey as [-> Hs1]; set (s1 := snd (c s)) in *]
  end.
  { destruct (typed_api_key inp) as [|c k]; [split; auto|].
    destruct (negb _); (split; [reflexivity|]); [right|left; reflexivity].
    split; [discriminate|reflexivity]. }
  exists s1. split; [exact Hs1|]. clearbody s1. clear Hs1. rewrite snd_bind.
  match goal with |- context [fst (?c s1)] =>
    assert (Hdoc : fst (c s1) = Ok tt /\
              (snd (c s1) = s1 \/
               exists name content,
                 uploaded_file inp = Some (name, Ok content) /\
                 snd (c s1) = load_document content name s1));
    [|destruct Hdoc as [-> Hs2]; set (s2 := snd (c s1)) in *]
  end.
  { destruct (uploaded_file inp) as [[name extracted]|]; [|split; auto].
    rewrite snd_bind_gets. unfold bind, gets. cbn [fst].
    destruct (negb _); [|split; auto].
    destruct extracted as [content|e]; (split; [reflexivity|]); [|auto].
    right. exists name, content. split; reflexivity. }
  assert (Hend : forall k : M unit, reads k ->
            snd (bind (gets assessment_started)
                   (fun started => if started then
                      bind get_performance_metrics
                        (fun metrics => level_entry (m_current_difficulty metrics))
                    else ret tt) s2) = s2).
  { intros _ _. rewrite snd_bind_gets.
    destruct (assessment_started s2); [|reflexivity].
    rewrite snd_bind_reads by exact get_performance_metrics_reads.
    destruct (fst (get_performance_metrics s2)); [|reflexivity].
    apply level_entry_reads. }
  rewrite (Hend (ret tt) (fun s => eq_refl)). clear Hend.
  clearbody s2. destruct Hs2 as [->|[name [content [Hu ->]]]]; [auto|].
  right. eauto.
Qed.

(** [main]: the sidebar, then one screen. *)
Lemma main_run (inp : run_input) (s : Session) :
  snd (main inp s) = snd (render_sidebar inp s) \/
  let s2 := snd (render_sidebar inp s) in
  (assessment_complete s2 = true /\ snd (main inp s) = snd (render_results inp s2)) \/
  (assessment_complete s2 = false /\ assessment_started s2 = true /\
   snd (main inp s) = snd (render_question inp s2)) \/
  (assessment_complete s2 = false /\ assessment_started s2 = false /\
   snd (main inp s) = snd (render_welcome inp s2)).
Proof.
  unfold main. rewrite snd_bind.
  destruct (fst (render_sidebar inp s)); [|auto]. right. cbv zeta.
  rewrite !snd_bind_gets.
  destruct (assessment_complete _); [auto|].
  destruct (assessment_started _); auto.
Qed.

Lemma render_results_run (inp : run_input) (s : Session) :
  snd (render_results inp s) = s \/
  (st_button inp StartNewAssessment = true /\ snd (render_results inp s) = restart s).
Proof.
  unfold render_results.
  rewrite snd_bind_reads by exact get_performance_metrics_reads.
  destruct (fst (get_performance_metrics s)); [|auto].
  rewrite snd_bind_reads by exact (level_entry_reads _).
  destruct (fst (level_entry _ s)); [|auto].
  destruct (st_button inp StartNewAssessment); auto.
Qed.

Lemma render_welcome_run (inp : run_input) (s : Session) :
  snd (render_welcome inp s) = s \/
  (opt_str_truthy (api_key s) = true /\ opt_str_truthy (pdf_content s) = true /\
   st_button inp StartAssessment = true /\
   snd (render_welcome inp s) = set_assessment_started true s).
Proof.
  unfold render_welcome. rewrite !snd_bind_gets.
  destruct (opt_str_truthy (api_key s)); [|auto].
  destruct (opt_str_truthy (pdf_content s)); [|auto].
  destruct (st_button inp StartAssessment); auto.
Qed.
End Runs.

(** ** How the scoring state evolves *)

Lemma st_button_clicked (inp : run_input) (b : button) :
  st_button inp b = true -> clicked inp = Some b.
Proof.
  unfold st_button. destruct (clicked inp) as [c|]; [|discriminate].
  destruct c, b; simpl; intros E; try discriminate E; reflexivity.
Qed.

Section Scoring.
Context `{PythonRuntime}.

Lemma render_question_scoring (inp : run_input) (s : Session) :
  scoring (snd (render_question inp s)) = scoring s \/
  (clicked inp = Some SubmitAnswer /\ show_feedback s = false /\
   exists q answer correct,
     recorded_difficulty q (current_difficulty s) /\
     scoring (snd (render_question inp s)) = after_answer s q answer correct).
Proof.
  destruct (render_question_run inp s) as [s1 [Hs1 Hs']].
  assert (E1 : scoring s1 = scoring s).
  { destruct Hs1 as [->|[_ [c [_ ->]]]]; reflexivity. }
  destruct Hs' as [->|[[_ [_ ->]]|[[_ [_ ->]]|[[_ [_ ->]]|Hsub]]]];
    try (left; exact E1).
  destruct Hsub as [Hsf [Hb [c [q [o [a [ca [_ [Hw [Hq [_ [_ [_ [_ ->]]]]]]]]]]]]]].
  right. split; [exact (st_button_clicked _ _ Hb)|]. split; [exact Hsf|].
  exists q, a, (is_correct (graded inp s1 q o a ca)).
  split; [rewrite Hq; apply generate_question_difficulty|].
  rewrite record_answer_scoring. cbv zeta. unfold after_answer.
  unfold scoring in E1. injection E1 as Eh Ew Ec Em Et Er.
  rewrite Eh, Ew, Ec, Em, Et, Er. reflexivity.
Qed.

Lemma main_scoring_cases (inp : run_input) (s : Session) :
  scoring (snd (main inp s)) = scoring s \/
  (scoring (snd (main inp s)) = scoring init_session_state /\
   reset_requested inp) \/
  (clicked inp = Some SubmitAnswer /\
   exists q answer correct,
     recorded_difficulty q (current_difficulty s) /\
     scoring (snd (main inp s)) = after_answer s q answer correct).
Proof.
  destruct (render_sidebar_run inp s) as [s1 [Hs1 Hs2]].
  assert (E1 : scoring s1 = scoring s).
  { destruct Hs1 as [->|[_ ->]]; reflexivity. }
  set (s2 := snd (render_sidebar inp s)) in *.
  assert (E2 : scoring s2 = scoring s \/
               (scoring s2 = scoring init_session_state /\
                assessment_started s2 = false /\
                assessment_complete s2 = false /\ reset_requested inp)).
  { destruct Hs2 as [->|[name [content [Hu ->]]]]; [left; exact E1|].
    right. repeat split. left. eauto. }
  destruct (main_run inp s) as [->|Hm]; fold s2.
  { destruct E2 as [E2|[E2 [_ [_ R]]]]; auto. }
  cbv zeta in Hm. fold s2 in Hm.
  destruct Hm as [[_ ->]|[[Hc [Hst ->]]|[_ [_ ->]]]].
  - destruct (render_results_run inp s2) as [->|[Hb ->]].
    + destruct E2 as [E2|[E2 [_ [_ R]]]]; auto.
    + right. left. split; [reflexivity|]. right.
      exact (st_button_clicked _ _ Hb).
  - destruct E2 as [E2|[_ [Hst' _]]]; [|congruence].
    destruct (render_question_scoring inp s2) as [->|[Hb [_ [q [a [c [Hq ->]]]]]]];
      [left; exact E2|].
    right. right. split; [exact Hb|]. exists q, a, c.
    unfold recorded_difficulty, after_answer in *. unfold scoring in E2.
    injection E2 as Eh Ew Ec Em Et Er. rewrite Ec in Hq.
    rewrite Eh, Ew, Ec, Em, Et, Er. split; [exact Hq|reflexivity].
  - destruct (render_welcome_run inp s2) as [->|[_ [_ [_ ->]]]];
      change (scoring (set_assessment_started true s2)) with (scoring s2);
      destruct E2 as [E2|[E2 [_ [_ R]]]]; auto.
Qed.

(** The scoring states of reachable sessions, by induction: the initial
    one, and the one after an answer recorded at the current difficulty. *)
Lemma reachable_scoring_ind
  (P : list pydict * list Z * Z * Z * Z * Z -> Prop) :
  P (scoring init_session_state) ->
  (forall s q answer correct,
     session_ok s -> P (scoring s) ->
     recorded_difficulty q (current_difficulty s) ->
     P (after_answer s q answer correct)) ->
  forall s, reachable s -> P (scoring s).
Proof.
  intros Hinit Hstep s Hr. induction Hr as [|s inp Hr IH]; [exact Hinit|].
  destruct (main_scoring_cases inp s) as [E|[[E _]|[_ [q [a [c [Hq E]]]]]]];
    rewrite E; [exact IH|exact Hinit|].
  apply Hstep; [apply reachable_ok; exact Hr|exact IH|exact Hq].
Qed.

(** X9.  A run of the application changes the scoring state (history,
    window, difficulty, peak, counters) in two ways only: it resets it to
    the initial one, when a new document was read or the restart button
    pressed; or it records one answer, when the submit button was pressed:
    one entry and one bit appended, the difficulty updated from the new
    window, the peak raised to it if higher, the counters moved up. *)
Theorem score_changes_only_on_submit_or_reset (inp : run_input) (s : Session) :
  let s' := snd (main inp s) in
  scoring s' = scoring s \/
  (scoring s' = scoring init_session_state /\ reset_requested inp) \/
  (clicked inp = Some SubmitAnswer /\
   exists (q : pydict) (answer : str) (correct : bool),
     let bit := if correct then 1 else 0 in
     let new := calculate_adaptive_difficulty (performance_window s ++ [bit])
                  (current_difficulty s) in
     questions_history s' = questions_history s ++ [history_entry q answer correct] /\
     performance_window s' = performance_window s ++ [bit] /\
     current_difficulty s' = new /\
     max_difficulty_reached s' = Z.max (max_difficulty_reached s) new /\
     total_questions s' = total_questions s + 1 /\
     correct_answers s' = correct_answers s + bit).
Proof.
  cbv zeta.
  destruct (main_scoring_cases inp s) as [E|[E|[Hb [q [a [c [_ E]]]]]]]; auto.
  right. right. split; [exact Hb|]. exists q, a, c.
  unfold scoring, after_answer in E. injection E as -> -> -> -> -> ->.
  repeat split.
Qed.

Lemma py_sum_app (a b : list Z) : py_sum (a ++ b) = py_sum a + py_sum b.
Proof.
  unfold py_sum. rewrite fold_left_app, py_sum_from. reflexivity.
Qed.

(** X10.  In every reachable session the books agree: the counter of
    answers is the length of the history and of the window; entry by entry,
    the window holds 1 where the history says [is_correct] and 0 where it
    says not; and the counter of correct answers is the sum of the
    window. *)
Theorem session_books_agree (s : Session) :
  reachable s ->
  total_questions s = Z.of_nat (length (questions_history s)) /\
  length (performance_window s) = length (questions_history s) /\
  Forall2 bit_matches_entry (performance_window s) (questions_history s) /\
  correct_answers s = py_sum (performance_window s).
Proof.
  intros Hr. pose proof (reachable_ok s Hr) as [_ _ _ Ht _ Hl _].
  split; [exact Ht|]. split; [exact Hl|].
  pose proof (reachable_scoring_ind
    (fun '(history, window, _, _, _, correct) =>
       Forall2 bit_matches_entry window history /\ correct = py_sum window))
    as Hind.
  specialize (Hind (conj (Forall2_nil _) eq_refl)).
  apply (fun step => Hind step s Hr). clear.
  intros s q a c _ [Hf Hc] _. unfold after_answer. split.
  - apply Forall2_app; [exact Hf|]. constructor; [|constructor].
    unfold bit_matches_entry. destruct c; reflexivity.
  - rewrite py_sum_app, Hc. unfold py_sum at 3. simpl. reflexivity.
Qed.
End Scoring.

Lemma session_books_agree_witness :
  correct_answers sample_session = py_sum (performance_window sample_session).
Proof.
  apply (@session_books_agree reference_runtime sample_session).
  apply reachable_play. apply reach_init.
Defined.

(** ** Metrics of a reachable session *)

(** On a well-formed session the call returns, with a finite accuracy
    from 0 to 100 and a finite mean difficulty from 1 to the peak. *)
Lemma session_ok_metrics (s : Session) :
  session_ok s ->
  exists m accuracy mean,
    get_performance_metrics s = (Ok m, s) /\
    m_max_difficulty_reached m = max_difficulty_reached s /\
    m_current_difficulty m = current_difficulty s /\
    num_value (m_accuracy m) = Some accuracy /\
    (0 <= accuracy)%Q /\ (accuracy <= 100)%Q /\
    num_value (m_avg_difficulty m) = Some mean /\
    (1 <= mean)%Q /\ (mean <= inject_Z (max_difficulty_reached s))%Q.
Proof.
  intros [Hl Hp Hh Ht Hc _ _].
  destruct (recorded_difficulties _ _ Hh) as [ds [Hrec Hds]].
  rewrite (get_performance_metrics_value s ds Ht Hrec).
  assert (Hpeak : (1 <= inject_Z (max_difficulty_reached s))%Q)
    by (change 1%Q with (inject_Z 1); rewrite <- Zle_Qle; lia).
  destruct (Z.eqb_spec (total_questions s) 0) as [E0|N0].
  - eexists _, 0%Q, 1%Q. split; [reflexivity|]. cbn.
    repeat split; try reflexivity; try lra.
  - destruct (percentage_value (correct_answers s) (total_questions s) Hc
                ltac:(lia)) as [a [Ha [Ha0 [Ha1 _]]]].
    assert (Hne : ds <> []).
    { intros ->. inversion Hrec as [Hh0|]. rewrite <- Hh0 in Ht.
      cbn in Ht. lia. }
    destruct (mean_value ds _ Hne Hds Hp) as [b [Hb [Hb1 [Hbp _]]]].
    rewrite Ha, Hb. eexists _, a, b. split; [reflexivity|]. cbn.
    repeat split; assumption.
Qed.

Section ReachableMetrics.
Context `{PythonRuntime}.

(** X11.  In every reachable session [get_performance_metrics] returns
    normally, the accuracy lies between 0 and 100, and the mean difficulty
    lies between 1 and the peak difficulty, which is at most 3. *)
Theorem metrics_are_in_range (s : Session) :
  reachable s ->
  exists m accuracy mean,
    get_performance_metrics s = (Ok m, s) /\
    num_value (m_accuracy m) = Some accuracy /\
    (0 <= accuracy <= 100)%Q /\
    num_value (m_avg_difficulty m) = Some mean /\
    (1 <= mean <= inject_Z (max_difficulty_reached s))%Q /\
    max_difficulty_reached s <= 3.
Proof.
  intros Hr. pose proof (reachable_ok s Hr) as Hok.
  destruct (session_ok_metrics s Hok)
    as [m [a [b [Hm [_ [_ [Ha [Ha0 [Ha1 [Hb [Hb1 Hbp]]]]]]]]]]].
  exists m, a, b. split; [exact Hm|]. split; [exact Ha|].
  split; [split; assumption|]. split; [exact Hb|].
  split; [split; assumption|]. destruct Hok. assumption.
Qed.
End ReachableMetrics.

Lemma metrics_are_in_range_witness :
  exists m accuracy,
    get_performance_metrics sample_session = (Ok m, sample_session) /\
    num_value (m_accuracy m) = Some accuracy /\
    (0 <= accuracy <= 100)%Q.
Proof.
  destruct (@metrics_are_in_range reference_runtime sample_session
              (reachable_play _ _ reach_init))
    as [m [a [_ [Hm [Ha [Hr _]]]]]].
  exists m, a. split; [exact Hm|]. split; [exact Ha|exact Hr].
Defined.

(** ** The flow between the screens *)

Lemma record_answer_frame (question : pydict) (answer : str) (fb : Feedback)
  (s : Session) :
  let s' := snd (record_answer question answer fb s) in
  pdf_content s' = pdf_content s /\ pdf_name s' = pdf_name s /\
  api_key s' = api_key s /\ llm s' = llm s /\
  assessment_started s' = assessment_started s /\
  assessment_complete s' = assessment_complete s /\
  current_question s' = current_question s /\
  asked_questions s' = asked_questions s /\
  show_feedback s' = true /\
  exists change,
    last_feedback s'
    = Some (mk_feedback (is_correct fb) (feedback fb) (suggestion fb) change).
Proof.
  cbv zeta. unfold record_answer, bind, gets, modify, ret.
  destruct (is_correct fb); cbn;
    remember (calculate_adaptive_difficulty _ _) as new eqn:Enew;
    destruct (Z.ltb_spec (max_difficulty_reached s) new); cbn;
    repeat (split; [reflexivity|]); eexists; reflexivity.
Qed.

Section Flow.
Context `{PythonRuntime}.

Lemma session_flow_init : session_flow init_session_state.
Proof. constructor; simpl; [reflexivity|discriminate|discriminate]. Qed.

Lemma session_flow_same (s s' : Session) :
  llm s' = llm s -> api_key s' = api_key s -> pdf_content s' = pdf_content s ->
  assessment_started s' = assessment_started s ->
  assessment_complete s' = assessment_complete s ->
  session_flow s -> session_flow s'.
Proof.
  intros El Ek Ec Es Ed [Hh Hs Hc].
  constructor; rewrite ?El, ?Ek, ?Ec, ?Es, ?Ed; assumption.
Qed.

Lemma render_sidebar_flow (inp : run_input) (s : Session) :
  session_flow s -> session_flow (snd (render_sidebar inp s)).
Proof.
  intros Hf. destruct (render_sidebar_run inp s) as [s1 [Hs1 Hs2]].
  assert (Hf1 : session_flow s1).
  { destruct Hs1 as [->|[Hk ->]]; [exact Hf|].
    destruct Hf as [Hh Hs Hc]. constructor; cbn.
    - reflexivity.
    - intros Hst. split; [|exact (proj2 (Hs Hst))].
      destruct (typed_api_key inp); [contradiction|reflexivity].
    - exact Hc. }
  destruct Hs2 as [->|[name [content [_ ->]]]]; [exact Hf1|].
  destruct Hf1 as [Hh _ _]. constructor; cbn; [exact Hh|discriminate|discriminate].
Qed.

Lemma render_question_flow (inp : run_input) (s : Session) :
  assessment_started s = true ->
  session_flow s -> session_flow (snd (render_question inp s)).
Proof.
  intros Hst Hf. destruct (render_question_run inp s) as [s1 [Hs1 Hs']].
  assert (Hf1 : session_flow s1 /\ assessment_started s1 = true).
  { destruct Hs1 as [->|[_ [c [_ ->]]]]; [auto|].
    split; [|exact Hst]. revert Hf. apply session_flow_same; reflexivity. }
  destruct Hf1 as [Hf1 Hst1].
  destruct Hs' as [->|[[_ [_ ->]]|[[_ [_ ->]]|[[_ [_ ->]]|Hsub]]]];
    try exact Hf1;
    try (revert Hf1; apply session_flow_same; reflexivity).
  - destruct Hf1 as [Hh Hs Hc]. constructor; cbn; auto.
  - destruct Hsub as [_ [_ [c [q [o [a [ca [_ [_ [_ [_ [_ [_ [_ ->]]]]]]]]]]]]]].
    destruct (record_answer_frame q a (graded inp s1 q o a ca) s1)
      as [Ec [_ [Ek [El [Es [Ed _]]]]]].
    revert Hf1. apply session_flow_same; assumption.
Qed.

Lemma main_flow (inp : run_input) (s : Session) :
  session_flow s -> session_flow (snd (main inp s)).
Proof.
  intros Hf. pose proof (render_sidebar_flow inp s Hf) as Hf2.
  destruct (main_run inp s) as [->|Hm]; [exact Hf2|].
  cbv zeta in Hm. set (s2 := snd (render_sidebar inp s)) in *.
  destruct Hm as [[_ ->]|[[_ [Hst ->]]|[_ [_ ->]]]].
  - destruct (render_results_run inp s2) as [->|[_ ->]]; [exact Hf2|].
    destruct Hf2 as [Hh _ _].
    constructor; cbn; [exact Hh|discriminate|discriminate].
  - apply render_question_flow; assumption.
  - destruct (render_welcome_run inp s2) as [->|[Hk [Hc [_ ->]]]]; [exact Hf2|].
    destruct Hf2 as [Hh Hs Hd]. constructor; cbn; auto.
Qed.

Lemma reachable_flow (s : Session) : reachable s -> session_flow s.
Proof.
  induction 1 as [|s inp _ IH]; [exact session_flow_init|].
  apply main_flow. exact IH.
Qed.

(** X12.  In every reachable session that shows the question or the
    results screen, a key has been stored, the handler is built from it,
    and the text of the document is not empty; so the block that generates
    a question never stops on a missing handler or a missing document.  A
    completed assessment is a started one. *)
Theorem question_screen_has_key_and_document (s : Session) :
  reachable s ->
  (assessment_complete s = true -> assessment_started s = true) /\
  (assessment_started s = true ->
   opt_str_truthy (api_key s) = true /\ llm s = api_key s /\
   opt_str_truthy (pdf_content s) = true /\
   forall inp, fst (ensure_question inp s) = Ok tt).
Proof.
  intros Hr. destruct (reachable_flow s Hr) as [Hh Hs Hc].
  split; [exact Hc|]. intros Hst. destruct (Hs Hst) as [Hk Hd].
  split; [exact Hk|]. split; [exact Hh|]. split; [exact Hd|].
  intros inp. unfold ensure_question, bind, gets, modify, ret, raise. cbn.
  destruct (show_feedback s); cbn.
  - rewrite orb_false_r. destruct (is_none (current_question s)); reflexivity.
  - rewrite orb_true_r, Hh.
    destruct (api_key s) as [[|c k]|]; try discriminate Hk.
    destruct (pdf_content s) as [[|c' d]|]; try discriminate Hd.
    reflexivity.
Qed.
End Flow.

Lemma question_screen_has_key_and_document_witness :
  opt_str_truthy (pdf_content sample_session) = true.
Proof.
  refine (proj1 (proj2 (proj2 (proj2
    (@question_screen_has_key_and_document reference_runtime sample_session
       (reachable_play _ _ reach_init)) _)))).
  vm_compute. reflexivity.
Defined.

(** ** The question screen, run to its end *)

Lemma bind_ok {A B} (c : M A) (k : A -> M B) (s s1 : Session) (a : A) :
  c s = (Ok a, s1) -> bind c k s = k a s1.
Proof. intros E. unfold bind. rewrite E. reflexivity. Qed.

Lemma bind_gets {A B} (f : Session -> A) (k : A -> M B) (s : Session) :
  bind (gets f) k s = k (f s) s.
Proof. reflexivity. Qed.

Lemma metrics_returns (s : Session) :
  session_ok s ->
  exists m, get_performance_metrics s = (Ok m, s) /\
            m_max_difficulty_reached m = max_difficulty_reached s /\
            m_current_difficulty m = current_difficulty s.
Proof.
  intros Hok.
  destruct (session_ok_metrics s Hok) as [m [_ [_ [Hm [Hmax [Hcur _]]]]]].
  exists m. split; [exact Hm|]. split; assumption.
Qed.

Lemma level_entry_returns (level : Z) (s : Session) :
  1 <= level <= 3 -> level_entry level s = (Ok tt, s).
Proof.
  intros Hl. assert (E : level = 1 \/ level = 2 \/ level = 3) by lia.
  destruct E as [->|[->| ->]]; reflexivity.
Qed.

Lemma level_entry_of_returns (level : Z) (s : Session) :
  1 <= level <= 3 -> level_entry_of (PInt level) s = (Ok tt, s).
Proof.
  intros Hl. assert (E : level = 1 \/ level = 2 \/ level = 3) by lia.
  destruct E as [->|[->| ->]]; reflexivity.
Qed.

Lemma record_answer_returns (question : pydict) (answer : str) (fb : Feedback)
  (s : Session) :
  fst (record_answer question answer fb s) = Ok tt.
Proof.
  unfold record_answer, bind, gets, modify, ret.
  destruct (is_correct fb); cbn;
    remember (calculate_adaptive_difficulty _ _) as new eqn:Enew;
    destruct (Z.ltb_spec (max_difficulty_reached s) new); reflexivity.
Qed.

Lemma chosen_option_some (inp : run_input) (options : pydict) :
  options <> [] <-> exists answer, chosen_option inp options = Some answer.
Proof.
  unfold chosen_option, dict_keys. destruct options as [|[k v] rest]; cbn [map].
  - split; [intros N; contradiction|intros [a Ha]; discriminate Ha].
  - split; [eauto|discriminate].
Qed.

Lemma feedback_ready_same (s s' : Session) :
  show_feedback s' = show_feedback s ->
  current_question s' = current_question s ->
  last_feedback s' = last_feedback s ->
  feedback_ready s -> feedback_ready s'.
Proof. unfold feedback_ready. intros -> -> ->. auto. Qed.

Section QuestionScreenRuns.
Context `{PythonRuntime}.

Lemma ensure_question_returns (inp : run_input) (s : Session) :
  session_flow s -> assessment_started s = true ->
  fst (ensure_question inp s) = Ok tt.
Proof.
  intros [Hh Hs _] Hst. destruct (Hs Hst) as [Hk Hd].
  unfold ensure_question, bind, gets, modify, ret, raise. cbn.
  destruct (show_feedback s); cbn.
  - rewrite orb_false_r. destruct (is_none (current_question s)); reflexivity.
  - rewrite orb_true_r, Hh.
    destruct (api_key s) as [[|c k]|]; try discriminate Hk.
    destruct (pdf_content s) as [[|c' d]|]; try discriminate Hd.
    reflexivity.
Qed.

Lemma render_sidebar_feedback_ready (inp : run_input) (s : Session) :
  feedback_ready s -> feedback_ready (snd (render_sidebar inp s)).
Proof.
  destruct (render_sidebar_run inp s) as [s1 [Hs1 Hs2]].
  destruct Hs2 as [->|[name [content [_ ->]]]];
    destruct Hs1 as [->|[_ ->]]; apply feedback_ready_same; reflexivity.
Qed.

Lemma render_question_feedback_ready (inp : run_input) (s : Session) :
  session_ok s -> feedback_ready s ->
  feedback_ready (snd (render_question inp s)).
Proof.
  intros Hok Hfr. destruct (render_question_run inp s) as [s1 [Hs1 Hs']].
  assert (Hfr1 : feedback_ready s1).
  { destruct Hs1 as [->|[Hsf [c [_ ->]]]]; [exact Hfr|].
    intros Ht. cbn in Ht. congruence. }
  destruct Hs' as [->|[[_ [[q [Eq Eerr]] ->]]|[[_ [_ ->]]|[[_ [_ ->]]|Hsub]]]].
  - exact Hfr1.
  - intros Ht. destruct (Hfr1 Ht) as [q' [_ [Eq' [_ [Eerr' _]]]]]. congruence.
  - intros Ht. discriminate Ht.
  - revert Hfr1. apply feedback_ready_same; reflexivity.
  - destruct Hsub as [_ [_ [c [q [o [a [ca [_ [E1 [Eq [Eerr [Eo [Ea [Eca ->]]]]]]]]]]]]]].
    destruct (record_answer_frame q a (graded inp s1 q o a ca) s1)
      as [_ [_ [_ [_ [_ [_ [Ecur [_ [_ [change Efb]]]]]]]]]].
    intros _. exists q. eexists. split.
    { rewrite Ecur, E1, Eq. reflexivity. }
    split; [exact Efb|]. split; [exact Eerr|]. split.
    + exists o, ca. split; [exact Eo|]. split; [|exact Eca].
      apply (proj2 (chosen_option_some inp o)). eauto.
    + exists (current_difficulty s). split.
      * rewrite Eq. apply generate_question_difficulty.
      * destruct Hok. lia.
Qed.

Lemma main_feedback_ready (inp : run_input) (s : Session) :
  session_ok s -> feedback_ready s -> feedback_ready (snd (main inp s)).
Proof.
  intros Hok Hfr. pose proof (render_sidebar_feedback_ready inp s Hfr) as Hfr2.
  pose proof (render_sidebar_ok inp s Hok) as Hok2.
  destruct (main_run inp s) as [->|Hm]; [exact Hfr2|].
  cbv zeta in Hm. set (s2 := snd (render_sidebar inp s)) in *.
  destruct Hm as [[_ ->]|[[_ [_ ->]]|[_ [_ ->]]]].
  - destruct (render_results_run inp s2) as [->|[_ ->]]; [exact Hfr2|].
    intros Ht. discriminate Ht.
  - apply render_question_feedback_ready; assumption.
  - destruct (render_welcome_run inp s2) as [->|[_ [_ [_ ->]]]]; [exact Hfr2|].
    revert Hfr2. apply feedback_ready_same; reflexivity.
Qed.

Lemma reachable_feedback_ready (s : Session) : reachable s -> feedback_ready s.
Proof.
  induction 1 as [|s inp Hr IH]; [intros Ht; discriminate Ht|].
  apply main_feedback_ready; [apply reachable_ok; exact Hr|exact IH].
Qed.

Lemma on_question_screen_session (inp : run_input) (s2 : Session) :
  on_question_screen inp s2 ->
  session_ok s2 /\ session_flow s2 /\ feedback_ready s2 /\
  assessment_started s2 = true.
Proof.
  intros [s [Hr [-> [_ Hst]]]].
  split; [apply render_sidebar_ok, reachable_ok, Hr|].
  split; [apply render_sidebar_flow, reachable_flow, Hr|].
  split; [apply render_sidebar_feedback_ready, reachable_feedback_ready, Hr|].
  exact Hst.
Qed.

(** X13.  On the question screen of a run from a reachable session, when
    every question the model's replies give is flagged as an error or has
    options and a string as its correct answer, [render_question] ends
    normally, whatever button was pressed: no look-up of a level fails, a
    question and, while feedback is shown, a feedback are there. *)
Theorem question_screen_ends_normally (inp : run_input) (s2 : Session) :
  on_question_screen inp s2 -> asks_well inp ->
  fst (render_question inp s2) = Ok tt.
Proof.
  intros Hscreen Hw.
  destruct (on_question_screen_session inp s2 Hscreen) as [Hok [Hf [Hfr Hst]]].
  pose proof (ensure_question_run inp s2) as Hgen.
  pose proof (ensure_question_returns inp s2 Hf Hst) as Hens.
  unfold render_question.
  destruct (ensure_question inp s2) as [[[]|e] s1] eqn:Eens; cbn [fst] in Hens;
    [|discriminate Hens].
  rewrite (bind_ok _ _ _ _ _ Eens).
  assert (Hok1 : session_ok s1).
  { destruct Hgen as [[_ ->]|[_ [c [_ ->]]]]; [exact Hok|].
    revert Hok. apply session_ok_scoring. reflexivity. }
  assert (Hsf1 : show_feedback s1 = show_feedback s2).
  { destruct Hgen as [[_ ->]|[_ [c [_ ->]]]]; reflexivity. }
  assert (Hq : exists q,
            current_question s1 = Some q /\
            (exists d, recorded_difficulty q d /\ 1 <= d <= 3) /\
            (py_truthy (dict_get_or q (lit "error") PNone) = true \/
             answerable q) /\
            (show_feedback s2 = true -> exists fb, last_feedback s1 = Some fb)).
  { destruct Hgen as [[Esf ->]|[Esf [c [Hc ->]]]].
    - destruct (Hfr Esf) as [q [fb [Eq [Efb [_ [Ha Hd]]]]]].
      exists q. split; [exact Eq|]. split; [exact Hd|].
      split; [right; exact Ha|]. intros _. eauto.
    - exists (generated inp s2 c). split; [reflexivity|]. split.
      + exists (current_difficulty s2).
        split; [apply generate_question_difficulty|]. destruct Hok. lia.
      + split; [apply Hw|]. intros Et. congruence. }
  destruct Hq as [q [Eq [[d [Hd Hdr]] [Hshape Hshown]]]].
  rewrite bind_gets, Eq.
  destruct (metrics_returns s1 Hok1) as [m [Hm [Hmax _]]].
  rewrite (bind_ok _ _ _ _ _ Hm), bind_gets.
  rewrite (bind_ok _ _ _ _ _ (level_entry_returns (current_difficulty s1) s1
             ltac:(destruct Hok1; lia))).
  rewrite (bind_ok _ _ _ _ _ (level_entry_returns (m_max_difficulty_reached m) s1
             ltac:(rewrite Hmax; destruct Hok1; lia))).
  destruct (py_truthy (dict_get_or q (lit "error") PNone)) eqn:Eerr.
  { destruct (st_button inp TryAgain); reflexivity. }
  destruct Hshape as [Ht|[o [ca [Eo [Hne Eca]]]]]; [discriminate Ht|].
  assert (Edq : dict_get_or q (lit "difficulty") (PInt 1) = PInt d).
  { unfold dict_get_or. unfold recorded_difficulty in Hd. rewrite Hd.
    reflexivity. }
  rewrite Edq, (bind_ok _ _ _ _ _ (level_entry_of_returns d s1 Hdr)).
  rewrite bind_gets, Hsf1.
  destruct (show_feedback s2) eqn:Esf; cbn [negb].
  - destruct (Hshown eq_refl) as [fb Efb].
    unfold feedback_view. rewrite bind_gets, Efb, Eo, Eca.
    destruct (is_correct fb);
      (rewrite (bind_ok _ _ s1 s1 tt) by reflexivity);
      (destruct (st_button inp NextQuestion); [reflexivity|]);
      destruct (st_button inp FinishAssessment); reflexivity.
  - unfold answer_form. rewrite Eo, Eca.
    destruct (st_button inp SubmitAnswer); [|reflexivity].
    fold (chosen_option inp o).
    destruct (proj1 (chosen_option_some inp o) Hne) as [a Ea]. rewrite Ea.
    rewrite bind_gets. apply record_answer_returns.
Qed.

(** X14.  Pressing Submit on the question screen while no feedback is
    shown: the answer is graded against the question generated in this
    same run (the one stored before plays no part), by comparing the
    chosen key and the correct answer in upper case; the run ends
    normally, the scoring state is the one [after_answer] describes, the
    generated question is stored and its text appended to the questions
    asked, and the feedback is put on display. *)
Theorem submit_grades_the_generated_question (inp : run_input) (s2 : Session)
  (content : str) (options : pydict) (answer correct_answer : str) :
  on_question_screen inp s2 ->
  show_feedback s2 = false ->
  st_button inp SubmitAnswer = true ->
  pdf_content s2 = Some content ->
  let q := generated inp s2 content in
  py_truthy (dict_get_or q (lit "error") PNone) = false ->
  dict_get_or q (lit "options") (PDict []) = PDict options ->
  chosen_option inp options = Some answer ->
  dict_get_or q (lit "correct_answer") (PStr []) = PStr correct_answer ->
  let correct := str_eqb (str_upper answer) (str_upper correct_answer) in
  let s' := snd (render_question inp s2) in
  fst (render_question inp s2) = Ok tt /\
  scoring s' = after_answer s2 q answer correct /\
  current_question s' = Some q /\
  asked_questions s'
  = asked_questions s2 ++ [dict_get_or q (lit "question") (PStr [])] /\
  show_feedback s' = true /\
  exists fb, last_feedback s' = Some fb /\ is_correct fb = correct.
Proof.
  intros Hscreen Hsf Hsub Hc q Eerr Eo Ea Eca correct s'.
  destruct (on_question_screen_session inp s2 Hscreen) as [Hok [Hf [_ Hst]]].
  set (s1 := with_question inp s2 content).
  assert (Eens : ensure_question inp s2 = (Ok tt, s1)).
  { destruct Hf as [Hh Hs _]. destruct (Hs Hst) as [Hk _].
    unfold ensure_question, bind, gets, modify, ret, raise. cbn.
    rewrite Hsf. cbn. rewrite orb_true_r, Hh.
    destruct (api_key s2) as [[|c k]|]; try discriminate Hk.
    rewrite Hc. reflexivity. }
  assert (Hok1 : session_ok s1).
  { revert Hok. apply session_ok_scoring. reflexivity. }
  set (fb := graded inp s1 q options answer correct_answer).
  assert (Erun : render_question inp s2 = record_answer q answer fb s1).
  { unfold render_question. rewrite (bind_ok _ _ _ _ _ Eens), bind_gets.
    change (current_question s1) with (Some q).
    destruct (metrics_returns s1 Hok1) as [m [Hm [Hmax _]]].
    rewrite (bind_ok _ _ _ _ _ Hm), bind_gets.
    rewrite (bind_ok _ _ _ _ _ (level_entry_returns (current_difficulty s1) s1
               ltac:(destruct Hok1; lia))).
    rewrite (bind_ok _ _ _ _ _ (level_entry_returns (m_max_difficulty_reached m) s1
               ltac:(rewrite Hmax; destruct Hok1; lia))).
    rewrite Eerr.
    assert (Edq : dict_get_or q (lit "difficulty") (PInt 1)
                  = PInt (current_difficulty s2)).
    { unfold dict_get_or, q, generated.
      rewrite generate_question_difficulty. reflexivity. }
    rewrite Edq, (bind_ok _ _ _ _ _ (level_entry_of_returns
                    (current_difficulty s2) s1 ltac:(destruct Hok; lia))).
    rewrite bind_gets. change (show_feedback s1) with (show_feedback s2).
    rewrite Hsf. cbn [negb]. unfold answer_form. rewrite Eo, Eca, Hsub.
    fold (chosen_option inp options). rewrite Ea, bind_gets. reflexivity. }
  subst s'. rewrite Erun.
  pose proof (record_answer_scoring q answer fb s1) as Hscore.
  destruct (record_answer_frame q answer fb s1)
    as [_ [_ [_ [_ [_ [_ [Ecur [Easked [Eshow [change Efb]]]]]]]]]].
  assert (Efbc : is_correct fb = correct).
  { subst correct. unfold fb, graded, evaluate_answer.
    destruct (str_eqb _ _); [reflexivity|].
    unfold chat_bind, _call_chat, chat_ret. cbn [fst].
    destruct (service inp _); reflexivity. }
  split; [apply record_answer_returns|].
  split; [rewrite Hscore, Efbc; reflexivity|].
  split; [exact Ecur|]. split; [exact Easked|]. split; [exact Eshow|].
  eexists. split; [exact Efb|]. exact Efbc.
Qed.
End QuestionScreenRuns.

Lemma question_reply_asks_well (pressed : option button) :
  @asks_well reference_runtime (quiz_input question_reply pressed).
Proof.
  intros content difficulty asked. cbv zeta. right.
  unfold generate_question, chat_bind, _call_chat, chat_ret. cbn [fst].
  unfold question_from_reply.
  change (service (quiz_input question_reply pressed) _) with (Ok question_reply).
  remember (@_parse_json_response reference_runtime question_reply) as r eqn:Er.
  vm_compute in Er. subst r. cbn [set_item].
  exists [(lit "A", PStr (lit "x")); (lit "B", PStr (lit "y"))], (lit "A").
  split; [reflexivity|]. split; [discriminate|reflexivity].
Qed.

Lemma question_screen_ends_normally_witness :
  let inp := quiz_input question_reply (Some NextQuestion) in
  fst (@render_question reference_runtime inp
         (snd (render_sidebar inp sample_session))) = Ok tt.
Proof.
  intros inp.
  apply (@question_screen_ends_normally reference_runtime inp).
  - exists sample_session. split; [exact (reachable_play _ _ reach_init)|].
    split; [reflexivity|]. split; vm_compute; reflexivity.
  - apply question_reply_asks_well.
Defined.

Lemma submit_grades_the_generated_question_witness :
  let inp := quiz_input question_reply (Some SubmitAnswer) in
  let s2 := snd (render_sidebar inp first_question_shown) in
  fst (@render_question reference_runtime inp s2) = Ok tt /\
  total_questions (snd (@render_question reference_runtime inp s2)) = 1.
Proof.
  intros inp s2.
  destruct (@submit_grades_the_generated_question reference_runtime inp s2
              (lit "Some notes.")
              [(lit "A", PStr (lit "x")); (lit "B", PStr (lit "y"))]
              (lit "A") (lit "A")) as [Hret [Hscore _]].
  - exists first_question_shown.
    split; [exact (reachable_play _ _ reach_init)|].
    split; [reflexivity|]. split; vm_compute; reflexivity.
  - vm_compute. reflexivity.
  - vm_compute. reflexivity.
  - vm_compute. reflexivity.
  - vm_compute. reflexivity.
  - vm_compute. reflexivity.
  - vm_compute. reflexivity.
  - vm_compute. reflexivity.
  - split; [exact Hret|].
    pose proof (f_equal (fun t => snd (fst t)) Hscore) as Ht.
    change (total_questions (snd (@render_question reference_runtime inp s2))
            = total_questions s2 + 1) in Ht.
    rewrite Ht. vm_compute. reflexivity.
Defined.

(** ** Uploading a document *)

Lemma range_from_below (count start stop step : nat) :
  Forall (fun i => (i < stop)%nat) (range_from count start stop step).
Proof.
  revert start. induction count as [|count IH]; intros start; cbn [range_from].
  - constructor.
  - destruct (Nat.ltb_spec start stop); constructor; [assumption|apply IH].
Qed.

Lemma range_from_length (count start stop : nat) :
  (stop - start <= count)%nat ->
  let k := length (range_from count start stop 800) in
  (stop - start <= k * 800)%nat /\
  ((start < stop)%nat -> ((k - 1) * 800 < stop - start)%nat).
Proof.
  revert start. induction count as [|count IH]; intros start Hc;
    cbn [range_from].
  - cbn. lia.
  - destruct (Nat.ltb_spec start stop) as [Hlt|Hge]; [|cbn; lia].
    specialize (IH (start + 800)%nat ltac:(lia)). cbv zeta in IH |- *.
    cbn [length]. destruct IH as [Hup Hlow]. split; [lia|]. intros _.
    destruct (Nat.lt_ge_cases (start + 800) stop) as [Hmore|Hlast].
    + specialize (Hlow Hmore). lia.
    + destruct count as [|count']; [cbn; lia|]. cbn [range_from].
      destruct (Nat.ltb_spec (start + 800) stop); [lia|]. cbn. lia.
Qed.

Lemma chunks_round_trip (text : str) (count start : nat) :
  (length text - start <= count)%nat ->
  concat (map (fun i => firstn 800 (py_slice i (i + 900) text))
            (range_from count start (length text) 800))
  = skipn start text.
Proof.
  revert start. induction count as [|count IH]; intros start Hc;
    cbn [range_from map concat].
  - symmetry. apply skipn_all2. lia.
  - destruct (Nat.ltb_spec start (length text)) as [Hlt|Hge];
      cbn [map concat].
    + rewrite IH by lia. unfold py_slice.
      rewrite firstn_firstn.
      replace (Nat.min 800 (start + 900 - start)) with 800%nat by lia.
      replace (start + 800)%nat with (800 + start)%nat by lia.
      rewrite <- skipn_skipn. apply firstn_skipn.
    + symmetry. apply skipn_all2. lia.
Qed.

Lemma extracted_text_concat (pages : list (option str)) :
  extracted_text pages
  = concat (map (fun page => match page with Some t => t | None => [] end) pages).
Proof.
  unfold extracted_text.
  assert (G : forall acc,
            fold_left (fun text page =>
                         text ++ match page with Some t => t | None => [] end)
              pages acc
            = acc ++ concat (map (fun page =>
                                    match page with Some t => t | None => [] end)
                               pages)).
  { induction pages as [|p ps IH]; intros acc; cbn [fold_left map concat].
    - rewrite app_nil_r. reflexivity.
    - rewrite IH, <- app_assoc. reflexivity. }
  apply (G []).
Qed.

Lemma rstrip_length (s : str) : (length (rstrip s) <= length s)%nat.
Proof.
  induction s as [|c s IH]; [cbn; lia|]. cbn [rstrip].
  destruct (rstrip s) as [|k ks].
  - destruct (is_space c); cbn; lia.
  - cbn [length] in *. lia.
Qed.

Lemma lstrip_length (s : str) : (length (lstrip s) <= length s)%nat.
Proof.
  induction s as [|c s IH]; [cbn; lia|]. cbn [lstrip].
  destruct (is_space c); cbn [length]; lia.
Qed.

(** X15.  [upload] refuses a document whose text, white space at the ends
    apart, has fewer than 100 characters, with status 400.  Otherwise it
    stores the chunks of the text: the first 800 characters of the chunks,
    put end to end, are the text again; a chunk has between 1 and 900
    characters; there is one chunk for every 800 characters begun, one id
    and one metadata entry per chunk, and [total_chunks] counts them. *)
Theorem upload_chunks_cover_the_text (filename : str) (pages : list (option str)) :
  let text := extracted_text pages in
  ((length (rstrip (lstrip text)) < 100)%nat ->
   upload filename pages = Err (http_error 400 (lit "No readable text"))) /\
  ((100 <= length (rstrip (lstrip text)))%nat ->
   exists r,
     upload filename pages = Ok r /\
     concat (map (firstn 800) (stored_documents r)) = text /\
     Forall (fun chunk => (1 <= length chunk <= 900)%nat) (stored_documents r) /\
     ((total_chunks r - 1) * 800 < length text <= total_chunks r * 800)%nat /\
     total_chunks r = length (stored_documents r) /\
     length (stored_ids r) = total_chunks r /\
     length (stored_metadatas r) = total_chunks r /\
     length (chunk_previews r) = total_chunks r).
Proof.
  cbv zeta. unfold upload. set (text := extracted_text pages).
  split; intros Hlen.
  - destruct (Nat.ltb_spec (length (rstrip (lstrip text))) 100); [reflexivity|lia].
  - destruct (Nat.ltb_spec (length (rstrip (lstrip text))) 100); [lia|].
    eexists. split; [reflexivity|].
    cbn [stored_documents stored_ids stored_metadatas total_chunks
         chunk_previews].
    assert (Htext : (100 <= length text)%nat).
    { pose proof (rstrip_length (lstrip text)).
      pose proof (lstrip_length text). lia. }
    unfold py_range. split; [|split; [|split]].
    + rewrite map_map.
      rewrite (chunks_round_trip text (length text) 0) by lia. reflexivity.
    + apply Forall_map.
      eapply Forall_impl; [|apply range_from_below].
      intros i Hi. cbv beta in Hi |- *. unfold py_slice.
      rewrite length_firstn, length_skipn. lia.
    + rewrite length_map.
      pose proof (range_from_length (length text) 0 (length text) ltac:(lia))
        as Hk.
      cbv zeta in Hk. lia.
    + rewrite ?length_map, ?repeat_length, ?length_seq, ?length_map.
      repeat split; reflexivity.
Qed.

Lemma upload_chunks_cover_the_text_witness :
  exists r, upload (lit "notes.pdf") sample_pages = Ok r /\ total_chunks r = 2%nat.
Proof.
  destruct (proj2 (upload_chunks_cover_the_text (lit "notes.pdf") sample_pages))
    as [r [Hr [_ [_ [Hcount _]]]]].
  - vm_compute. lia.
  - exists r. split; [exact Hr|].
    change (length (extracted_text sample_pages))
      with (length (repeat 97%N 1000)) in Hcount.
    rewrite repeat_length in Hcount. lia.
Defined.

(** ** What a successful revision holds *)

Lemma checked_analysis_success (parsed v : pyval) :
  checked_analysis parsed = Ok v ->
  exists d concepts kept,
    parsed = PDict d /\
    dict_get d (lit "key_concepts") = Some concepts /\
    py_truthy concepts = true /\
    py_slice_first 10 (dict_get_or d (lit "mcqs") (PList [])) = Ok kept /\
    py_len kept = Ok 10%nat /\
    v = PDict [(lit "analysis", PDict (dict_set d (lit "mcqs") kept))].
Proof.
  unfold checked_analysis.
  destruct parsed as [| | | |s|l|d]; try discriminate.
  - unfold py_contains, py_item.
    destruct (negb (is_none (str_find (lit "key_concepts") s)));
      cbn [negb]; discriminate.
  - unfold py_contains, py_item.
    destruct (py_in (PStr (lit "key_concepts")) l); cbn [negb]; discriminate.
  - unfold py_contains, py_item.
    destruct (dict_get d (lit "key_concepts")) as [concepts|] eqn:Ek;
      cbn [is_none negb]; [|discriminate].
    destruct (py_truthy concepts) eqn:Et; cbn [negb]; [|discriminate].
    set (mcqs := dict_get_or d (lit "mcqs") (PList [])).
    destruct (py_len mcqs) as [count|e] eqn:El; [|discriminate].
    destruct (Nat.ltb_spec count 10) as [Hlt|Hge]; [discriminate|].
    destruct (py_slice_first 10 mcqs) as [kept|e] eqn:Es; [|discriminate].
    intros [= <-]. exists d, concepts, kept.
    repeat (split; [reflexivity || assumption|]). split; [|reflexivity].
    clearbody mcqs.
    destruct mcqs as [| | | |t|items|fields]; try discriminate Es;
      unfold py_slice_first, slice_first in Es; unfold py_len in El.
    + assert (Hk : kept = PStr (firstn 10 t)) by congruence.
      assert (Hc : count = length t) by congruence.
      subst kept count. cbn [py_len]. rewrite length_firstn. f_equal. lia.
    + assert (Hk : kept = PList (firstn 10 items)) by congruence.
      assert (Hc : count = length items) by congruence.
      subst kept count. cbn [py_len]. rewrite length_firstn. f_equal. lia.
Qed.

Section Revision.
Context `{PythonRuntime}.

(** X16.  When [revise] succeeds, the store held a document for the chunk,
    the model was sent its first 1400 characters, and its reply, white
    space at the ends apart, decoded to an object with key concepts that
    are not empty; the analysis returned is that object with [mcqs] cut to
    its first ten, of which there are exactly ten, every other key being
    left as the model gave it. *)
Theorem revise_success_shape (documents : list str)
  (co_chat : str -> result str) (v : pyval) :
  revise documents co_chat = Ok v ->
  exists document rest reply d concepts kept,
    documents = document :: rest /\
    co_chat (slice_first 1400 document) = Ok reply /\
    json_loads (rstrip (lstrip reply)) = Decoded (PDict d) /\
    dict_get d (lit "key_concepts") = Some concepts /\
    py_truthy concepts = true /\
    py_slice_first 10 (dict_get_or d (lit "mcqs") (PList [])) = Ok kept /\
    py_len kept = Ok 10%nat /\
    v = PDict [(lit "analysis", PDict (dict_set d (lit "mcqs") kept))] /\
    forall key, str_eqb (lit "mcqs") key = false ->
      dict_get (dict_set d (lit "mcqs") kept) key = dict_get d key.
Proof.
  unfold revise. destruct documents as [|document rest]; [discriminate|].
  unfold llm_text.
  destruct (co_chat (slice_first 1400 document)) as [reply|e] eqn:Ereply;
    [|discriminate].
  destruct (rstrip (lstrip reply)) as [|c t] eqn:Estrip; [discriminate|].
  destruct (json_loads (c :: t)) as [parsed| |e] eqn:Eloads; try discriminate.
  intros Hv.
  destruct (checked_analysis_success parsed v Hv)
    as [d [concepts [kept [-> [Ek [Et [Es [El ->]]]]]]]].
  exists document, rest, reply, d, concepts, kept.
  split; [reflexivity|]. split; [exact Ereply|].
  split; [rewrite <- Estrip in Eloads; exact Eloads|].
  repeat (split; [assumption || reflexivity|]).
  intros key Hkey. apply dict_get_set_other. exact Hkey.
Qed.
End Revision.

Lemma revise_success_shape_witness :
  exists v kept,
    @revise reference_runtime [lit "Cells divide."] (fun _ => Ok revision_reply)
    = Ok v /\
    py_len kept = Ok 10%nat.
Proof.
  assert (Hv : { v | @revise reference_runtime [lit "Cells divide."]
                       (fun _ => Ok revision_reply) = Ok v }).
  { eexists. vm_compute. reflexivity. }
  destruct Hv as [v Hv].
  destruct (@revise_success_shape reference_runtime _ _ v Hv)
    as [_ [_ [_ [_ [_ [kept [_ [_ [_ [_ [_ [_ [Hlen _]]]]]]]]]]]]].
  exists v, kept. split; [exact Hv|exact Hlen].
Defined.

(** ** The topics to review in the report *)

Lemma count_topic_keys (topic_counts : list (pyval * Z)) (topic : pyval) :
  map fst (count_topic topic_counts topic)
  = if negb (py_in topic (map fst topic_counts))
    then map fst topic_counts ++ [topic]
    else map fst topic_counts.
Proof.
  induction topic_counts as [|[key count] rest IH]; [reflexivity|].
  cbn [count_topic map fst]. unfold py_in in *. cbn [existsb].
  destruct (py_same topic key); [reflexivity|]. cbn [orb map fst].
  rewrite IH. destruct (negb _); reflexivity.
Qed.

Lemma count_topic_sum (topic_counts : list (pyval * Z)) (topic : pyval) :
  py_sum (map snd (count_topic topic_counts topic))
  = py_sum (map snd topic_counts) + 1.
Proof.
  induction topic_counts as [|[key count] rest IH]; [reflexivity|].
  cbn [count_topic]. destruct (py_same topic key); cbn [map snd];
    rewrite !py_sum_cons; [|rewrite IH]; lia.
Qed.

Lemma count_topic_positive (topic_counts : list (pyval * Z)) (topic : pyval) :
  Forall (fun line => 1 <= snd line) topic_counts ->
  Forall (fun line => 1 <= snd line) (count_topic topic_counts topic).
Proof.
  induction 1 as [|[key count] rest Hc Hrest IH]; cbn [count_topic].
  - constructor; [cbn; lia|constructor].
  - destruct (py_same topic key); constructor; cbn [snd] in *;
      try lia; assumption.
Qed.

Lemma count_fold (step : result (list (pyval * Z)) -> pyval ->
                         result (list (pyval * Z)))
  (weak_topics : list pyval) (topic_counts : list (pyval * Z)) :
  (forall counts topic, hashable topic = true ->
     step (Ok counts) topic = Ok (count_topic counts topic)) ->
  Forall (fun topic => hashable topic = true) weak_topics ->
  exists counts,
    fold_left step weak_topics (Ok topic_counts) = Ok counts /\
    map fst counts
    = fold_left (fun seen topic =>
                   if negb (py_in topic seen) then seen ++ [topic] else seen)
        weak_topics (map fst topic_counts) /\
    py_sum (map snd counts)
    = py_sum (map snd topic_counts) + Z.of_nat (length weak_topics) /\
    (Forall (fun line => 1 <= snd line) topic_counts ->
     Forall (fun line => 1 <= snd line) counts).
Proof.
  intros Hstep Hweak. revert topic_counts.
  induction Hweak as [|topic rest Hh _ IH]; intros topic_counts.
  - exists topic_counts. cbn [fold_left length].
    repeat split; [lia|auto].
  - cbn [fold_left]. rewrite (Hstep _ _ Hh).
    destruct (IH (count_topic topic_counts topic)) as [counts [Hf [Hk [Hs Hp]]]].
    exists counts. split; [exact Hf|]. split; [|split].
    + rewrite Hk, count_topic_keys. reflexivity.
    + rewrite Hs, count_topic_sum. cbn [length]. lia.
    + intros Hpos. apply Hp, count_topic_positive, Hpos.
Qed.

Lemma weak_topics_by_topic (history : list pydict) (seen : list pyval) :
  fold_left weak_topics_step history seen
  = fold_left (fun seen topic =>
                 if negb (py_in topic seen) then seen ++ [topic] else seen)
      (map topic_of (filter answered_wrong history)) seen.
Proof.
  revert seen. induction history as [|q history IH]; intros seen;
    [reflexivity|].
  cbn [filter fold_left]. rewrite IH.
  unfold weak_topics_step at 1. unfold answered_wrong at 2.
  destruct (negb (py_truthy _)); reflexivity.
Qed.

Lemma insert_by_count_permutation (item : pyval * Z) (sorted : list (pyval * Z)) :
  Permutation (insert_by_count item sorted) (item :: sorted).
Proof.
  induction sorted as [|other rest IH]; cbn [insert_by_count]; [reflexivity|].
  destruct (_ <=? _); [reflexivity|].
  rewrite IH. apply perm_swap.
Qed.

Lemma sorted_by_count_permutation (items : list (pyval * Z)) :
  Permutation (sorted_by_count items) items.
Proof.
  induction items as [|item items IH]; [reflexivity|].
  cbn [sorted_by_count fold_right]. fold (sorted_by_count items).
  rewrite insert_by_count_permutation. constructor. exact IH.
Qed.

Lemma insert_by_count_sorted (item : pyval * Z) (sorted : list (pyval * Z)) :
  StronglySorted (fun a b => snd b <= snd a) sorted ->
  StronglySorted (fun a b => snd b <= snd a) (insert_by_count item sorted).
Proof.
  induction 1 as [|other rest Hs IH Hall]; cbn [insert_by_count].
  - constructor; constructor.
  - destruct (Z.leb_spec (- snd item) (- snd other)) as [Hle|Hgt].
    + constructor; [constructor; assumption|].
      constructor; [lia|].
      eapply Forall_impl; [|exact Hall]. cbv beta. intros line Hl. lia.
    + constructor; [exact IH|].
      eapply Permutation_Forall;
        [symmetry; apply insert_by_count_permutation|].
      constructor; [lia|exact Hall].
Qed.

Lemma sorted_by_count_sorted (items : list (pyval * Z)) :
  StronglySorted (fun a b => snd b <= snd a) (sorted_by_count items).
Proof.
  induction items as [|item items IH]; [constructor|].
  cbn [sorted_by_count fold_right]. apply insert_by_count_sorted, IH.
Qed.

Lemma insert_by_count_stable (n : Z) (item : pyval * Z)
  (sorted : list (pyval * Z)) :
  filter (fun line => snd line =? n) (insert_by_count item sorted)
  = filter (fun line => snd line =? n) (item :: sorted).
Proof.
  induction sorted as [|other rest IH]; cbn [insert_by_count]; [reflexivity|].
  destruct (Z.leb_spec (- snd item) (- snd other)) as [Hle|Hgt]; [reflexivity|].
  cbn [filter] in *. rewrite IH.
  destruct (Z.eqb_spec (snd other) n), (Z.eqb_spec (snd item) n);
    try reflexivity; lia.
Qed.

Lemma sorted_by_count_stable (n : Z) (items : list (pyval * Z)) :
  filter (fun line => snd line =? n) (sorted_by_count items)
  = filter (fun line => snd line =? n) items.
Proof.
  induction items as [|item items IH]; [reflexivity|].
  cbn [sorted_by_count fold_right]. fold (sorted_by_count items).
  rewrite insert_by_count_stable. cbn [filter]. rewrite IH. reflexivity.
Qed.

Lemma question_rows_fail (q : pydict) (history : list pydict) (i : nat) :
  In q history -> tabulated q = false ->
  exists e, question_rows i history = Err e.
Proof.
  intros Hin Hq. revert i.
  induction history as [|q0 rest IH]; intros i; [destruct Hin|].
  cbn [question_rows].
  destruct (table_row_of i q0) as [row|e] eqn:Erow; [|eauto].
  destruct Hin as [->|Hin].
  - exfalso. unfold table_row_of, tabulated in *.
    destruct (dict_get_or q (lit "topic") (PStr (lit "General")));
      cbn [py_slice_first sliceable andb] in *; try discriminate Erow;
      destruct (dict_get_or q (lit "difficulty") (PInt 1));
      cbn [diff_name hashable] in *; discriminate.
  - destruct (IH Hin (S i)) as [e ->]. eauto.
Qed.

Lemma question_rows_ok (history : list pydict) (i : nat) :
  Forall (fun q => tabulated q = true) history ->
  exists rows,
    question_rows i history = Ok rows /\
    map row_number rows = map py_str_nat (seq i (length history)) /\
    map row_result rows
    = map (fun q =>
             result_text (dict_get_or q (lit "is_correct") (PBool false)))
        history.
Proof.
  intros Hall. revert i.
  induction Hall as [|q rest Hq _ IH]; intros i.
  - exists []. repeat split.
  - destruct (IH (S i)) as [rows [Hrows [Hnum Hres]]].
    cbn [question_rows]. rewrite Hrows.
    unfold table_row_of, tabulated in *.
    destruct (py_slice_first 30 _) as [topic|e] eqn:Et.
    + destruct (diff_name _) as [diff|e] eqn:Ed.
      * eexists. split; [reflexivity|].
        cbn [map length seq row_number row_result].
        rewrite Hnum, Hres. split; reflexivity.
      * exfalso.
        destruct (dict_get_or q (lit "difficulty") (PInt 1));
          cbn [diff_name hashable] in *;
          rewrite ?andb_false_r in Hq; discriminate.
    + exfalso.
      destruct (dict_get_or q (lit "topic") (PStr (lit "General")));
        cbn [py_slice_first sliceable andb] in *; discriminate.
Qed.

(** X17.  Of what [generate_assessment_report] computes from the history
    (the summary section, which reads the performance data, and the layout
    calls of the PDF library apart): the question table comes first, and an
    entry whose topic cannot be sliced (a number, a bool, [null], a dict)
    or whose difficulty is not hashable raises there, before any topic is
    counted.  When every entry gets through the table, and the topics of
    the entries answered incorrectly can be keys of a dict, the table has
    one row for each entry, numbered from 1, with its result, and the lines
    of the section [Topics Needing Review] name the topics
    [get_weak_topics] returns, each once: the counts are taken in that
    very order and then sorted, most incorrect answers first, topics with
    the same count keeping the order of [get_weak_topics]; every count is
    at least 1 and the counts add up to the number of incorrect answers. *)
Theorem review_lines_match_weak_topics (history : list pydict) :
  (forall q, In q history -> tabulated q = false ->
     exists e, history_sections history = Err e) /\
  (Forall (fun q => tabulated q = true) history ->
   Forall (fun q => hashable (topic_of q) = true)
     (filter answered_wrong history) ->
   exists rows topic_counts,
     history_sections history = Ok (rows, sorted_by_count topic_counts) /\
     map row_number rows = map py_str_nat (seq 1 (length history)) /\
     map row_result rows
     = map (fun q =>
              result_text (dict_get_or q (lit "is_correct") (PBool false)))
         history /\
     map fst topic_counts = get_weak_topics history /\
     Permutation (sorted_by_count topic_counts) topic_counts /\
     StronglySorted (fun a b => snd b <= snd a)
       (sorted_by_count topic_counts) /\
     (forall n,
        filter (fun line => snd line =? n) (sorted_by_count topic_counts)
        = filter (fun line => snd line =? n) topic_counts) /\
     Forall (fun line => 1 <= snd line) topic_counts /\
     py_sum (map snd topic_counts)
     = Z.of_nat (length (filter answered_wrong history))).
Proof.
  split.
  { intros q Hin Hq. unfold history_sections.
    destruct (question_rows_fail q history 1 Hin Hq) as [e ->]. eauto. }
  intros Htab Hhash.
  destruct (question_rows_ok history 1 Htab) as [rows [Hrows [Hnum Hres]]].
  unfold history_sections. rewrite Hrows. unfold review_lines.
  match goal with |- context [fold_left ?f _ (Ok [])] => set (step := f) end.
  assert (Hstep : forall counts topic, hashable topic = true ->
            step (Ok counts) topic = Ok (count_topic counts topic)).
  { intros counts [] Hh; try discriminate Hh; reflexivity. }
  assert (Hweak : Forall (fun topic => hashable topic = true)
            (map topic_of (filter answered_wrong history))).
  { apply Forall_map. exact Hhash. }
  destruct (count_fold step _ [] Hstep Hweak) as [counts [Hf [Hk [Hs Hp]]]].
  exists rows, counts.
  split; [|split; [exact Hnum|split; [exact Hres|
    split; [|split; [|split; [|split; [|split]]]]]]].
  - destruct (map topic_of (filter answered_wrong history)) eqn:Ew.
    + cbn [fold_left] in Hf. injection Hf as <-. reflexivity.
    + rewrite Hf. reflexivity.
  - rewrite Hk. unfold get_weak_topics. symmetry. apply weak_topics_by_topic.
  - apply sorted_by_count_permutation.
  - apply sorted_by_count_sorted.
  - intros n. apply sorted_by_count_stable.
  - apply Hp. constructor.
  - rewrite Hs, length_map. reflexivity.
Qed.

Lemma review_lines_match_weak_topics_witness :
  (exists e, history_sections numbered_topic_history = Err e) /\
  (exists rows topic_counts,
     history_sections example_history
     = Ok (rows, sorted_by_count topic_counts) /\
     map row_number rows = map py_str_nat (seq 1 (length example_history)) /\
     map fst topic_counts = get_weak_topics example_history).
Proof.
  split.
  - apply (proj1 (review_lines_match_weak_topics numbered_topic_history)
             [(lit "topic", PInt 7); (lit "is_correct", PBool true)]).
    + right. right. left. reflexivity.
    + reflexivity.
  - destruct (proj2 (review_lines_match_weak_topics example_history))
      as [rows [topic_counts [Hl [Hn [_ [Hk _]]]]]].
    + repeat constructor.
    + repeat constructor.
    + exists rows, topic_counts. split; [exact Hl|split; [exact Hn|exact Hk]].
Defined.

(** ** Decoding the items of the revision guide *)

Lemma last_index_skipn (c : N) (k : nat) (s : str) (j : nat) :
  last_index c (skipn k s) = Some j -> last_index c s = Some (k + j)%nat.
Proof.
  revert s. induction k as [|k IH]; intros s; [auto|].
  destruct s as [|x s]; [discriminate|]. cbn [skipn]. intros Hj.
  cbn [last_index]. rewrite (IH s Hj). reflexivity.
Qed.

Lemma last_index_before (c : N) (k : nat) (s : str) (j : nat) :
  last_index c s = Some j -> last_index c (skipn k s) = None -> (j < k)%nat.
Proof.
  revert s j. induction k as [|k IH]; intros s j Hj Hnone.
  - cbn [skipn] in Hnone. congruence.
  - destruct s as [|x s]; [discriminate|]. cbn [skipn] in Hnone.
    cbn [last_index] in Hj. destruct (last_index c s) as [i|] eqn:Ei.
    + injection Hj as <-. specialize (IH s i Ei Hnone). lia.
    + destruct (N.eqb x c); [injection Hj as <-; lia|discriminate].
Qed.

Lemma last_index_nth (c : N) (s : str) (j : nat) :
  last_index c s = Some j -> nth_error s j = Some c.
Proof.
  revert j. induction s as [|x s IH]; intros j; cbn [last_index];
    [discriminate|].
  destruct (last_index c s) as [i|].
  - intros [= <-]. exact (IH i eq_refl).
  - destruct (N.eqb_spec x c) as [->|]; [|discriminate].
    intros [= <-]. reflexivity.
Qed.

Lemma str_find_brace_nth (s : str) (i : nat) :
  str_find (lit "{") s = Some i -> nth_error s i = Some 123%N.
Proof.
  revert i. induction s as [|c s IH]; intros i; [discriminate|].
  rewrite str_find_brace_cons. destruct (N.eqb_spec 123 c) as [<-|].
  - intros [= <-]. reflexivity.
  - destruct (str_find (lit "{") s) as [k|]; [|discriminate].
    intros [= <-]. exact (IH k eq_refl).
Qed.

Lemma skipn_last (s : str) (c : N) :
  nth_error s (length s - 1) = Some c -> s <> [] ->
  skipn (length s - 1) s = [c].
Proof.
  intros Hn Hs. destruct (exists_last Hs) as [front [x ->]].
  rewrite length_app in *. cbn [length] in *.
  replace (length front + 1 - 1)%nat with (length front) in * by lia.
  rewrite nth_error_app2 in Hn by lia. rewrite Nat.sub_diag in Hn.
  injection Hn as ->.
  rewrite skipn_app, Nat.sub_diag, skipn_all. reflexivity.
Qed.

(** What [brace_slice] cuts out: the text from the first opening brace
    through the last closing brace when the one precedes the other;
    nothing, or a lone closing brace at the end of the text, otherwise. *)
Lemma brace_slice_span (cleaned : str) :
  match brace_span cleaned with
  | Some t => brace_slice cleaned = t
  | None => brace_slice cleaned = [] \/ brace_slice cleaned = [125%N]
  end.
Proof.
  unfold brace_span, brace_slice, py_slice_int, py_find, py_rfind.
  set (n := Z.of_nat (length cleaned)).
  destruct (str_find (lit "{") cleaned) as [i|] eqn:Ei.
  - pose proof (str_find_brace_nth cleaned i Ei) as Hi.
    assert (Hin : (i < length cleaned)%nat).
    { apply nth_error_Some. congruence. }
    destruct (last_index 125 (skipn (S i) cleaned)) as [j|] eqn:Ej.
    + pose proof (last_index_skipn _ _ _ _ Ej) as Hlast.
      pose proof (last_index_lt _ _ _ Hlast) as Hlt.
      rewrite Hlast.
      destruct (Z.ltb_spec (Z.of_nat i) 0); [lia|].
      destruct (Z.ltb_spec (Z.of_nat (S i + j) + 1) 0); [lia|].
      replace (Z.min (Z.of_nat i) n) with (Z.of_nat i) by lia.
      replace (Z.min (Z.of_nat (S i + j) + 1) n)
        with (Z.of_nat (S i + j) + 1) by lia.
      rewrite Nat2Z.id. f_equal. lia.
    + left. destruct (last_index 125 cleaned) as [j|] eqn:Elast.
      * pose proof (last_index_before _ _ _ _ Elast Ej) as Hlt.
        pose proof (last_index_nth _ _ _ Elast) as Hj.
        assert (Hne : j <> i) by (intros ->; congruence).
        destruct (Z.ltb_spec (Z.of_nat i) 0); [lia|].
        destruct (Z.ltb_spec (Z.of_nat j + 1) 0); [lia|].
        replace (Z.to_nat (Z.min (Z.of_nat j + 1) n - Z.min (Z.of_nat i) n))
          with 0%nat by lia.
        reflexivity.
      * destruct (Z.ltb_spec (Z.of_nat i) 0); [lia|].
        destruct (Z.ltb_spec (-1 + 1) 0); [lia|].
        replace (Z.to_nat (Z.min (-1 + 1) n - Z.min (Z.of_nat i) n))
          with 0%nat by lia.
        reflexivity.
  - destruct (Z.ltb_spec (-1) 0); [|lia].
    destruct (last_index 125 cleaned) as [j|] eqn:Elast.
    + pose proof (last_index_lt _ _ _ Elast) as Hlt.
      pose proof (last_index_nth _ _ _ Elast) as Hj.
      destruct (Z.ltb_spec (Z.of_nat j + 1) 0); [lia|].
      destruct (Nat.eq_dec j (length cleaned - 1)) as [->|Hne].
      * right.
        replace (Z.to_nat (Z.min (Z.of_nat (length cleaned - 1) + 1) n
                           - Z.max (-1 + n) 0)) with 1%nat by lia.
        replace (Z.to_nat (Z.max (-1 + n) 0)) with (length cleaned - 1)%nat
          by lia.
        rewrite (skipn_last cleaned 125 Hj);
          [reflexivity|intros ->; cbn in Hlt; lia].
      * left.
        replace (Z.to_nat (Z.min (Z.of_nat j + 1) n - Z.max (-1 + n) 0))
          with 0%nat by lia.
        reflexivity.
    + left. destruct (Z.ltb_spec (-1 + 1) 0); [lia|].
      replace (Z.to_nat (Z.min (-1 + 1) n - Z.max (-1 + n) 0))
        with 0%nat by lia.
      reflexivity.
Qed.

Section RevisionGuide.
Context `{PythonRuntime}.

(** X18.  When [json.loads] raises [JSONDecodeError] on the reply that
    holds the items, [generate] tries once more on a piece of it, and that
    piece is the match of the pattern [\{[\s\S]*\}] that
    [_parse_json_response] uses as its last strategy, searched in the
    reply without the white space at its ends; when the pattern has no
    match, the piece is empty or a lone closing brace.  Whatever
    [json.loads] raises on the piece gives the status 500.  An exception
    of another class on the reply itself is not caught, and no second try
    is made. *)
Theorem generate_fallback_is_the_brace_match (mcq_raw : str) :
  let cleaned := rstrip (lstrip mcq_raw) in
  (forall mcqs, json_loads mcq_raw = Decoded mcqs -> mcq_json mcq_raw = Ok mcqs) /\
  (forall e, json_loads mcq_raw = Raised e -> mcq_json mcq_raw = Err e) /\
  (json_loads mcq_raw = DecodeError ->
   mcq_json mcq_raw
   = match json_loads (brace_slice cleaned) with
     | Decoded mcqs => Ok mcqs
     | DecodeError | Raised _ =>
         Err (http_error 500 (lit "Invalid MCQ JSON from AI:" ++ nl ++ mcq_raw))
     end) /\
  match re_search brace_re cleaned with
  | Some json_match => brace_slice cleaned = group0 json_match
  | None => brace_slice cleaned = [] \/ brace_slice cleaned = lit "}"
  end.
Proof.
  intros cleaned. unfold mcq_json. split; [|split; [|split]].
  - intros mcqs ->. reflexivity.
  - intros e ->. reflexivity.
  - intros ->. reflexivity.
  - pose proof (brace_slice_span cleaned) as Hs.
    rewrite <- brace_search in Hs.
    destruct (re_search brace_re cleaned); exact Hs.
Qed.
End RevisionGuide.

Lemma generate_fallback_is_the_brace_match_witness :
  @mcq_json reference_runtime wrapped_response = Ok question_object.
Proof.
  destruct (@generate_fallback_is_the_brace_match reference_runtime
              wrapped_response) as [_ [_ [Hrun _]]].
  rewrite Hrun; vm_compute; reflexivity.
Defined.

(** ** Cleaning the extracted text *)

Lemma strip_prefix_run (c : N) (k : nat) (s : str) :
  strip_prefix (repeat c k) s
  = if (k <=? run_length c s)%nat then Some (skipn k s) else None.
Proof.
  revert s. induction k as [|k IH]; intros s; [reflexivity|].
  cbn [repeat strip_prefix]. destruct s as [|x s]; [reflexivity|].
  cbn [run_length skipn]. destruct (N.eqb c x); [|reflexivity].
  rewrite IH. reflexivity.
Qed.

Lemma greedy_takes_run {R} (c : N) (k : str -> option str -> option R)
  (g : option str) (s : str) :
  (forall s' g', k s' g' <> None) ->
  re_run (StarGreedy (N.eqb c)) s g k = k (skipn (run_length c s) s) g.
Proof.
  intros Hk. induction s as [|x s IH]; [reflexivity|].
  rewrite re_run_greedy. cbn [run_length].
  destruct (N.eqb c x); [|reflexivity].
  rewrite IH. cbn [skipn].
  destruct (k (skipn (run_length c s) s) g) eqn:E; [reflexivity|].
  exfalso. exact (Hk _ _ E).
Qed.

Lemma run_length_le (c : N) (s : str) : (run_length c s <= length s)%nat.
Proof.
  induction s as [|x s IH]; cbn [run_length length]; [lia|].
  destruct (N.eqb c x); lia.
Qed.

Lemma run_length_skipn (c : N) (k : nat) (s : str) :
  (k <= run_length c s)%nat ->
  (k + run_length c (skipn k s) = run_length c s)%nat.
Proof.
  revert s. induction k as [|k IH]; intros s Hk; [reflexivity|].
  destruct s as [|x s]; [cbn in Hk; lia|].
  cbn [run_length skipn] in *. destruct (N.eqb c x); [|lia].
  specialize (IH s ltac:(lia)). lia.
Qed.

(** Where [c{k,}] matches at the head of a text, it takes the whole run. *)
Lemma at_least_match (k : nat) (c : N) (s : str) :
  re_match_at (at_least k c) s
  = if (k <=? run_length c s)%nat
    then Some (mk_match (firstn (run_length c s) s) None)
    else None.
Proof.
  unfold re_match_at, at_least. rewrite re_run_cat, re_run_chars.
  rewrite strip_prefix_run.
  destruct (Nat.leb_spec k (run_length c s)) as [Hk|Hk]; [|reflexivity].
  rewrite greedy_takes_run by discriminate.
  rewrite skipn_skipn, length_skipn.
  pose proof (run_length_skipn c k s Hk).
  pose proof (run_length_le c s).
  replace (run_length c (skipn k s) + k)%nat with (run_length c s) by lia.
  replace (length s - (length s - run_length c s))%nat
    with (run_length c s) by lia.
  reflexivity.
Qed.

Lemma re_sub_step (count k : nat) (c : N) (repl s : str) :
  re_sub (S count) (at_least k c) repl s
  = if (k <=? run_length c s)%nat
    then repl ++ re_sub count (at_least k c) repl (skipn (run_length c s) s)
    else match s with
         | [] => []
         | x :: s' => x :: re_sub count (at_least k c) repl s'
         end.
Proof.
  cbn [re_sub]. rewrite at_least_match.
  destruct (k <=? run_length c s)%nat; [|reflexivity].
  cbn [group0]. rewrite length_firstn.
  pose proof (run_length_le c s).
  replace (Nat.min (run_length c s) (length s)) with (run_length c s) by lia.
  reflexivity.
Qed.

Lemma run_length_end (c : N) (s : str) :
  hd_error (skipn (run_length c s) s) <> Some c.
Proof.
  induction s as [|x s IH]; [discriminate|]. cbn [run_length].
  destruct (N.eqb_spec c x) as [->|Hne]; [exact IH|].
  cbn [skipn hd_error]. congruence.
Qed.

Lemma re_sub_length (count k : nat) (c : N) (repl s : str) :
  (length repl <= k)%nat ->
  (length (re_sub count (at_least k c) repl s) <= length s)%nat.
Proof.
  intros Hr. revert s. induction count as [|count IH]; intros s; [cbn; lia|].
  rewrite re_sub_step.
  destruct (Nat.leb_spec k (run_length c s)) as [Hk|Hk].
  - rewrite length_app. specialize (IH (skipn (run_length c s) s)).
    rewrite length_skipn in IH. pose proof (run_length_le c s). lia.
  - destruct s as [|x s]; [cbn; lia|]. cbn [length]. specialize (IH s). lia.
Qed.

(** Replacing the runs of two spaces or more: the text a character that
    is no space starts stays started by it, and no space is left next to a
    space. *)
Lemma re_sub_spaces_head (count : nat) (s : str) :
  hd_error s <> Some 32%N ->
  hd_error (re_sub count (at_least 2 32) (lit " ") s) <> Some 32%N.
Proof.
  intros Hs. destruct count as [|count]; [exact Hs|]. rewrite re_sub_step.
  destruct s as [|x s]; [discriminate|]. cbn [run_length].
  destruct (N.eqb_spec 32 x) as [<-|Hne]; [cbn in Hs; congruence|].
  cbn [Nat.leb hd_error]. exact Hs.
Qed.

Lemma re_sub_spaces_single (count : nat) (s : str) :
  (length s < count)%nat ->
  single_spaced (re_sub count (at_least 2 32) (lit " ") s).
Proof.
  revert s. induction count as [|count IH]; intros s Hc; [lia|].
  rewrite re_sub_step.
  destruct (Nat.leb_spec 2 (run_length 32 s)) as [Hk|Hk].
  - change (lit " " ++ ?t) with (32%N :: t). cbn [single_spaced]. split.
    + intros _. apply re_sub_spaces_head, run_length_end.
    + apply IH. rewrite length_skipn. pose proof (run_length_le 32 s). lia.
  - destruct s as [|x s]; [exact I|]. cbn [single_spaced length] in *.
    split; [|apply IH; lia].
    intros ->. apply re_sub_spaces_head.
    cbn [run_length] in Hk. change (N.eqb 32 32) with true in Hk.
    destruct s as [|y s]; [discriminate|]. cbn [run_length hd_error] in *.
    destruct (N.eqb_spec 32 y) as [<-|Hne]; [lia|congruence].
Qed.

Lemma single_spaced_lstrip (s : str) :
  single_spaced s -> single_spaced (lstrip s).
Proof.
  induction s as [|c s IH]; [auto|]. cbn [lstrip].
  destruct (is_space c); [|auto]. intros [_ Hs]. exact (IH Hs).
Qed.

Lemma single_spaced_app_l (a b : str) :
  single_spaced (a ++ b) -> single_spaced a.
Proof.
  induction a as [|c a IH]; [intros _; exact I|].
  cbn [app single_spaced]. intros [Hc Hs]. split; [|exact (IH Hs)].
  intros E. specialize (Hc E). destruct a; [discriminate|exact Hc].
Qed.

Lemma single_spaced_rstrip (s : str) :
  single_spaced s -> single_spaced (rstrip s).
Proof.
  intros Hs. destruct (rstrip_prefix s) as [w Hw]. rewrite Hw in Hs.
  exact (single_spaced_app_l _ _ Hs).
Qed.

Lemma single_spaced_strip (s : str) : single_spaced s -> single_spaced (strip s).
Proof. intros Hs. apply single_spaced_rstrip, single_spaced_lstrip, Hs. Qed.

Lemma split_lines_head (s line : str) (lines : list str) (x : N) :
  split_lines s = line :: lines -> hd_error line = Some x ->
  hd_error s = Some x.
Proof.
  destruct s as [|c s]; cbn [split_lines].
  - intros [= <- _]. discriminate.
  - destruct (N.eqb c 10); [intros [= <- _]; discriminate|].
    destruct (split_lines s) as [|l ls]; intros [= <- _]; auto.
Qed.

Lemma single_spaced_lines (s : str) :
  single_spaced s -> Forall single_spaced (split_lines s).
Proof.
  induction s as [|c s IH]; [repeat constructor|].
  cbn [single_spaced split_lines]. intros [Hc Hs]. specialize (IH Hs).
  destruct (N.eqb c 10); [constructor; [exact I|exact IH]|].
  destruct (split_lines s) as [|line lines] eqn:El;
    [repeat constructor; discriminate|].
  inversion IH as [|? ? Hline Hlines]; subst. constructor; [|exact Hlines].
  cbn [single_spaced]. split; [|exact Hline].
  intros E He. specialize (Hc E). apply Hc.
  destruct line as [|y line]; [discriminate He|].
  apply (split_lines_head s (y :: line) lines); [exact El|exact He].
Qed.

Lemma single_spaced_app_line (a b : str) :
  single_spaced a -> single_spaced b -> single_spaced (a ++ nl ++ b).
Proof.
  intros Ha Hb. induction a as [|c a IH].
  - cbn. split; [discriminate|exact Hb].
  - cbn [app single_spaced] in *. destruct Ha as [Hc Ha].
    split; [|exact (IH Ha)].
    intros E. specialize (Hc E). destruct a; [cbn; discriminate|exact Hc].
Qed.

Lemma single_spaced_join (lines : list str) :
  Forall single_spaced lines -> single_spaced (join_lines lines).
Proof.
  induction 1 as [|line lines Hl Hls IH]; [exact I|].
  cbn [join_lines]. destruct lines as [|next rest]; [exact Hl|].
  apply single_spaced_app_line; [exact Hl|exact IH].
Qed.

Lemma single_spaced_no_double (s : str) :
  single_spaced s -> ~ substring (lit "  ") s.
Proof.
  intros Hs [before [after E]]. subst s.
  induction before as [|c before IH].
  - cbn in Hs. destruct Hs as [Hc _]. apply Hc; reflexivity.
  - cbn [app single_spaced] in Hs. exact (IH (proj2 Hs)).
Qed.

Lemma strip_is_stripped (s : str) :
  lstrip (strip s) = strip s /\ rstrip (strip s) = strip s.
Proof.
  unfold strip. split; [|apply rstrip_idem].
  apply lstrip_fixed.
  destruct (rstrip (lstrip s)) as [|c r] eqn:Er; [exact I|].
  destruct (rstrip_prefix (lstrip s)) as [w Hw]. rewrite Er in Hw.
  exact (lstrip_head s c (r ++ w) Hw).
Qed.

Lemma strip_length (s : str) : (length (strip s) <= length s)%nat.
Proof.
  unfold strip. pose proof (rstrip_length (lstrip s)).
  pose proof (lstrip_length s). lia.
Qed.

Lemma join_split_lines (s : str) : join_lines (split_lines s) = s.
Proof.
  induction s as [|c s IH]; [reflexivity|]. cbn [split_lines].
  destruct (N.eqb_spec c 10) as [->|Hne].
  - cbn [join_lines]. destruct (split_lines s) as [|l ls] eqn:E.
    + cbn [join_lines] in IH. subst s. discriminate E.
    + rewrite IH. reflexivity.
  - destruct (split_lines s) as [|l ls] eqn:E.
    + cbn [join_lines] in *. subst s. reflexivity.
    + cbn [join_lines] in *. destruct ls; rewrite <- IH; reflexivity.
Qed.

Lemma join_lines_shorter (f : str -> str) (lines : list str) :
  (forall line, (length (f line) <= length line)%nat) ->
  (length (join_lines (map f lines)) <= length (join_lines lines))%nat.
Proof.
  intros Hf. induction lines as [|line lines IH]; [cbn; lia|].
  cbn [map join_lines]. destruct lines as [|next rest]; [apply Hf|].
  cbn [map] in *. rewrite !length_app. specialize (Hf line). lia.
Qed.

(** Runs of spaces and of line breaks shrink, and every line and the whole
    text are stripped. *)
Example clean_text_sample :
  clean_text (lit "  a   b " ++ [10; 10; 10; 10]%N ++ lit " c" ++ [9; 10]%N)
  = lit "a b" ++ [10; 10]%N ++ lit "c".
Proof. vm_compute. reflexivity. Qed.

(** Lines are stripped after the line breaks were counted: three of them
    in a row can remain. *)
Example clean_text_blank_lines :
  clean_text (lit "a" ++ [10; 32; 10; 32; 10]%N ++ lit "b")
  = lit "a" ++ [10; 10; 10]%N ++ lit "b".
Proof. vm_compute. reflexivity. Qed.

(** A no-break space (U+00A0) and a line separator (U+2028) are stripped;
    a zero-width space (U+200B) is not white space. *)
Example clean_text_other_spaces :
  clean_text [160; 120; 32; 32; 8203; 32; 32; 121; 8232]%N
  = [120; 32; 8203; 32; 121]%N.
Proof. vm_compute. reflexivity. Qed.

Lemma rstrip_last (s front : str) (c : N) :
  rstrip s = front ++ [c] -> is_space c = false.
Proof.
  revert front. induction s as [|x s IH]; intros front.
  - destruct front; discriminate.
  - cbn [rstrip]. destruct (rstrip s) as [|k kept] eqn:Ek.
    + destruct (is_space x) eqn:Ex; [destruct front; discriminate|].
      destruct front as [|y [|z front]]; [|discriminate|discriminate].
      intros [= <-]. exact Ex.
    + destruct front as [|y front]; [discriminate|].
      cbn [app]. intros [= _ Hk]. exact (IH front Hk).
Qed.

(** X19.  The text [clean_text] returns has no two spaces in a row and no
    white space at its start or at its end (stripping it again changes
    nothing, and neither its first nor its last character is white space),
    and is never longer than the text it was given. *)
Theorem clean_text_is_tidy (text : str) :
  ~ substring (lit "  ") (clean_text text) /\
  lstrip (clean_text text) = clean_text text /\
  rstrip (clean_text text) = clean_text text /\
  (length (clean_text text) <= length text)%nat /\
  (forall c rest, clean_text text = c :: rest -> is_space c = false) /\
  (forall front c, clean_text text = front ++ [c] -> is_space c = false).
Proof.
  assert (Hl : lstrip (clean_text text) = clean_text text)
    by (unfold clean_text; apply strip_is_stripped).
  assert (Hr : rstrip (clean_text text) = clean_text text)
    by (unfold clean_text; apply strip_is_stripped).
  split; [|split; [exact Hl|split; [exact Hr|split; [|split]]]].
  - unfold clean_text.
    apply single_spaced_no_double, single_spaced_strip, single_spaced_join.
    apply Forall_map.
    eapply Forall_impl; [intros line; apply single_spaced_strip|].
    apply single_spaced_lines, re_sub_spaces_single. lia.
  - unfold clean_text.
    set (t1 := re_sub (S (length text)) (at_least 3 10) (nl ++ nl) text).
    set (t2 := re_sub (S (length t1)) (at_least 2 32) (lit " ") t1).
    pose proof (strip_length (join_lines (map strip (split_lines t2)))).
    pose proof (join_lines_shorter strip (split_lines t2) strip_length).
    rewrite join_split_lines in *.
    assert (H2 : (length t2 <= length t1)%nat)
      by exact (re_sub_length (S (length t1)) 2 32 (lit " ") t1
                  ltac:(cbn; lia)).
    assert (H1 : (length t1 <= length text)%nat)
      by exact (re_sub_length (S (length text)) 3 10 (nl ++ nl) text
                  ltac:(cbn; lia)).
    lia.
  - intros c rest E. rewrite E in Hl. cbn [lstrip] in Hl.
    destruct (is_space c) eqn:Ec; [|reflexivity].
    pose proof (lstrip_length rest) as Hlen.
    rewrite Hl in Hlen. cbn [length] in Hlen. lia.
  - intros front c E. rewrite E in Hr. exact (rstrip_last _ _ _ Hr).
Qed.
